(** * FPL data pipeline: landing extraction, watermarks and archival

    A shallow embedding of [scripts/fpl_api.py], [scripts/utility.py] and the
    per-table step of [pipeline.py], followed by the properties of the
    incremental load planner, the watermark store and the landing writer.

    Conventions of the embedding:
    - Python integers are [Z]; Python [str] values are [string] (bytes);
    - JSON payloads are the inductive [json]; a Python [dict] is an
      association list in insertion order;
    - the process state (audit ledger, bucket content, log buffer, bootstrap
      cache) is threaded explicitly through a state-and-exception monad [M];
    - everything outside the process (upstream API answers, warehouse and
      bucket availability, the clock) is read from a record [Env]. *)

From Stdlib Require Import ZArith List String Ascii Bool Lia.
From Stdlib Require Import DecimalString DecimalZ DecimalPos.
From Stdlib Require Import PrimFloat.
From Stdlib Require Import Sorted.
Import ListNotations.

Set Warnings "-register-all".

Local Open Scope string_scope.
Local Open Scope Z_scope.
Local Open Scope list_scope.

(* ------------------------------------------------------------------ *)
(** ** Python values and exceptions *)

Inductive exn : Type :=
| AttributeError
| TypeError
| KeyError
| IndexError
| ValueError
| GoogleCloudError.

Inductive result (A : Type) : Type :=
| Ok (a : A)
| Raise (e : exn).

Arguments Ok {A} a.
Arguments Raise {A} e.

(** JSON values as [response.json()] builds them.  [JNull] is Python's
    [None]; a [JDict] keeps its keys in insertion order. *)
Inductive json : Type :=
| JNull
| JBool (b : bool)
| JInt (z : Z)
| JFloat (f : float)
| JStr (s : string)
| JList (l : list json)
| JDict (d : list (string * json)).

Definition dict : Type := list (string * json).

(** Truth value of a Python object, as tested by [if data:] / [if not data:]. *)
Definition truthy (j : json) : bool :=
  match j with
  | JNull => false
  | JBool b => b
  | JInt z => negb (z =? 0)
  | JFloat f => negb (PrimFloat.eqb f 0%float)
  | JStr s => negb (s =? "")%string
  | JList l => match l with [] => false | _ => true end
  | JDict d => match d with [] => false | _ => true end
  end.

Fixpoint chars (s : string) : list json :=
  match s with
  | EmptyString => []
  | String c s' => JStr (String c EmptyString) :: chars s'
  end.

(** What a [for x in j] loop (or [list.extend(j)], or a comprehension)
    visits: the items of a list, the keys of a dict, the characters of a
    string; every other value is not iterable. *)
Definition py_iter (j : json) : result (list json) :=
  match j with
  | JList l => Ok l
  | JDict d => Ok (map (fun kv => JStr (fst kv)) d)
  | JStr s => Ok (chars s)
  | _ => Raise TypeError
  end.

(** *** Dictionaries *)

Fixpoint dict_get (k : string) (d : dict) : option json :=
  match d with
  | [] => None
  | (k', v) :: d' => if (k' =? k)%string then Some v else dict_get k d'
  end.

(** [k in d] *)
Definition dict_mem (k : string) (d : dict) : bool :=
  match dict_get k d with Some _ => true | None => false end.

(** [d[k] = v]: an existing key keeps its position, a new key goes last. *)
Fixpoint dict_set (k : string) (v : json) (d : dict) : dict :=
  match d with
  | [] => [(k, v)]
  | (k', v') :: d' =>
      if (k' =? k)%string then (k, v) :: d' else (k', v') :: dict_set k v d'
  end.

(** [del d[k]] *)
Definition dict_del (k : string) (d : dict) : dict :=
  filter (fun kv => negb (fst kv =? k)%string) d.

(** [data.get(key, default)] on an arbitrary value: only dicts have [get]. *)
Definition py_get (data : json) (k : string) (default : json) : result json :=
  match data with
  | JDict d => Ok (match dict_get k d with Some v => v | None => default end)
  | _ => Raise AttributeError
  end.

(** *** Strings *)

(** [str(n)] and [int(s)] on decimal numerals. [python_int] covers the
    numerals [str] produces (optional minus sign, digits); anything else is
    a [ValueError]. *)
Definition str (z : Z) : string := NilZero.string_of_int (Z.to_int z).

Definition python_int (s : string) : result Z :=
  match NilZero.int_of_string s with
  | Some d => Ok (Z.of_int d)
  | None => Raise ValueError
  end.

Definition lower_ascii (c : ascii) : ascii :=
  let n := N_of_ascii c in
  if ((65 <=? n) && (n <=? 90))%N then ascii_of_N (n + 32) else c.

(** [s.lower()] *)
Fixpoint lower (s : string) : string :=
  match s with
  | EmptyString => EmptyString
  | String c s' => String (lower_ascii c) (lower s')
  end.

(** [s.split(sep)] for a one-character separator, as a pair
    (first piece, remaining pieces): the result is never empty. *)
Fixpoint split_aux (sep : ascii) (s : string) : string * list string :=
  match s with
  | EmptyString => (EmptyString, [])
  | String c s' =>
      let '(hd, tl) := split_aux sep s' in
      if Ascii.eqb c sep then (EmptyString, hd :: tl)
      else (String c hd, tl)
  end.

Definition split (sep : ascii) (s : string) : list string :=
  let '(hd, tl) := split_aux sep s in hd :: tl.

(** [l[-1]] and [l[0]] *)
Definition index_last {A : Type} (l : list A) : result A :=
  match rev l with
  | [] => Raise IndexError
  | x :: _ => Ok x
  end.

Definition index_first {A : Type} (l : list A) : result A :=
  match l with
  | [] => Raise IndexError
  | x :: _ => Ok x
  end.

(** Slices [s[:n]], [s[n:]] and [s[n:m]]; out-of-range bounds are clipped. *)
Fixpoint take (n : nat) (s : string) : string :=
  match n, s with
  | S n', String c s' => String c (take n' s')
  | _, _ => EmptyString
  end.

Fixpoint drop (n : nat) (s : string) : string :=
  match n, s with
  | S n', String _ s' => drop n' s'
  | _, _ => s
  end.

Definition slice (n m : nat) (s : string) : string := take (m - n) (drop n s).

Fixpoint startswith (p s : string) : bool :=
  match p, s with
  | EmptyString, _ => true
  | String a p', String b s' => Ascii.eqb a b && startswith p' s'
  | String _ _, EmptyString => false
  end.

(** [p in s] *)
Fixpoint contains (p s : string) : bool :=
  startswith p s ||
  match s with
  | EmptyString => false
  | String _ s' => contains p s'
  end.

(** [s.endswith(p)] *)
Definition endswith (p s : string) : bool :=
  let n := String.length s in
  let k := String.length p in
  (k <=? n)%nat && (drop (n - k) s =? p)%string.

(** [sep.join(l)] *)
Fixpoint join (sep : string) (l : list string) : string :=
  match l with
  | [] => EmptyString
  | [x] => x
  | x :: l' => (x ++ sep ++ join sep l')%string
  end.

(** [range(a, b)] *)
Definition range (a b : Z) : list Z :=
  map (fun i => a + Z.of_nat i) (seq 0 (Z.to_nat (b - a))).

(* ------------------------------------------------------------------ *)
(** ** Configuration constants ([scripts/utility.py]) *)

Definition DATA_SOURCE : string := "fpl-api".

Definition newline : string := String (ascii_of_nat 10) EmptyString.

(* ------------------------------------------------------------------ *)
(** ** Process state and environment *)

(** One row of the audit ledger, as [write_audit_log] builds it. *)
Record AuditEntry : Type := mkAudit {
  data_source : string;
  tablename : string;
  load_type : string;
  record_count : Z;
  load_watermark : option string;
  load_timestamp : string;
  status : string
}.

(** Upstream endpoints reached through [call_fpl_api]. *)
Inductive endpoint : Type :=
| EpBootstrap                          (* "/bootstrap-static/" *)
| EpFixtures (event : option Z)        (* "/fixtures/", params *)
| EpLive (gameweek : Z).               (* "/event/{gameweek}/live/" *)

(** Entries of the in-memory log buffer ([scripts/log.py]); the message
    templates of [log_event] calls are kept as constructors. *)
Inductive level : Type := INFO | WARNING | ERROR | SUCCESS.

Inductive message : Type :=
| MsgCallingApi (ep : endpoint)
| MsgApiFailed (ep : endpoint)
| MsgExtracted (what : string)
| MsgLiveExtracted (gameweek : Z)
| MsgNoFilesToArchive (table : string)
| MsgArchived (file archive_path : string)
| MsgFinishedFailed
| MsgNoDataToSave (table : string)
| MsgSaved (count : Z) (path : string)
| MsgAuditErrors
| MsgAuditUpdated (table : string)
| MsgAuditFailed (table : string)
| MsgStarting (table load_type : string)
| MsgLastLoaded (table : string) (watermark : Z)
| MsgExtracting (table : string) (gameweek : Z)
| MsgNoNewData (table : string) (watermark : Z)
| MsgNoExtractor (table : string)
| MsgCompleted (table : string)
| MsgErrorProcessing (table : string) (e : exn).

Record log_entry : Type := mkLog {
  event_type : level;
  msg : message;
  log_table : option string
}.

Record State : Type := mkState {
  ledger : list AuditEntry;             (* BigQuery audit_log, append-only *)
  storage : list (string * string);     (* bucket: blob name, content *)
  log_entries : list log_entry;         (* scripts/log.py buffer *)
  bootstrap_cache : json                (* fpl_api._bootstrap_cache *)
}.

(** Gameweek metadata of the bootstrap payload, at the shape the upstream
    documents: [id], [is_current], [finished], [data_checked]. *)
Record event : Type := mkEvent {
  id : Z;
  is_current : bool;
  finished : bool;
  data_checked : bool
}.

Inductive insert_outcome : Type :=
| InsertOk              (* insert_rows_json returned no errors *)
| InsertErrors          (* insert_rows_json returned row errors *)
| InsertRaises.         (* the client raised *)

(** Everything the process observes from outside during one run. *)
Record Env : Type := mkEnv {
  (* [call_fpl_api]: the decoded body, or [None] when requests raised *)
  api_response : endpoint -> option json;
  (* the direct bootstrap fetch of [get_current_gameweek] and
     [get_latest_finished_gameweek]: the "events" list, or [None] when
     anything inside their [try] block raised *)
  bootstrap_events : option (list event);
  bq_query_ok : bool;
  bq_insert : insert_outcome;
  gcs_ok : bool;
  json_dumps : json -> string;
  today_ddmmyyyy : string;
  now_day : string;
  now_month : string;
  now_year : string;
  now_iso : string
}.

(* ------------------------------------------------------------------ *)
(** ** State and exception monad *)

Definition M (A : Type) : Type := State -> result A * State.

Definition ret {A : Type} (a : A) : M A := fun s => (Ok a, s).

Definition bind {A B : Type} (m : M A) (k : A -> M B) : M B :=
  fun s =>
    match m s with
    | (Ok a, s') => k a s'
    | (Raise e, s') => (Raise e, s')
    end.

Definition raise {A : Type} (e : exn) : M A := fun s => (Raise e, s).

(** Lifts a pure computation that may raise. *)
Definition lift {A : Type} (r : result A) : M A := fun s => (r, s).

(** [try: m except Exception as e: h e] *)
Definition try_except {A : Type} (m : M A) (h : exn -> M A) : M A :=
  fun s =>
    match m s with
    | (Ok a, s') => (Ok a, s')
    | (Raise e, s') => h e s'
    end.

Declare Scope monad_scope.
Delimit Scope monad_scope with monad.

Notation "x <- c ;; k" := (bind c (fun x => k))
  (at level 61, c at next level, right associativity) : monad_scope.
Notation "c ;; k" := (bind c (fun _ => k))
  (at level 61, right associativity) : monad_scope.

Local Open Scope monad_scope.

Fixpoint mapM {A B : Type} (f : A -> result B) (l : list A) : result (list B) :=
  match l with
  | [] => Ok []
  | x :: l' =>
      match f x with
      | Raise e => Raise e
      | Ok y =>
          match mapM f l' with
          | Raise e => Raise e
          | Ok ys => Ok (y :: ys)
          end
      end
  end.

(** [scripts/log.py]: [log_event(event_type, message, table=None)] *)
Definition log_event (event_type : level) (m : message) (table : option string)
  : M unit :=
  fun s =>
    (Ok tt,
     mkState (ledger s) (storage s)
             (log_entries s ++ [mkLog event_type m table])
             (bootstrap_cache s)).

(* ------------------------------------------------------------------ *)
(** ** Bucket operations (google.cloud.storage) *)

Fixpoint blob_get (name : string) (st : list (string * string)) : option string :=
  match st with
  | [] => None
  | (n, c) :: st' => if (n =? name)%string then Some c else blob_get name st'
  end.

Fixpoint blob_put (name content : string) (st : list (string * string))
  : list (string * string) :=
  match st with
  | [] => [(name, content)]
  | (n, c) :: st' =>
      if (n =? name)%string then (name, content) :: st'
      else (n, c) :: blob_put name content st'
  end.

Definition blob_delete (name : string) (st : list (string * string))
  : list (string * string) :=
  filter (fun nc => negb (fst nc =? name)%string) st.

Definition set_storage (st : list (string * string)) : M unit :=
  fun s => (Ok tt, mkState (ledger s) st (log_entries s) (bootstrap_cache s)).

Section Pipeline.

Variable env : Env.

(** [bucket.list_blobs(prefix=...)], names only *)
Definition list_blobs (prefix : string) : M (list string) :=
  fun s =>
    if gcs_ok env
    then (Ok (filter (startswith prefix) (map fst (storage s))), s)
    else (Raise GoogleCloudError, s).

(** [blob.upload_from_string(content)] *)
Definition upload_from_string (name content : string) : M unit :=
  fun s =>
    if gcs_ok env
    then set_storage (blob_put name content (storage s)) s
    else (Raise GoogleCloudError, s).

(** [bucket.copy_blob(source_blob, bucket, new_name)] *)
Definition copy_blob (source new_name : string) : M unit :=
  fun s =>
    if gcs_ok env
    then match blob_get source (storage s) with
         | Some c => set_storage (blob_put new_name c (storage s)) s
         | None => (Raise GoogleCloudError, s)
         end
    else (Raise GoogleCloudError, s).

(** [source_blob.delete()] *)
Definition delete_blob (name : string) : M unit :=
  fun s =>
    if gcs_ok env
    then match blob_get name (storage s) with
         | Some _ => set_storage (blob_delete name (storage s)) s
         | None => (Raise GoogleCloudError, s)
         end
    else (Raise GoogleCloudError, s).

(* ------------------------------------------------------------------ *)
(** ** [scripts/fpl_api.py] *)

Definition call_fpl_api (ep : endpoint) : M json :=
  log_event INFO (MsgCallingApi ep) None ;;
  match api_response env ep with
  | Some body => ret body
  | None => log_event ERROR (MsgApiFailed ep) None ;; ret JNull
  end.

Definition set_bootstrap_cache (j : json) : M unit :=
  fun s => (Ok tt, mkState (ledger s) (storage s) (log_entries s) j).

Definition get_bootstrap_data : M json :=
  fun s =>
    match bootstrap_cache s with
    | JNull =>
        (data <- call_fpl_api EpBootstrap ;;
         set_bootstrap_cache data ;;
         ret data) s
    | cached => (Ok cached, s)
    end.

Definition extract_players : M json :=
  data <- get_bootstrap_data ;;
  if truthy data then
    log_event INFO (MsgExtracted "Player") None ;;
    lift (py_get data "elements" (JList []))
  else ret (JList []).

Definition extract_player_positions : M json :=
  data <- get_bootstrap_data ;;
  if truthy data then
    log_event INFO (MsgExtracted "Player positions") None ;;
    lift (py_get data "element_types" (JList []))
  else ret (JList []).

Definition extract_teams : M json :=
  data <- get_bootstrap_data ;;
  if truthy data then
    log_event INFO (MsgExtracted "Team") None ;;
    lift (py_get data "teams" (JList []))
  else ret (JList []).

Definition extract_gameweeks : M json :=
  data <- get_bootstrap_data ;;
  if truthy data then
    log_event INFO (MsgExtracted "Gameweek") None ;;
    lift (py_get data "events" (JList []))
  else ret (JList []).

Definition extract_fixtures (gameweek : option Z) : M json :=
  let params :=
    match gameweek with
    | Some gw => if gw =? 0 then None else Some gw
    | None => None
    end in
  data <- call_fpl_api (EpFixtures params) ;;
  ret (if truthy data then data else JList []).

(** The body of the [for element in elements] loop of
    [extract_gameweek_live]: stamp the gameweek, then merge the nested
    "stats" dict field by field and delete it. *)
Definition merge_stats (stats element : dict) : dict :=
  fold_left (fun acc kv => dict_set (fst kv) (snd kv) acc) stats element.

Definition flatten_element (gameweek : Z) (element : json) : result json :=
  match element with
  | JDict e =>
      let e1 := dict_set "gameweek" (JInt gameweek) e in
      match dict_get "stats" e1 with
      | None => Ok (JDict e1)
      | Some (JDict stats) => Ok (JDict (dict_del "stats" (merge_stats stats e1)))
      | Some _ => Raise AttributeError
      end
  | _ => Raise TypeError
  end.

Definition extract_gameweek_live (gameweek : Z) : M json :=
  data <- call_fpl_api (EpLive gameweek) ;;
  if truthy data then
    log_event INFO (MsgLiveExtracted gameweek) None ;;
    elements <- lift (py_get data "elements" (JList [])) ;;
    items <- lift (py_iter elements) ;;
    flat <- lift (mapM (flatten_element gameweek) items) ;;
    ret (match elements with JList _ => JList flat | _ => elements end)
  else ret (JList []).

(* ------------------------------------------------------------------ *)
(** ** [scripts/utility.py] *)

Definition EXTRACTION_MAP (table : string) : option (Z -> M json) :=
  if (table =? "players")%string then Some (fun _ => extract_players)
  else if (table =? "positions")%string then Some (fun _ => extract_player_positions)
  else if (table =? "teams")%string then Some (fun _ => extract_teams)
  else if (table =? "gameweeks")%string then Some (fun _ => extract_gameweeks)
  else if (table =? "fixtures")%string then Some (fun _ => extract_fixtures None)
  else if (table =? "gameweek_live")%string then Some (fun gw => extract_gameweek_live gw)
  else None.

(** *** Archive *)

(** The [try] block of [move_existing_files_to_archive]. *)
Definition date_of_filename (file : string) : result (string * string * string) :=
  match index_last (split "_" file) with
  | Raise e => Raise e
  | Ok piece =>
      match index_first (split "." piece) with
      | Raise e => Raise e
      | Ok date_part =>
          Ok (slice 0 2 date_part, slice 2 4 date_part, drop 4 date_part)
      end
  end.

(** The [try]/[except (IndexError, ValueError)] statement: (day, month, year). *)
Definition archive_date (file : string) : result (string * string * string) :=
  match date_of_filename file with
  | Ok dmy => Ok dmy
  | Raise IndexError | Raise ValueError =>
      Ok (now_day env, now_month env, now_year env)
  | Raise e => Raise e
  end.

Definition basename (file : string) : result string := index_last (split "/" file).

Definition archive_path_of (table file : string) : result string :=
  match archive_date file with
  | Raise e => Raise e
  | Ok (day, month, year) =>
      match basename file with
      | Raise e => Raise e
      | Ok name =>
          Ok ("landing/" ++ DATA_SOURCE ++ "/archive/" ++ table ++ "/" ++ year
              ++ "/" ++ month ++ "/" ++ day ++ "/" ++ name)%string
      end
  end.

Definition archive_one (table file : string) : M unit :=
  if contains "/archive/" file then ret tt
  else
    archive_path <- lift (archive_path_of table file) ;;
    copy_blob file archive_path ;;
    delete_blob file ;;
    log_event INFO (MsgArchived file archive_path) (Some table).

Fixpoint archive_loop (table : string) (files : list string) : M unit :=
  match files with
  | [] => ret tt
  | file :: rest => archive_one table file ;; archive_loop table rest
  end.

Definition landing_prefix (table : string) : string :=
  ("landing/" ++ DATA_SOURCE ++ "/" ++ table ++ "/")%string.

Definition move_existing_files_to_archive (table : string) : M unit :=
  blobs <- list_blobs (landing_prefix table) ;;
  let existing_files := filter (endswith ".json") blobs in
  match existing_files with
  | [] => log_event INFO (MsgNoFilesToArchive table) (Some table)
  | _ => archive_loop table existing_files
  end.

(** *** Watermark store *)

(** Modelled from the spec: the schema of the warehouse table [audit_log]
    is not part of the sources; [load_watermark] is a nullable string column
    (section 6), so the warehouse's [MAX] compares strings, skips NULLs and
    yields NULL over no rows. *)
Definition max_step (acc x : option string) : option string :=
  match x, acc with
  | None, _ => acc
  | Some v, None => Some v
  | Some v, Some m => if String.ltb m v then Some v else Some m
  end.

(** [MAX(load_watermark)] over the selected rows. *)
Definition sql_max (column : list (option string)) : option string :=
  fold_left max_step column None.

(** [WHERE tablename = '{table_name}' AND data_source = '{DATA_SOURCE}'];
    the interpolated literal is read as the name itself. *)
Definition where_clause (table_name : string) (e : AuditEntry) : bool :=
  (tablename e =? table_name)%string && (data_source e =? DATA_SOURCE)%string.

(** [bq_client.query(query).result()]: an aggregate without GROUP BY
    returns exactly one row, here reduced to its [latest_watermark]. *)
Definition watermark_query (table_name : string) : M (list (option string)) :=
  fun s =>
    if bq_query_ok env
    then (Ok [sql_max (map load_watermark (filter (where_clause table_name) (ledger s)))], s)
    else (Raise GoogleCloudError, s).

Definition get_latest_watermark (table_name : string) : M Z :=
  try_except
    (result_rows <- watermark_query table_name ;;
     match result_rows with
     | row :: _ =>
         match row with
         | None => ret 0
         | Some w => if (w =? "")%string then ret 0 else lift (python_int w)
         end
     | [] => ret 0
     end)
    (fun _ => ret 0).

Definition get_current_gameweek : option Z :=
  match bootstrap_events env with
  | None => None
  | Some events =>
      match filter is_current events with
      | ev :: _ => Some (id ev)
      | [] =>
          match index_last (filter finished events) with
          | Ok ev => Some (id ev)
          | Raise _ => Some 1
          end
      end
  end.

Definition get_latest_finished_gameweek : M Z :=
  match bootstrap_events env with
  | None => log_event ERROR MsgFinishedFailed None ;; ret 0
  | Some events =>
      match index_last (filter (fun e => finished e && data_checked e) events) with
      | Ok ev => ret (id ev)
      | Raise _ => ret 0
      end
  end.

(** *** Landing and audit *)

Definition landing_path (table : string) : string :=
  ("landing/" ++ DATA_SOURCE ++ "/" ++ table ++ "/" ++ table ++ "_"
   ++ today_ddmmyyyy env ++ ".json")%string.

Definition save_to_landing (table : string) (data : json) : M Z :=
  if negb (truthy data) then
    log_event WARNING (MsgNoDataToSave table) (Some table) ;; ret 0
  else
    let json_file_path := landing_path table in
    records <- lift (py_iter data) ;;
    let json_lines := join newline (map (json_dumps env) records) in
    upload_from_string json_file_path json_lines ;;
    let record_count := Z.of_nat (List.length records) in
    log_event SUCCESS (MsgSaved record_count json_file_path) (Some table) ;;
    ret record_count.

Definition audit_record (table load_type : string) (record_count watermark_value : Z)
  : AuditEntry :=
  mkAudit DATA_SOURCE table load_type record_count
          (if watermark_value =? 0 then None else Some (str watermark_value))
          (now_iso env) "SUCCESS".

Definition insert_rows_json (row : AuditEntry) : M bool :=
  fun s =>
    match bq_insert env with
    | InsertOk =>
        (Ok false,
         mkState (ledger s ++ [row]) (storage s) (log_entries s) (bootstrap_cache s))
    | InsertErrors => (Ok true, s)
    | InsertRaises => (Raise GoogleCloudError, s)
    end.

Definition write_audit_log (table load_type : string) (record_count watermark_value : Z)
  : M unit :=
  try_except
    (errors <- insert_rows_json (audit_record table load_type record_count watermark_value) ;;
     if errors : bool
     then log_event ERROR MsgAuditErrors (Some table)
     else log_event SUCCESS (MsgAuditUpdated table) (Some table))
    (fun _ => log_event ERROR (MsgAuditFailed table) (Some table)).

(** *** Orchestrator *)

(** The [for gw in range(...)] loop of the incremental branch; [all_data]
    is the accumulator list. *)
Fixpoint extraction_loop (table : string) (gws : list Z) (all_data : list json)
  : M (list json) :=
  match gws with
  | [] => ret all_data
  | gw :: rest =>
      log_event INFO (MsgExtracting table gw) (Some table) ;;
      match EXTRACTION_MAP table with
      | Some extractor =>
          gw_data <- extractor gw ;;
          items <- lift (py_iter gw_data) ;;
          extraction_loop table rest (all_data ++ items)
      | None => extraction_loop table rest all_data
      end
  end.

Definition extract_and_save_to_landing
  (table load_type : string) (current_gameweek : Z) : M unit :=
  try_except
    (log_event INFO (MsgStarting table load_type) (Some table) ;;
     if (lower load_type =? "incremental")%string then
       last_watermark <- get_latest_watermark table ;;
       log_event INFO (MsgLastLoaded table last_watermark) (Some table) ;;
       all_data <- extraction_loop table
                     (range (last_watermark + 1) (current_gameweek + 1)) [] ;;
       match all_data with
       | [] => log_event INFO (MsgNoNewData table last_watermark) (Some table)
       | _ =>
           record_count <- save_to_landing table (JList all_data) ;;
           latest_finished_gw <- get_latest_finished_gameweek ;;
           write_audit_log table load_type record_count latest_finished_gw ;;
           log_event SUCCESS (MsgCompleted table) (Some table)
       end
     else
       match EXTRACTION_MAP table with
       | Some extractor =>
           data <- extractor current_gameweek ;;
           record_count <- save_to_landing table data ;;
           write_audit_log table load_type record_count current_gameweek ;;
           log_event SUCCESS (MsgCompleted table) (Some table)
       | None => log_event ERROR (MsgNoExtractor table) (Some table)
       end)
    (fun e => log_event ERROR (MsgErrorProcessing table e) (Some table)).

(** *** [pipeline.py], step 3: one active configuration row *)

Definition process_table (table load_type : string) (current_gw : Z) : M unit :=
  move_existing_files_to_archive table ;;
  extract_and_save_to_landing table load_type current_gw.

End Pipeline.

(* ------------------------------------------------------------------ *)
(** ** Observations on runs *)

(** Final state and returned value of a computation. *)
Definition exec {A : Type} (m : M A) (s : State) : State := snd (m s).

Definition value {A : Type} (default : A) (m : M A) (s : State) : A :=
  match fst (m s) with
  | Ok a => a
  | Raise _ => default
  end.

(** The state of a fresh process in front of an empty ledger and bucket. *)
Definition empty_state : State := mkState [] [] [] JNull.

(** The watermark a read of the audit ledger returns in state [s]. *)
Definition watermark_read (env : Env) (table : string) (s : State) : Z :=
  value 0 (get_latest_watermark env table) s.

(** The sequence numbers the planner asked for, in order, as recorded by
    the log buffer ("Extracting {table} for gameweek {gw}"). *)
Fixpoint requested (l : list log_entry) : list Z :=
  match l with
  | [] => []
  | e :: l' =>
      match msg e with
      | MsgExtracting _ gw => gw :: requested l'
      | _ => requested l'
      end
  end.

(** Landing objects written, in order ("records saved to ..."). *)
Fixpoint landing_writes (l : list log_entry) : list (Z * string) :=
  match l with
  | [] => []
  | e :: l' =>
      match msg e with
      | MsgSaved n path => (n, path) :: landing_writes l'
      | _ => landing_writes l'
      end
  end.

(** Whether the log buffer ends with "Error processing {table}". *)
Definition run_failed (s : State) : bool :=
  match rev (log_entries s) with
  | e :: _ => match msg e with MsgErrorProcessing _ _ => true | _ => false end
  | [] => false
  end.

(** The bootstrap payload [get_bootstrap_data] hands out in state [s]. *)
Definition bootstrap_view (env : Env) (s : State) : json :=
  match bootstrap_cache s with
  | JNull =>
      match api_response env EpBootstrap with
      | Some body => body
      | None => JNull
      end
  | cached => cached
  end.

(** The records one extractor call contributes to the batch. *)
Definition records_of (env : Env) (table : string) (gw : Z) (s : State) : list json :=
  match EXTRACTION_MAP env table with
  | Some extractor =>
      match fst (extractor gw s) with
      | Ok data => match py_iter data with Ok items => items | Raise _ => [] end
      | Raise _ => []
      end
  | None => []
  end.

(** The column the watermark query aggregates, and the way
    [get_latest_watermark] reads the resulting cell. *)
Definition watermark_column (l : list AuditEntry) (table : string) : list (option string) :=
  map load_watermark (filter (where_clause table) l).

Definition cell_value (cell : option string) : Z :=
  match cell with
  | None => 0
  | Some w =>
      if (w =? "")%string then 0
      else match python_int w with Ok z => z | Raise _ => 0 end
  end.

(** The numerically greatest watermark among the cells of a column. *)
Definition numeric_max (column : list (option string)) : Z :=
  fold_left Z.max (map cell_value column) 0.

(** The sequence number [get_latest_finished_gameweek] returns. *)
Definition latest_finished_gameweek (env : Env) : Z :=
  value 0 (get_latest_finished_gameweek env) empty_state.

(** The objects the archive step relocates: the ".json" blobs under the
    landing prefix of the table whose name has no "/archive/" part. *)
Definition to_archive (table : string) (st : list (string * string)) : list string :=
  filter (fun file => negb (contains "/archive/" file))
         (filter (endswith ".json")
                 (filter (startswith (landing_prefix table)) (map fst st))).

(** The relation between an upstream live element [e] and the record
    [out] returned for it. *)
Definition flattened (gameweek : Z) (e out : dict) : Prop :=
  dict_get "stats" out = None /\
  match dict_get "stats" e with
  | Some (JDict stats) =>
      NoDup (map fst stats) ->
      (forall k v, k <> "stats" -> dict_get k stats = Some v -> dict_get k out = Some v) /\
      (dict_get "gameweek" stats = None -> dict_get "gameweek" out = Some (JInt gameweek)) /\
      (forall k, k <> "stats" -> k <> "gameweek" -> dict_get k stats = None ->
                 dict_get k out = dict_get k e)
  | Some _ => False
  | None =>
      dict_get "gameweek" out = Some (JInt gameweek) /\
      (forall k, k <> "gameweek" -> dict_get k out = dict_get k e)
  end.

(** [c not in s] *)
Fixpoint char_free (c : ascii) (s : string) : bool :=
  match s with
  | EmptyString => true
  | String a s' => negb (Ascii.eqb a c) && char_free c s'
  end.

(** The same environment or state with one component replaced. *)
Definition with_events (env : Env) (events : option (list event)) : Env :=
  mkEnv (api_response env) events (bq_query_ok env) (bq_insert env)
        (gcs_ok env) (json_dumps env) (today_ddmmyyyy env)
        (now_day env) (now_month env) (now_year env) (now_iso env).

Definition set_ledger (l : list AuditEntry) (s : State) : State :=
  mkState l (storage s) (log_entries s) (bootstrap_cache s).

(** ** Values computed by the extractors

    The extractors only read the upstream answers and the bootstrap
    payload; the functions below give the value each of them returns. *)

Definition api_value (env : Env) (ep : endpoint) : json :=
  match api_response env ep with
  | Some body => body
  | None => JNull
  end.

Definition bootstrap_field (boot : json) (key : string) : result json :=
  if truthy boot then py_get boot key (JList []) else Ok (JList []).

Definition fixtures_value (env : Env) : result json :=
  let data := api_value env (EpFixtures None) in
  Ok (if truthy data then data else JList []).

Definition live_value (env : Env) (gameweek : Z) : result json :=
  let data := api_value env (EpLive gameweek) in
  if truthy data then
    match py_get data "elements" (JList []) with
    | Raise e => Raise e
    | Ok elements =>
        match py_iter elements with
        | Raise e => Raise e
        | Ok items =>
            match mapM (flatten_element gameweek) items with
            | Raise e => Raise e
            | Ok flat => Ok (match elements with JList _ => JList flat | _ => elements end)
            end
        end
    end
  else Ok (JList []).

(** The upstream elements of the live answer for a gameweek. *)
Definition live_elements (env : Env) (gameweek : Z) : list json :=
  match py_get (api_value env (EpLive gameweek)) "elements" (JList []) with
  | Ok (JList items) => items
  | _ => []
  end.

Definition extractor_value (env : Env) (boot : json) (table : string) (gw : Z)
  : option (result json) :=
  if (table =? "players")%string then Some (bootstrap_field boot "elements")
  else if (table =? "positions")%string then Some (bootstrap_field boot "element_types")
  else if (table =? "teams")%string then Some (bootstrap_field boot "teams")
  else if (table =? "gameweeks")%string then Some (bootstrap_field boot "events")
  else if (table =? "fixtures")%string then Some (fixtures_value env)
  else if (table =? "gameweek_live")%string then Some (live_value env gw)
  else None.

(** The value of the accumulator when the extraction loop ends. *)
Fixpoint batch_value (env : Env) (boot : json) (table : string) (gws : list Z)
  (all_data : list json) : result (list json) :=
  match gws with
  | [] => Ok all_data
  | gw :: rest =>
      match extractor_value env boot table gw with
      | None => batch_value env boot table rest all_data
      | Some (Raise e) => Raise e
      | Some (Ok gw_data) =>
          match py_iter gw_data with
          | Raise e => Raise e
          | Ok items => batch_value env boot table rest (all_data ++ items)
          end
      end
  end.

(** The batch of an incremental run started in state [s]. *)
Definition incremental_batch (env : Env) (table : string) (c : Z) (s : State)
  : result (list json) :=
  batch_value env (bootstrap_view env s) table
              (range (watermark_read env table s + 1) (c + 1)) [].

(** States that agree on everything a computation may not touch: ledger,
    bucket, visible bootstrap payload, requests and landing writes logged. *)
Definition frame (env : Env) (s s' : State) : Prop :=
  ledger s' = ledger s /\
  storage s' = storage s /\
  bootstrap_view env s' = bootstrap_view env s /\
  requested (log_entries s') = requested (log_entries s) /\
  landing_writes (log_entries s') = landing_writes (log_entries s).

Definition quiet_message (m : message) : Prop :=
  match m with
  | MsgExtracting _ _ | MsgSaved _ _ => False
  | _ => True
  end.

(** The state after [log_event] and after a landing upload. *)
Definition logged (s : State) (lv : level) (m : message) (t : option string) : State :=
  mkState (ledger s) (storage s) (log_entries s ++ [mkLog lv m t]) (bootstrap_cache s).

Definition uploaded (s : State) (name content : string) : State :=
  mkState (ledger s) (blob_put name content (storage s)) (log_entries s)
          (bootstrap_cache s).

(** The NDJSON body [save_to_landing] uploads for a list of records. *)
Definition json_lines (env : Env) (records : list json) : string :=
  join newline (map (json_dumps env) records).

(** ** Sample inputs *)

Definition sample_dumps (j : json) : string :=
  match j with
  | JInt z => str z
  | JStr s => s
  | JDict d => ("{" ++ join "," (map fst d) ++ "}")%string
  | _ => "?"
  end.

(** An upstream that answers nothing, with warehouse and bucket available. *)
Definition quiet_env : Env :=
  mkEnv (fun _ => None) None true InsertOk true sample_dumps
        "04112026" "04" "11" "2026" "2026-11-04T09:00:00".

Definition with_ledger (l : list AuditEntry) : State := mkState l [] [] JNull.

(** Audit rows of earlier incremental loads of "gameweek_live". *)
Definition live_row (watermark : Z) : AuditEntry :=
  audit_record quiet_env "gameweek_live" "incremental" 700 watermark.

(** A bucket holding one object. *)
Definition bucket_with (name content : string) : State :=
  mkState [] [(name, content)] [] JNull.

(** A live element as the upstream sends it. *)
Definition live_element (player minutes : Z) : json :=
  JDict [("id", JInt player);
         ("stats", JDict [("minutes", JInt minutes); ("goals_scored", JInt 1)])].

Definition sample_api (ep : endpoint) : option json :=
  match ep with
  | EpLive gw =>
      if (gw =? 4) || (gw =? 5)
      then Some (JDict [("elements", JList [live_element 1 90; live_element 2 45])])
      else None
  | _ => None
  end.

Definition sample_events : list event :=
  [mkEvent 1 false true true; mkEvent 2 false true true; mkEvent 3 false true true;
   mkEvent 4 false true true; mkEvent 5 true false false; mkEvent 6 false false false].

(** A season in which gameweeks 1 to 4 are finished and checked, gameweek 5
    is current and still open, and the live endpoint answers for 4 and 5. *)
Definition season_env : Env :=
  mkEnv sample_api (Some sample_events) true InsertOk true sample_dumps
        "04112026" "04" "11" "2026" "2026-11-04T09:00:00".

(** An upstream in which gameweek 5 is finished but not yet checked while
    gameweek 6 is already finished and checked. *)
Definition unordered_events : list event :=
  [mkEvent 4 false true true; mkEvent 5 true true false; mkEvent 6 false true true].

Definition unordered_env : Env :=
  mkEnv sample_api (Some unordered_events) true InsertOk true sample_dumps
        "04112026" "04" "11" "2026" "2026-11-04T09:00:00".

(** A bootstrap payload with two teams. *)
Definition sample_bootstrap : json :=
  JDict [("teams", JList [JDict [("id", JInt 1); ("name", JStr "Arsenal")];
                          JDict [("id", JInt 2); ("name", JStr "Aston Villa")]]);
         ("events", JList [])].

Definition bootstrap_env : Env :=
  mkEnv (fun ep => match ep with EpBootstrap => Some sample_bootstrap | _ => None end)
        (Some sample_events) true InsertOk true sample_dumps
        "04112026" "04" "11" "2026" "2026-11-04T09:00:00".

(** An upstream whose latest finished-and-checked gameweek is 9 although
    gameweek 11 is current: gameweek 10 is finished but unchecked. *)
Definition regressed_env : Env :=
  mkEnv (fun ep => match ep with
                   | EpLive 11 => Some (JDict [("elements", JList [live_element 1 90])])
                   | _ => None
                   end)
        (Some [mkEvent 8 false true true; mkEvent 9 false true true;
               mkEvent 10 false true false; mkEvent 11 true false false])
        true InsertOk true sample_dumps
        "04112026" "04" "11" "2026" "2026-11-04T09:00:00".

(** Live answers whose nested "stats" carry a key named "gameweek"
    (gameweek 7) or a key named "stats" (gameweek 8). *)
Definition colliding_env : Env :=
  mkEnv (fun ep =>
           match ep with
           | EpLive 7 =>
               Some (JDict [("elements",
                             JList [JDict [("id", JInt 1);
                                           ("stats", JDict [("minutes", JInt 90);
                                                            ("gameweek", JInt 3)])]])])
           | EpLive 8 =>
               Some (JDict [("elements",
                             JList [JDict [("id", JInt 1);
                                           ("stats", JDict [("minutes", JInt 90);
                                                            ("stats", JInt 1)])]])])
           | _ => None
           end)
        (Some sample_events) true InsertOk true sample_dumps
        "04112026" "04" "11" "2026" "2026-11-04T09:00:00".

Definition with_insert (env : Env) (outcome : insert_outcome) : Env :=
  mkEnv (api_response env) (bootstrap_events env) (bq_query_ok env) outcome
        (gcs_ok env) (json_dumps env) (today_ddmmyyyy env)
        (now_day env) (now_month env) (now_year env) (now_iso env).

(** Events listed by increasing id. *)
Definition ascending (events : list event) : Prop :=
  StronglySorted (fun a b => id a < id b) events.

(** The upstream calls made so far, in order, as recorded by the log
    buffer ("Calling FPL API: {url}"). *)
Fixpoint api_calls (l : list log_entry) : list endpoint :=
  match l with
  | [] => []
  | e :: l' =>
      match msg e with
      | MsgCallingApi ep => ep :: api_calls l'
      | _ => api_calls l'
      end
  end.

(** The datasets sliced out of the bootstrap payload. *)
Definition bootstrap_backed (table : string) : bool :=
  (table =? "players")%string || (table =? "positions")%string ||
  (table =? "teams")%string || (table =? "gameweeks")%string.

(** A live element [extract_gameweek_live] can flatten: an object whose
    "stats" field, when present, is an object. *)
Definition flattenable (element : json) : bool :=
  match element with
  | JDict e =>
      match dict_get "stats" e with
      | None | Some (JDict _) => true
      | Some _ => false
      end
  | _ => false
  end.

(** A live answer whose second element carries a "stats" field that is
    not an object. *)
Definition malformed_env : Env :=
  mkEnv (fun ep =>
           match ep with
           | EpLive 4 => Some (JDict [("elements", JList [live_element 1 90])])
           | EpLive 5 =>
               Some (JDict [("elements",
                             JList [live_element 1 90;
                                    JDict [("id", JInt 2); ("stats", JNull)]])])
           | EpLive 6 => Some (JDict [("elements", JList [live_element 1 90])])
           | _ => None
           end)
        (Some sample_events) true InsertOk true sample_dumps
        "04112026" "04" "11" "2026" "2026-11-04T09:00:00".

(* ------------------------------------------------------------------ *)
(** ** The pipeline driver

    [run_pipeline] and [fpl_api_trigger] of
    [cloud-functions/api_to_gcs_function/main.py], with [read_config_file]
    and [save_logs_to_gcs] of [scripts/utility.py].  The driver logs
    messages of its own into the same buffer as the functions it calls, so
    the buffer of a whole process holds both kinds of entries. *)

Definition CONFIG_FILE_PATH : string := "configs/load_config.csv".

(** One row of the configuration file as [csv.DictReader] yields it, for a
    file whose header names the four columns the driver reads.  A file
    whose header lacks one of them has no such rows: there [row["..."]]
    raises [KeyError] in the loop of the driver, outside any [try]; these
    files are outside the model, and what is proved about a run that reads
    rows is proved for configuration files with the four columns. *)
Module Config.
Record row : Type := mkRow {
  datasource : string;
  table_name : string;
  load_type : string;
  is_active : string
}.
End Config.

(** The messages of the driver and of [read_config_file]. *)
Inductive headline : Type :=
| PipelineStarted
| NoCurrentGameweek
| CurrentGameweek (current_gw : Z)
| ConfigLoaded (entries : nat)
| ConfigFailed
| Processing (table load_type : string)
| PipelineCompleted.

Inductive buffer_entry : Type :=
| Logged (e : log_entry)
| Headline (lv : level) (h : headline).

Record Process : Type := mkProcess {
  p_ledger : list AuditEntry;
  p_storage : list (string * string);
  p_buffer : list buffer_entry;         (* log_entries *)
  p_cache : json                        (* _bootstrap_cache *)
}.

(** What the driver observes beyond [Env]: the CSV reader ([None] when
    reading the rows raises), the serializer of the log buffer and the
    clock of the log file name. *)
Record RunEnv : Type := mkRunEnv {
  csv_rows : string -> option (list Config.row);
  log_dumps : list buffer_entry -> string;
  now_stamp : string
}.

(** The dict [run_pipeline] returns. *)
Inductive run_result : Type :=
| RunSuccess (gameweek : Z) (tables_processed : nat)
| RunError.

(** The body of the HTTP answer of [fpl_api_trigger]. *)
Inductive response_body : Type :=
| PipelineResult (r : run_result)
| PipelineFailed (e : exn).

Definition PM (A : Type) : Type := Process -> result A * Process.

Definition pret {A : Type} (a : A) : PM A := fun p => (Ok a, p).

Definition pbind {A B : Type} (m : PM A) (k : A -> PM B) : PM B :=
  fun p =>
    match m p with
    | (Ok a, p') => k a p'
    | (Raise e, p') => (Raise e, p')
    end.

Declare Scope process_scope.
Delimit Scope process_scope with process.

Notation "x <- c ;; k" := (pbind c (fun x => k))
  (at level 61, c at next level, right associativity) : process_scope.
Notation "c ;; k" := (pbind c (fun _ => k))
  (at level 61, right associativity) : process_scope.

(** A function of the pipeline called by the driver: it runs on the
    ledger, bucket and cache of the process and appends its log entries to
    the buffer. *)
Definition in_process {A : Type} (m : M A) : PM A :=
  fun p =>
    match m (mkState (p_ledger p) (p_storage p) [] (p_cache p)) with
    | (r, s') =>
        (r, mkProcess (ledger s') (storage s')
                      (p_buffer p ++ map Logged (log_entries s'))
                      (bootstrap_cache s'))
    end.

(** [log_event] called by the driver. *)
Definition headline_event (lv : level) (h : headline) : PM unit :=
  fun p =>
    (Ok tt, mkProcess (p_ledger p) (p_storage p) (p_buffer p ++ [Headline lv h])
                      (p_cache p)).

Section Driver.

Variable env : Env.
Variable renv : RunEnv.

Definition read_config_file : PM (list Config.row) :=
  fun p =>
    let downloaded :=
      if gcs_ok env then blob_get CONFIG_FILE_PATH (p_storage p) else None in
    match downloaded with
    | Some csv_content =>
        match csv_rows renv csv_content with
        | Some config_rows =>
            (headline_event INFO (ConfigLoaded (List.length config_rows)) ;;
             pret config_rows)%process p
        | None => (headline_event ERROR ConfigFailed ;; pret [])%process p
        end
    | None => (headline_event ERROR ConfigFailed ;; pret [])%process p
    end.

Definition log_filepath : string :=
  ("logs/fpl_pipeline/" ++ "pipeline_log_" ++ now_stamp renv ++ ".json")%string.

Definition save_logs_to_gcs : PM unit :=
  fun p =>
    let json_data := log_dumps renv (p_buffer p) in
    if gcs_ok env
    then (Ok tt, mkProcess (p_ledger p) (blob_put log_filepath json_data (p_storage p))
                           (p_buffer p) (p_cache p))
    else (Raise GoogleCloudError, p).

(** Step 3: [for row in config_rows]. *)
Fixpoint process_rows (config_rows : list Config.row) (current_gw : Z) : PM unit :=
  match config_rows with
  | [] => pret tt
  | row :: rest =>
      ((if (Config.is_active row =? "1")%string
           && (Config.datasource row =? DATA_SOURCE)%string
        then
          let table := Config.table_name row in
          let load_type := Config.load_type row in
          headline_event INFO (Processing table load_type) ;;
          in_process (move_existing_files_to_archive env table) ;;
          in_process (extract_and_save_to_landing env table load_type current_gw)
        else pret tt) ;;
       process_rows rest current_gw)%process
  end.

Definition run_pipeline : PM run_result :=
  fun p =>
    (* log_entries.clear(); _bootstrap_cache = None *)
    let fresh := mkProcess (p_ledger p) (p_storage p) [] JNull in
    (headline_event INFO PipelineStarted ;;
     match get_current_gameweek env with
     | None =>
         headline_event ERROR NoCurrentGameweek ;;
         save_logs_to_gcs ;;
         pret RunError
     | Some current_gw =>
         headline_event INFO (CurrentGameweek current_gw) ;;
         config_rows <- read_config_file ;;
         process_rows config_rows current_gw ;;
         headline_event INFO PipelineCompleted ;;
         save_logs_to_gcs ;;
         (fun p' => (Ok tt, mkProcess (p_ledger p') (p_storage p') (p_buffer p') JNull)) ;;
         pret (RunSuccess current_gw (List.length config_rows))
     end)%process fresh.

Definition fpl_api_trigger (p : Process) : (response_body * Z) * Process :=
  match run_pipeline p with
  | (Ok r, p') => ((PipelineResult r, 200), p')
  | (Raise e, p') => ((PipelineFailed e, 500), p')
  end.

End Driver.

(** The same state with entries put in front of its log buffer. *)
Definition prepend (l : list log_entry) (s : State) : State :=
  mkState (ledger s) (storage s) (l ++ log_entries s) (bootstrap_cache s).

(** A computation that never reads the log buffer and only appends to it. *)
Definition log_local {A : Type} (m : M A) : Prop :=
  forall l s, m (prepend l s) = (fst (m s), prepend l (snd (m s))).

(** The configuration rows the driver processes. *)
Definition active (row : Config.row) : bool :=
  (Config.is_active row =? "1")%string && (Config.datasource row =? DATA_SOURCE)%string.

(** A bucket holding the usual configuration file, and a reader for it. *)
Definition sample_rows : list Config.row :=
  [Config.mkRow "fpl-api" "teams" "full" "1";
   Config.mkRow "fpl-api" "fixtures" "full" "0";
   Config.mkRow "fpl-api" "gameweek_live" "incremental" "1"].

Definition sample_renv : RunEnv :=
  mkRunEnv (fun _ => Some sample_rows) (fun b => str (Z.of_nat (List.length b)))
           "20261104090000".

Definition configured : Process :=
  mkProcess [] [(CONFIG_FILE_PATH, "datasource,table_name,load_type,is_active")] [] JNull.

(** The season of [season_env] with the bucket out of reach. *)
Definition bucket_down_env : Env :=
  mkEnv sample_api (Some sample_events) true InsertOk false sample_dumps
        "04112026" "04" "11" "2026" "2026-11-04T09:00:00".

(** The rows [read_config_file] returns in front of the bucket of [p],
    with the bucket available. *)
Definition configured_rows (renv : RunEnv) (p : Process) : list Config.row :=
  match blob_get CONFIG_FILE_PATH (p_storage p) with
  | Some csv_content =>
      match csv_rows renv csv_content with
      | Some config_rows => config_rows
      | None => []
      end
  | None => []
  end.


(* ------------------------------------------------------------------ *)
(** ** Layer refresh triggers

    [fpl_bronze_trigger] and [fpl_silver_trigger]
    ([cloud-functions/bronze_function/main.py],
    [cloud-functions/silver_function/main.py]) are the same function over
    their dict of queries, [BRONZE_QUERIES] and [SILVER_QUERIES]. *)

Section Layer.

(** [bq_client.query(query).result()]: [None] when the job completes, the
    text of the exception when it raises. *)
Variable run_query : string -> option string.

(** The [for table_name, query in QUERIES.items()] loop; [results] is the
    dict being filled. *)
Fixpoint refresh (queries : list (string * string)) (results : dict) : dict :=
  match queries with
  | [] => results
  | (table_name, query) :: rest =>
      refresh rest
        (dict_set table_name
           (match run_query query with
            | None => JStr "success"
            | Some e => JStr ("error: " ++ e)
            end)
           results)
  end.

(** [v == "success"] *)
Definition is_success (v : json) : bool :=
  match v with
  | JStr s => (s =? "success")%string
  | _ => false
  end.

(** The status, the per-table results and the HTTP status code. *)
Definition layer_trigger (queries : list (string * string)) : (string * dict) * Z :=
  let results := refresh queries [] in
  let status :=
    if forallb (fun kv => is_success (snd kv)) results
    then "success" else "partial_failure" in
  let status_code := if (status =? "success")%string then 200 else 207 in
  ((status, results), status_code).

End Layer.

(* ================================================================== *)
(** * Properties *)

(** ** Python helpers *)

Lemma python_int_str (z : Z) : python_int (str z) = Ok z.
Proof.
  unfold python_int, str.
  rewrite NilZero.isi.
  - now rewrite DecimalZ.of_to.
  - destruct z; simpl; try discriminate.
    intros [= H]. now apply Unsigned.to_uint_nonnil in H.
  - destruct z; simpl; try discriminate.
    intros [= H]. now apply Unsigned.to_uint_nonnil in H.
Qed.

Lemma str_inj (a b : Z) : str a = str b -> a = b.
Proof.
  intros H.
  assert (E : python_int (str a) = python_int (str b)) by now rewrite H.
  rewrite !python_int_str in E. now inversion E.
Qed.

Lemma str_nonempty (z : Z) : (str z =? "")%string = false.
Proof.
  apply String.eqb_neq. intros H.
  pose proof (python_int_str z) as E. rewrite H in E. discriminate E.
Qed.

Lemma range_length (a b : Z) : List.length (range a b) = Z.to_nat (b - a).
Proof. unfold range. now rewrite length_map, length_seq. Qed.

Lemma range_nil (a b : Z) : b <= a -> range a b = [].
Proof.
  intros H. unfold range.
  replace (Z.to_nat (b - a)) with 0%nat by lia. reflexivity.
Qed.

Lemma range_cons (a b : Z) : a < b -> range a b = a :: range (a + 1) b.
Proof.
  intros H. unfold range.
  replace (Z.to_nat (b - a)) with (S (Z.to_nat (b - (a + 1)))) by lia.
  cbn [seq map]. f_equal; [lia|].
  rewrite <- seq_shift, map_map.
  apply map_ext. intros i. lia.
Qed.

Lemma in_range (a b g : Z) : In g (range a b) <-> a <= g < b.
Proof.
  unfold range. rewrite in_map_iff. split.
  - intros (i & <- & Hi). apply in_seq in Hi. lia.
  - intros H. exists (Z.to_nat (g - a)). split; [lia|].
    apply in_seq. lia.
Qed.

Lemma range_nth (a b : Z) (i : nat) :
  (i < Z.to_nat (b - a))%nat -> nth i (range a b) 0 = a + Z.of_nat i.
Proof.
  intros H. unfold range.
  rewrite (nth_indep _ 0 (a + Z.of_nat 0)) by now rewrite length_map, length_seq.
  rewrite (map_nth (fun i => a + Z.of_nat i)), seq_nth by assumption.
  reflexivity.
Qed.

(** ** String order *)

Lemma ascii_compare_refl (a : ascii) : Ascii.compare a a = Eq.
Proof. unfold Ascii.compare. apply N.compare_refl. Qed.

Lemma string_compare_refl (s : string) : String.compare s s = Eq.
Proof.
  induction s as [|a s IH]; simpl; [reflexivity|].
  now rewrite ascii_compare_refl.
Qed.

Lemma string_compare_lt_trans (a b c : string) :
  String.compare a b = Lt -> String.compare b c = Lt -> String.compare a c = Lt.
Proof.
  revert b c. induction a as [|x a IH]; intros [|y b] [|z c]; simpl;
    try discriminate; try reflexivity.
  unfold Ascii.compare.
  destruct (N.compare_spec (N_of_ascii x) (N_of_ascii y)) as [Exy|Lxy|Gxy];
    try discriminate;
    destruct (N.compare_spec (N_of_ascii y) (N_of_ascii z)) as [Eyz|Lyz|Gyz];
    try discriminate; intros H1 H2.
  - rewrite Exy, Eyz, N.compare_refl. eauto.
  - rewrite Exy. now apply N.compare_lt_iff in Lyz as ->.
  - rewrite <- Eyz. now apply N.compare_lt_iff in Lxy as ->.
  - assert (L : (N_of_ascii x < N_of_ascii z)%N) by lia.
    now apply N.compare_lt_iff in L as ->.
Qed.

Lemma string_leb_refl (s : string) : String.leb s s = true.
Proof. unfold String.leb. now rewrite string_compare_refl. Qed.

Lemma string_leb_trans (a b c : string) :
  String.leb a b = true -> String.leb b c = true -> String.leb a c = true.
Proof.
  unfold String.leb.
  destruct (String.compare a b) eqn:Eab; try discriminate;
    destruct (String.compare b c) eqn:Ebc; try discriminate; intros _ _.
  - apply String.compare_eq_iff in Eab, Ebc. subst. now rewrite string_compare_refl.
  - apply String.compare_eq_iff in Eab. subst. now rewrite Ebc.
  - apply String.compare_eq_iff in Ebc. subst. now rewrite Eab.
  - now rewrite (string_compare_lt_trans _ _ _ Eab Ebc).
Qed.

Lemma string_ltb_false_leb (a b : string) :
  String.ltb a b = false -> String.leb b a = true.
Proof.
  unfold String.ltb, String.leb. rewrite (String.compare_antisym b a).
  destruct (String.compare a b); simpl; congruence.
Qed.

Lemma string_ltb_leb (a b : string) : String.ltb a b = true -> String.leb a b = true.
Proof.
  unfold String.ltb, String.leb. destruct (String.compare a b); congruence.
Qed.

(** ** The warehouse aggregate *)

Lemma sql_max_fold (column : list (option string)) :
  sql_max column = fold_left max_step column None.
Proof. reflexivity. Qed.

Lemma max_fold_none (column : list (option string)) (acc : option string) :
  fold_left max_step column acc = None ->
  acc = None /\ forall v, ~ In (Some v) column.
Proof.
  revert acc. induction column as [|x column IH]; intros acc H; simpl in *.
  - split; [assumption | tauto].
  - apply IH in H as [H1 H2].
    destruct x as [v|], acc as [m|]; simpl in H1; try discriminate.
    + destruct (String.ltb m v); discriminate.
    + split; [reflexivity|]. intros v [E|I]; [discriminate | now apply (H2 v)].
Qed.

Lemma max_fold_some (column : list (option string)) (acc : option string) (m : string) :
  fold_left max_step column acc = Some m ->
  (acc = Some m \/ In (Some m) column) /\
  (forall v, acc = Some v \/ In (Some v) column -> String.leb v m = true).
Proof.
  revert acc. induction column as [|x column IH]; intros acc H; simpl in *.
  - split; [now left|]. intros v [E|[]]. rewrite E in H. inversion H. subst.
    apply string_leb_refl.
  - apply IH in H as [H1 H2]. split.
    + destruct H1 as [H1|H1]; [|now right; right].
      destruct x as [v|], acc as [a|]; simpl in H1.
      * destruct (String.ltb a v); inversion H1; subst; [right; now left | now left].
      * inversion H1; subst. right; now left.
      * now left.
      * discriminate.
    + intros v [E|[E|I]].
      * subst acc. destruct x as [w|]; simpl in H2.
        -- destruct (String.ltb v w) eqn:L.
           ++ apply string_leb_trans with w; [now apply string_ltb_leb|].
              apply H2. now left.
           ++ apply H2. now left.
        -- apply H2. now left.
      * subst x. destruct acc as [a|]; simpl in H2.
        -- destruct (String.ltb a v) eqn:L.
           ++ apply H2. now left.
           ++ apply string_leb_trans with a; [now apply string_ltb_false_leb|].
              apply H2. now left.
        -- apply H2. now left.
      * apply H2. now right.
Qed.

(** [sql_max] returns the greatest non-NULL cell in string order. *)
Lemma sql_max_greatest (column : list (option string)) (m : string) :
  In (Some m) column ->
  (forall v, In (Some v) column -> String.leb v m = true) ->
  sql_max column = Some m.
Proof.
  intros Hin Hmax. rewrite sql_max_fold.
  destruct (fold_left max_step column None) as [m'|] eqn:E.
  - apply max_fold_some in E as [[E|Hin'] Hmax']; [discriminate|].
    f_equal. apply String.leb_antisym.
    + apply Hmax. assumption.
    + apply Hmax'. now right.
  - apply max_fold_none in E as [_ E]. now apply E in Hin.
Qed.

Lemma sql_max_null (column : list (option string)) :
  (forall v, ~ In (Some v) column) -> sql_max column = None.
Proof.
  intros H. rewrite sql_max_fold.
  destruct (fold_left max_step column None) as [m|] eqn:E; [|reflexivity].
  apply max_fold_some in E as [[E|Hin] _]; [discriminate|]. now apply H in Hin.
Qed.

(** ** The watermark read *)

Lemma get_latest_watermark_eq (env : Env) (table : string) (s : State) :
  get_latest_watermark env table s =
  (Ok (if bq_query_ok env
       then cell_value (sql_max (watermark_column (ledger s) table))
       else 0), s).
Proof.
  unfold get_latest_watermark, try_except, bind, watermark_query, watermark_column.
  destruct (bq_query_ok env); [|reflexivity].
  destruct (sql_max _) as [w|]; [|reflexivity].
  unfold cell_value. destruct (w =? "")%string; [reflexivity|].
  unfold lift. destruct (python_int w); reflexivity.
Qed.

Lemma watermark_read_eq (env : Env) (table : string) (s : State) :
  watermark_read env table s =
  if bq_query_ok env
  then cell_value (sql_max (watermark_column (ledger s) table))
  else 0.
Proof. unfold watermark_read, value. now rewrite get_latest_watermark_eq. Qed.

Lemma cell_value_str (z : Z) : cell_value (Some (str z)) = z.
Proof. unfold cell_value. now rewrite str_nonempty, python_int_str. Qed.

Lemma numeric_max_acc_le (l : list Z) (a : Z) : a <= fold_left Z.max l a.
Proof.
  revert a. induction l as [|x l IH]; intros a; simpl; [lia|].
  specialize (IH (Z.max a x)). lia.
Qed.

Lemma numeric_max_ge (l : list Z) (a x : Z) : In x l -> x <= fold_left Z.max l a.
Proof.
  revert a. induction l as [|y l IH]; intros a; simpl; [tauto|].
  intros [->|H]; [|now apply IH].
  pose proof (numeric_max_acc_le l (Z.max a x)). lia.
Qed.

Lemma str_le_9 (z : Z) : z <= 89 -> String.leb (str z) "9" = true.
Proof.
  intros H. destruct z as [|p|p]; [reflexivity| |reflexivity].
  assert (I : In (Z.pos p) (range 1 90)) by (apply in_range; lia).
  assert (A : forallb (fun x => String.leb (str x) "9") (range 1 90) = true)
    by (vm_compute; reflexivity).
  rewrite forallb_forall in A. now apply A.
Qed.

(** The read never raises: a failed query, an absent row, a NULL or empty
    cell all come back as 0. *)
Lemma get_latest_watermark_total (env : Env) (table : string) (s : State) :
  exists w, get_latest_watermark env table s = (Ok w, s).
Proof. rewrite get_latest_watermark_eq. eauto. Qed.

Lemma get_latest_watermark_query_down (env : Env) (table : string) (s : State) :
  bq_query_ok env = false -> get_latest_watermark env table s = (Ok 0, s).
Proof. intros H. now rewrite get_latest_watermark_eq, H. Qed.

Lemma get_latest_watermark_no_entry (env : Env) (table : string) (s : State) :
  (forall e, In e (ledger s) -> where_clause table e = false) ->
  get_latest_watermark env table s = (Ok 0, s).
Proof.
  intros H. rewrite get_latest_watermark_eq.
  unfold watermark_column.
  replace (filter (where_clause table) (ledger s)) with (@nil AuditEntry).
  - now destruct (bq_query_ok env).
  - symmetry. induction (ledger s) as [|e l IH]; simpl; [reflexivity|].
    rewrite (H e) by now left. apply IH. intros e' I. apply H. now right.
Qed.

(** C9 (code defect): with watermarks 9 and 10 recorded for the dataset,
    [get_latest_watermark] returns 9, although the maximum recorded watermark
    is 10: the warehouse compares the stored strings, and "10" sorts before
    "9". *)
Theorem get_latest_watermark_below_recorded_maximum :
  let s := with_ledger [live_row 9; live_row 10] in
  get_latest_watermark quiet_env "gameweek_live" s = (Ok 9, s) /\
  numeric_max (watermark_column (ledger s) "gameweek_live") = 10.
Proof. cbv zeta. split; vm_compute; reflexivity. Qed.

(** C10 (counterexample): an audit history holding the recorded watermarks
    9, 10 and 90 reads back as 90, not 9. *)
Lemma watermark_read_9_10_90 :
  let s := with_ledger [live_row 9; live_row 10; live_row 90] in
  In (Some (str 9)) (watermark_column (ledger s) "gameweek_live") /\
  In (Some (str 10)) (watermark_column (ledger s) "gameweek_live") /\
  watermark_read quiet_env "gameweek_live" s = 90 /\
  watermark_read quiet_env "gameweek_live" s <> 9.
Proof.
  cbv zeta. split; [|split; [|split]].
  - now left.
  - right. now left.
  - vm_compute. reflexivity.
  - vm_compute. discriminate.
Qed.

(** C10 (amended): watermarks are stored as strings, so the value a
    successful read returns is the integer parse of the greatest stored
    string of the dataset in string order, not the numerical maximum; for
    every audit history that contains the recorded watermarks 9 and 10 and
    none above 89, the read returns 9 while the numerical maximum is at
    least 10. *)
Theorem watermark_read_lexicographic (env : Env) (table : string) (s : State) :
  bq_query_ok env = true ->
  let column := watermark_column (ledger s) table in
  (forall m,
      In (Some m) column ->
      (forall v, In (Some v) column -> String.leb v m = true) ->
      watermark_read env table s = cell_value (Some m)) /\
  (In (Some (str 9)) column ->
   In (Some (str 10)) column ->
   (forall v, In (Some v) column -> exists z, z <= 89 /\ v = str z) ->
   watermark_read env table s = 9 /\
   10 <= numeric_max column /\
   watermark_read env table s <> numeric_max column).
Proof.
  intros Hq column. split.
  - intros m Hin Hmax. rewrite watermark_read_eq, Hq.
    fold column. now rewrite (sql_max_greatest column m).
  - intros H9 H10 Hall.
    assert (R : watermark_read env table s = 9).
    { rewrite watermark_read_eq, Hq. fold column.
      rewrite (sql_max_greatest column (str 9)); [apply cell_value_str|assumption|].
      intros v Hv. destruct (Hall v Hv) as (z & Hz & ->). now apply str_le_9. }
    assert (N : 10 <= numeric_max column).
    { unfold numeric_max. apply numeric_max_ge.
      apply in_map_iff. exists (Some (str 10)). split; [apply cell_value_str|assumption]. }
    repeat split; [assumption|assumption|lia].
Qed.

Lemma watermark_read_lexicographic_witness :
  watermark_read quiet_env "gameweek_live" (with_ledger [live_row 10; live_row 9]) = 9.
Proof.
  refine (proj1 (proj2 (watermark_read_lexicographic quiet_env "gameweek_live"
                          (with_ledger [live_row 10; live_row 9]) eq_refl) _ _ _)).
  - right. now left.
  - now left.
  - intros v [E|[E|[]]]; inversion E; [exists 10 | exists 9]; split; (lia || reflexivity).
Defined.

(** ** Frame lemmas *)

Lemma requested_app (l l' : list log_entry) :
  requested (l ++ l') = requested l ++ requested l'.
Proof.
  induction l as [|e l IH]; simpl; [reflexivity|].
  destruct (msg e); simpl; now rewrite IH.
Qed.

Lemma landing_writes_app (l l' : list log_entry) :
  landing_writes (l ++ l') = landing_writes l ++ landing_writes l'.
Proof.
  induction l as [|e l IH]; simpl; [reflexivity|].
  destruct (msg e); simpl; now rewrite IH.
Qed.

Lemma frame_refl (env : Env) (s : State) : frame env s s.
Proof. repeat split. Qed.

Lemma frame_trans (env : Env) (s1 s2 s3 : State) :
  frame env s1 s2 -> frame env s2 s3 -> frame env s1 s3.
Proof.
  unfold frame. intros (A1 & A2 & A3 & A4 & A5) (B1 & B2 & B3 & B4 & B5).
  repeat split; congruence.
Qed.

Lemma log_event_frame (env : Env) (lv : level) (m : message) (t : option string)
  (s : State) :
  quiet_message m ->
  exists s', log_event lv m t s = (Ok tt, s') /\ frame env s s'.
Proof.
  intros Q. eexists. split; [reflexivity|].
  unfold frame; simpl. rewrite requested_app, landing_writes_app; simpl.
  destruct m; simpl in *; try contradiction; rewrite !app_nil_r; repeat split.
Qed.

Lemma call_fpl_api_spec (env : Env) (ep : endpoint) (s : State) :
  exists s', call_fpl_api env ep s = (Ok (api_value env ep), s') /\ frame env s s'.
Proof.
  unfold call_fpl_api, api_value, bind.
  destruct (log_event_frame env INFO (MsgCallingApi ep) None s I) as (s1 & -> & F1).
  destruct (api_response env ep) as [body|].
  - exists s1. now split.
  - destruct (log_event_frame env ERROR (MsgApiFailed ep) None s1 I) as (s2 & -> & F2).
    exists s2. split; [reflexivity|]. eapply frame_trans; eassumption.
Qed.

Lemma get_bootstrap_data_spec (env : Env) (s : State) :
  exists s', get_bootstrap_data env s = (Ok (bootstrap_view env s), s') /\
             frame env s s'.
Proof.
  unfold get_bootstrap_data, bootstrap_view.
  destruct (bootstrap_cache s) eqn:C;
    try (exists s; split; [reflexivity | apply frame_refl]).
  unfold bind.
  destruct (call_fpl_api_spec env EpBootstrap s) as (s1 & -> & F1).
  unfold set_bootstrap_cache, ret. simpl.
  eexists. split; [reflexivity|].
  destruct F1 as (A1 & A2 & A3 & A4 & A5).
  unfold frame, bootstrap_view; simpl. rewrite C.
  repeat split; try assumption.
  unfold api_value. destruct (api_response env EpBootstrap) as [body|]; [|reflexivity].
  now destruct body.
Qed.

Lemma extract_bootstrap_field_spec (env : Env) (what key : string) (s : State) :
  exists s',
    (data <- get_bootstrap_data env ;;
     if truthy data then
       log_event INFO (MsgExtracted what) None ;;
       lift (py_get data key (JList []))
     else ret (JList [])) s
    = (bootstrap_field (bootstrap_view env s) key, s') /\ frame env s s'.
Proof.
  unfold bind, bootstrap_field.
  destruct (get_bootstrap_data_spec env s) as (s1 & -> & F1).
  destruct (truthy (bootstrap_view env s)).
  - destruct (log_event_frame env INFO (MsgExtracted what) None s1 I) as (s2 & -> & F2).
    exists s2. split; [reflexivity|]. eapply frame_trans; eassumption.
  - exists s1. now split.
Qed.

Lemma extract_fixtures_spec (env : Env) (s : State) :
  exists s', extract_fixtures env None s = (fixtures_value env, s') /\ frame env s s'.
Proof.
  unfold extract_fixtures, fixtures_value, bind.
  destruct (call_fpl_api_spec env (EpFixtures None) s) as (s1 & -> & F1).
  exists s1. now split.
Qed.

Lemma extract_gameweek_live_spec (env : Env) (gw : Z) (s : State) :
  exists s', extract_gameweek_live env gw s = (live_value env gw, s') /\ frame env s s'.
Proof.
  unfold extract_gameweek_live, live_value, bind.
  destruct (call_fpl_api_spec env (EpLive gw) s) as (s1 & -> & F1).
  destruct (truthy (api_value env (EpLive gw))).
  - destruct (log_event_frame env INFO (MsgLiveExtracted gw) None s1 I) as (s2 & -> & F2).
    exists s2. split; [|eapply frame_trans; eassumption].
    unfold lift, ret.
    destruct (py_get _ _ _) as [elements|e]; [|reflexivity].
    destruct (py_iter elements) as [items|e]; [|reflexivity].
    destruct (mapM _ items); reflexivity.
  - exists s1. now split.
Qed.

(** Every registered extractor returns its value and touches nothing else. *)
Lemma extractor_spec (env : Env) (table : string) (gw : Z) (s : State) :
  match EXTRACTION_MAP env table, extractor_value env (bootstrap_view env s) table gw with
  | Some extractor, Some v =>
      exists s', extractor gw s = (v, s') /\ frame env s s'
  | None, None => True
  | _, _ => False
  end.
Proof.
  unfold EXTRACTION_MAP, extractor_value.
  destruct (table =? "players")%string; [apply extract_bootstrap_field_spec|].
  destruct (table =? "positions")%string; [apply extract_bootstrap_field_spec|].
  destruct (table =? "teams")%string; [apply extract_bootstrap_field_spec|].
  destruct (table =? "gameweeks")%string; [apply extract_bootstrap_field_spec|].
  destruct (table =? "fixtures")%string; [apply extract_fixtures_spec|].
  destruct (table =? "gameweek_live")%string; [apply extract_gameweek_live_spec|].
  exact I.
Qed.

(** ** The extraction loop *)

Lemma extraction_loop_spec (env : Env) (table : string) (gws : list Z) :
  forall (all_data : list json) (s : State),
  exists s' k,
    extraction_loop env table gws all_data s
    = (batch_value env (bootstrap_view env s) table gws all_data, s') /\
    ledger s' = ledger s /\
    storage s' = storage s /\
    bootstrap_view env s' = bootstrap_view env s /\
    landing_writes (log_entries s') = landing_writes (log_entries s) /\
    requested (log_entries s') = requested (log_entries s) ++ firstn k gws /\
    (forall d, batch_value env (bootstrap_view env s) table gws all_data = Ok d ->
               firstn k gws = gws).
Proof.
  induction gws as [|gw rest IH]; intros all_data s.
  - exists s, 0%nat. simpl. rewrite app_nil_r. repeat split.
  - cbn [extraction_loop batch_value]. unfold bind at 1.
    cbn [log_event].
    set (s0 := mkState (ledger s) (storage s)
                       (log_entries s ++ [mkLog INFO (MsgExtracting table gw) (Some table)])
                       (bootstrap_cache s)).
    assert (V0 : bootstrap_view env s0 = bootstrap_view env s) by reflexivity.
    assert (L0 : ledger s0 = ledger s) by reflexivity.
    assert (S0 : storage s0 = storage s) by reflexivity.
    assert (R0 : requested (log_entries s0) = requested (log_entries s) ++ [gw])
      by (unfold s0; simpl; now rewrite requested_app).
    assert (W0 : landing_writes (log_entries s0) = landing_writes (log_entries s))
      by (unfold s0; simpl; rewrite landing_writes_app; simpl; now rewrite app_nil_r).
    pose proof (extractor_spec env table gw s0) as E. rewrite V0 in E.
    destruct (EXTRACTION_MAP env table) as [extractor|],
             (extractor_value env (bootstrap_view env s) table gw) as [v|];
      try contradiction.
    + destruct E as (s1 & E1 & (F1 & F2 & F3 & F4 & F5)).
      unfold bind. rewrite E1.
      destruct v as [gw_data|e].
      * unfold lift at 1. destruct (py_iter gw_data) as [items|e].
        -- destruct (IH (all_data ++ items) s1) as (s' & k & L & A1 & A2 & A3 & A4 & A5 & A6).
           exists s', (S k). rewrite F3, V0 in L, A3, A6.
           rewrite L. split; [reflexivity|].
           split; [congruence|]. split; [congruence|]. split; [congruence|].
           split; [congruence|]. split.
           ++ rewrite A5, F4, R0, <- app_assoc. reflexivity.
           ++ intros d Hd. simpl. f_equal. eauto.
        -- exists s1, 1%nat.
           split; [reflexivity|].
           split; [congruence|]. split; [congruence|]. split; [congruence|].
           split; [congruence|]. split.
           ++ rewrite F4, R0. simpl. now destruct rest.
           ++ discriminate.
      * exists s1, 1%nat.
        split; [reflexivity|].
        split; [congruence|]. split; [congruence|]. split; [congruence|].
        split; [congruence|]. split.
        -- rewrite F4, R0. simpl. now destruct rest.
        -- discriminate.
    + destruct (IH all_data s0) as (s' & k & L & A1 & A2 & A3 & A4 & A5 & A6).
      exists s', (S k). rewrite V0 in L, A3, A6.
      rewrite L. split; [reflexivity|].
      split; [congruence|]. split; [congruence|]. split; [congruence|].
      split; [congruence|]. split.
      * rewrite A5, R0, <- app_assoc. reflexivity.
      * intros d Hd. simpl. f_equal. eauto.
Qed.

(** The batch is the concatenation, in request order, of what each
    extractor call returns. *)
Lemma records_of_value (env : Env) (table : string) (gw : Z) (s : State) :
  records_of env table gw s =
  match extractor_value env (bootstrap_view env s) table gw with
  | Some (Ok data) => match py_iter data with Ok items => items | Raise _ => [] end
  | _ => []
  end.
Proof.
  unfold records_of. pose proof (extractor_spec env table gw s) as E.
  destruct (EXTRACTION_MAP env table) as [extractor|],
           (extractor_value env (bootstrap_view env s) table gw) as [v|];
    try contradiction; [|reflexivity].
  destruct E as (s' & -> & _). reflexivity.
Qed.

Lemma batch_value_concat (env : Env) (table : string) (s : State) (gws : list Z) :
  forall all_data d,
    batch_value env (bootstrap_view env s) table gws all_data = Ok d ->
    d = all_data ++ flat_map (fun gw => records_of env table gw s) gws.
Proof.
  induction gws as [|gw rest IH]; intros all_data d H; simpl in *.
  - inversion H. now rewrite app_nil_r.
  - rewrite records_of_value.
    destruct (extractor_value env (bootstrap_view env s) table gw) as [[data|e]|];
      try discriminate.
    + destruct (py_iter data) as [items|e]; try discriminate.
      apply IH in H. now rewrite H, app_assoc.
    + now apply IH in H.
Qed.

Lemma batch_value_nothing (env : Env) (table : string) (s : State) (gws : list Z) :
  (forall gw, In gw gws -> records_of env table gw s = []) ->
  forall d, batch_value env (bootstrap_view env s) table gws [] = Ok d -> d = [].
Proof.
  intros H d Hd. apply batch_value_concat in Hd. subst d. simpl.
  induction gws as [|gw rest IH]; simpl; [reflexivity|].
  rewrite (H gw) by now left. apply IH. intros g I. apply H. now right.
Qed.

(** ** Landing writer and audit *)

Lemma log_event_eq (lv : level) (m : message) (t : option string) (s : State) :
  log_event lv m t s = (Ok tt, logged s lv m t).
Proof. reflexivity. Qed.

Lemma run_failed_logged (s : State) (lv : level) (m : message) (t : option string) :
  run_failed (logged s lv m t) =
  match m with MsgErrorProcessing _ _ => true | _ => false end.
Proof. unfold run_failed, logged; simpl. now rewrite rev_app_distr. Qed.

Lemma view_logged (env : Env) (s : State) (lv : level) (m : message) (t : option string) :
  bootstrap_view env (logged s lv m t) = bootstrap_view env s.
Proof. reflexivity. Qed.

Lemma ledger_logged (s : State) (lv : level) (m : message) (t : option string) :
  ledger (logged s lv m t) = ledger s.
Proof. reflexivity. Qed.

Lemma storage_logged (s : State) (lv : level) (m : message) (t : option string) :
  storage (logged s lv m t) = storage s.
Proof. reflexivity. Qed.

Lemma requested_logged (s : State) (lv : level) (m : message) (t : option string) :
  requested (log_entries (logged s lv m t)) =
  requested (log_entries s) ++ match m with MsgExtracting _ gw => [gw] | _ => [] end.
Proof. unfold logged; simpl. rewrite requested_app. simpl. now destruct m. Qed.

Lemma landing_writes_logged (s : State) (lv : level) (m : message) (t : option string) :
  landing_writes (log_entries (logged s lv m t)) =
  landing_writes (log_entries s) ++ match m with MsgSaved n p => [(n, p)] | _ => [] end.
Proof. unfold logged; simpl. rewrite landing_writes_app. simpl. now destruct m. Qed.

Create Rewrite HintDb logged.

#[local] Hint Rewrite view_logged ledger_logged storage_logged requested_logged
  landing_writes_logged run_failed_logged app_nil_r : logged.

Lemma save_to_landing_eq (env : Env) (table : string) (data : json) (s : State) :
  save_to_landing env table data s =
  if truthy data then
    match py_iter data with
    | Raise e => (Raise e, s)
    | Ok records =>
        if gcs_ok env then
          (Ok (Z.of_nat (List.length records)),
           logged (uploaded s (landing_path env table) (json_lines env records))
                  SUCCESS
                  (MsgSaved (Z.of_nat (List.length records)) (landing_path env table))
                  (Some table))
        else (Raise GoogleCloudError, s)
    end
  else (Ok 0, logged s WARNING (MsgNoDataToSave table) (Some table)).
Proof.
  unfold save_to_landing. destruct (truthy data); simpl; [|reflexivity].
  unfold bind, lift. destruct (py_iter data) as [records|e]; [|reflexivity].
  unfold upload_from_string. destruct (gcs_ok env); reflexivity.
Qed.

Lemma get_latest_finished_gameweek_spec (env : Env) (s : State) :
  exists s',
    get_latest_finished_gameweek env s = (Ok (latest_finished_gameweek env), s') /\
    frame env s s'.
Proof.
  unfold latest_finished_gameweek, value, get_latest_finished_gameweek.
  destruct (bootstrap_events env) as [events|].
  - destruct (index_last _); exists s; (split; [reflexivity | apply frame_refl]).
  - unfold bind. rewrite !log_event_eq. simpl.
    destruct (log_event_frame env ERROR MsgFinishedFailed None s I) as (s1 & E & F).
    rewrite log_event_eq in E. inversion E. subst s1.
    eexists. split; [reflexivity | assumption].
Qed.

Lemma write_audit_log_spec (env : Env) (table lt : string) (n wv : Z) (s : State) :
  exists s',
    write_audit_log env table lt n wv s = (Ok tt, s') /\
    ledger s' = match bq_insert env with
                | InsertOk => ledger s ++ [audit_record env table lt n wv]
                | _ => ledger s
                end /\
    storage s' = storage s /\
    bootstrap_view env s' = bootstrap_view env s /\
    requested (log_entries s') = requested (log_entries s) /\
    landing_writes (log_entries s') = landing_writes (log_entries s).
Proof.
  unfold write_audit_log, try_except, bind, insert_rows_json.
  destruct (bq_insert env); rewrite log_event_eq; eexists;
    (split; [reflexivity|]); unfold logged; simpl;
    rewrite requested_app, landing_writes_app; simpl; rewrite !app_nil_r;
    repeat split.
Qed.

(** ** Summary of one incremental run *)

Lemma incremental_run (env : Env) (table lt : string) (c : Z) (s : State) :
  (lower lt =? "incremental")%string = true ->
  let s' := exec (extract_and_save_to_landing env table lt c) s in
  let gws := range (watermark_read env table s + 1) (c + 1) in
  bootstrap_view env s' = bootstrap_view env s /\
  (exists k, requested (log_entries s') = requested (log_entries s) ++ firstn k gws /\
             (forall d, incremental_batch env table c s = Ok d -> firstn k gws = gws)) /\
  match incremental_batch env table c s with
  | Ok (x :: l) =>
      let n := Z.of_nat (List.length (x :: l)) in
      if gcs_ok env then
        storage s' = blob_put (landing_path env table) (json_lines env (x :: l)) (storage s) /\
        ledger s' = match bq_insert env with
                    | InsertOk =>
                        ledger s ++ [audit_record env table lt n (latest_finished_gameweek env)]
                    | _ => ledger s
                    end /\
        landing_writes (log_entries s')
        = landing_writes (log_entries s) ++ [(n, landing_path env table)] /\
        run_failed s' = false
      else
        storage s' = storage s /\ ledger s' = ledger s /\
        landing_writes (log_entries s') = landing_writes (log_entries s) /\
        run_failed s' = true
  | Ok [] =>
      storage s' = storage s /\ ledger s' = ledger s /\
      landing_writes (log_entries s') = landing_writes (log_entries s) /\
      run_failed s' = false
  | Raise _ =>
      storage s' = storage s /\ ledger s' = ledger s /\
      landing_writes (log_entries s') = landing_writes (log_entries s) /\
      run_failed s' = true
  end.
Proof.
  intros Hinc s' gws. subst s'. unfold exec.
  remember (extract_and_save_to_landing env table lt c s) as run eqn:Hrun.
  unfold extract_and_save_to_landing, try_except in Hrun.
  unfold bind at 1 in Hrun. rewrite log_event_eq, Hinc in Hrun.
  set (s0 := logged s INFO (MsgStarting table lt) (Some table)) in Hrun.
  unfold bind at 1 in Hrun. rewrite get_latest_watermark_eq in Hrun.
  assert (W : (if bq_query_ok env
               then cell_value (sql_max (watermark_column (ledger s0) table))
               else 0) = watermark_read env table s)
    by (now rewrite watermark_read_eq).
  rewrite W in Hrun. clear W.
  unfold bind at 1 in Hrun. rewrite log_event_eq in Hrun.
  set (s1 := logged s0 INFO (MsgLastLoaded table (watermark_read env table s)) (Some table))
    in Hrun.
  assert (V1 : bootstrap_view env s1 = bootstrap_view env s) by reflexivity.
  assert (L1 : ledger s1 = ledger s) by reflexivity.
  assert (S1 : storage s1 = storage s) by reflexivity.
  assert (R1 : requested (log_entries s1) = requested (log_entries s)).
  { unfold s1, s0, logged; simpl. rewrite !requested_app; simpl. now rewrite !app_nil_r. }
  assert (W1 : landing_writes (log_entries s1) = landing_writes (log_entries s)).
  { unfold s1, s0, logged; simpl. rewrite !landing_writes_app; simpl. now rewrite !app_nil_r. }
  destruct (extraction_loop_spec env table gws [] s1)
    as (s2 & k & L & A1 & A2 & A3 & A4 & A5 & A6).
  rewrite V1 in L, A3, A6. fold gws in Hrun.
  unfold bind at 1 in Hrun. rewrite L in Hrun.
  unfold incremental_batch. fold gws.
  destruct (batch_value env (bootstrap_view env s) table gws []) as [[|x l]|e] eqn:B.
  - (* empty batch *)
    rewrite log_event_eq in Hrun. subst run. cbn [snd].
    autorewrite with logged.
    split; [congruence|]. split; [exists k; split; [congruence|eauto]|].
    repeat split; congruence.
  - (* a batch to write *)
    unfold bind at 1 in Hrun. rewrite save_to_landing_eq in Hrun.
    cbn [truthy py_iter] in Hrun.
    destruct (gcs_ok env).
    + set (n := Z.of_nat (List.length (x :: l))) in *.
      set (s3 := logged _ SUCCESS (MsgSaved n (landing_path env table)) (Some table)) in Hrun.
      destruct (get_latest_finished_gameweek_spec env s3) as (s4 & E4 & (F1 & F2 & F3 & F4 & F5)).
      unfold bind at 1 in Hrun. rewrite E4 in Hrun.
      destruct (write_audit_log_spec env table lt n (latest_finished_gameweek env) s4)
        as (s5 & E5 & G1 & G2 & G3 & G4 & G5).
      unfold bind at 1 in Hrun. rewrite E5, log_event_eq in Hrun.
      subst run. cbn [snd].
      assert (V3 : bootstrap_view env s3 = bootstrap_view env s2) by reflexivity.
      assert (L3 : ledger s3 = ledger s2) by reflexivity.
      assert (S3 : storage s3
                   = blob_put (landing_path env table) (json_lines env (x :: l)) (storage s2))
        by reflexivity.
      assert (R3 : requested (log_entries s3) = requested (log_entries s2)).
      { unfold s3, logged, uploaded; simpl. rewrite requested_app; simpl.
        now rewrite app_nil_r. }
      assert (W3 : landing_writes (log_entries s3)
                   = landing_writes (log_entries s2) ++ [(n, landing_path env table)]).
      { unfold s3, logged, uploaded; simpl. now rewrite landing_writes_app. }
      autorewrite with logged.
      split; [congruence|]. split; [exists k; split; [congruence|eauto]|].
      split; [congruence|]. split; [|split; [congruence|reflexivity]].
      rewrite G1, F1, L3, A1, L1. reflexivity.
    + rewrite log_event_eq in Hrun. subst run. cbn [snd].
      autorewrite with logged.
      split; [congruence|]. split; [exists k; split; [congruence|eauto]|].
      repeat split; congruence.
  - (* an extractor raised *)
    rewrite log_event_eq in Hrun. subst run. cbn [snd].
    autorewrite with logged.
    split; [congruence|]. split; [exists k; split; [congruence|eauto]|].
    repeat split; congruence.
Qed.

(** ** Incremental planner *)

(** C1: for an incremental dataset with watermark [w] read from the audit
    ledger and current sequence [c], the planner walks [range(w+1, c+1)]:
    exactly the sequence numbers of the inclusive range [w+1, c], in
    increasing order, one request each; a run that is not aborted requests
    all of them and writes the concatenation of the per-sequence results as
    one landing object. With w = 3 and c = 5 the range is [4; 5]; with
    w = c it is empty and the run changes neither bucket nor ledger. *)
Theorem incremental_request_range
  (env : Env) (table lt : string) (c : Z) (s : State) :
  lower lt = "incremental" ->
  let w := watermark_read env table s in
  let gws := range (w + 1) (c + 1) in
  let s' := exec (extract_and_save_to_landing env table lt c) s in
  let batch := flat_map (fun gw => records_of env table gw s) gws in
  (forall g, In g gws <-> w + 1 <= g <= c) /\
  (forall i, (i < List.length gws)%nat -> nth i gws 0 = w + 1 + Z.of_nat i) /\
  (exists k, requested (log_entries s') = requested (log_entries s) ++ firstn k gws) /\
  (run_failed s' = false ->
   requested (log_entries s') = requested (log_entries s) ++ gws /\
   match batch with
   | [] => storage s' = storage s /\ ledger s' = ledger s
   | _ =>
       storage s' = blob_put (landing_path env table) (json_lines env batch) (storage s) /\
       landing_writes (log_entries s')
       = landing_writes (log_entries s)
           ++ [(Z.of_nat (List.length batch), landing_path env table)]
   end) /\
  (w = 3 -> c = 5 -> gws = [4; 5]) /\
  (w = c -> gws = [] /\ storage s' = storage s /\ ledger s' = ledger s /\
            landing_writes (log_entries s') = landing_writes (log_entries s)).
Proof.
  intros Hlt w gws s' batch.
  assert (Hinc : (lower lt =? "incremental")%string = true) by now apply String.eqb_eq.
  destruct (incremental_run env table lt c s Hinc) as (_ & (k & Hk & Hall) & Hcase).
  fold w gws s' in Hk, Hall, Hcase.
  split; [|split; [|split; [|split; [|split]]]].
  - intros g. unfold gws. rewrite in_range. lia.
  - intros i Hi. unfold gws in *. rewrite range_length in Hi. now apply range_nth.
  - now exists k.
  - intros Hok.
    unfold incremental_batch in Hall, Hcase. fold w gws in Hall, Hcase.
    destruct (batch_value env (bootstrap_view env s) table gws []) as [d|e] eqn:B.
    + pose proof (batch_value_concat env table s gws [] d B) as D. simpl in D.
      fold batch in D. subst d.
      split; [rewrite Hk, (Hall batch eq_refl); reflexivity|].
      destruct batch as [|x l]; [tauto|].
      destruct (gcs_ok env); [tauto|].
      destruct Hcase as (_ & _ & _ & F). congruence.
    + destruct Hcase as (_ & _ & _ & F). congruence.
  - intros Hw Hc. unfold gws. now rewrite Hw, Hc.
  - intros Hw.
    assert (G : gws = []) by (unfold gws; apply range_nil; lia).
    split; [assumption|].
    unfold incremental_batch in Hcase. fold w gws in Hcase. rewrite G in Hcase.
    simpl in Hcase. tauto.
Qed.

Lemma incremental_request_range_witness :
  let s := with_ledger [live_row 3] in
  let s' := exec (extract_and_save_to_landing season_env "gameweek_live" "incremental" 5) s in
  requested (log_entries s') = [4; 5] /\
  landing_writes (log_entries s')
  = [(4, "landing/fpl-api/gameweek_live/gameweek_live_04112026.json")].
Proof.
  pose proof (incremental_request_range season_env "gameweek_live" "incremental" 5
                (with_ledger [live_row 3]) eq_refl) as H.
  cbv zeta in H. destruct H as (_ & _ & _ & H & _).
  specialize (H eq_refl). destruct H as [H1 H2].
  split; [exact H1 | exact (proj2 H2)].
Defined.

(** C5: when the concatenated batch of an incremental run is empty (the
    range is empty, or no request in it returned a record), the run writes
    no landing object, appends no audit entry, and every later read of the
    watermark returns what it returned before. *)
Theorem empty_batch_is_noop
  (env : Env) (table lt : string) (c : Z) (s : State) :
  lower lt = "incremental" ->
  flat_map (fun gw => records_of env table gw s)
           (range (watermark_read env table s + 1) (c + 1)) = [] ->
  let s' := exec (extract_and_save_to_landing env table lt c) s in
  storage s' = storage s /\
  ledger s' = ledger s /\
  landing_writes (log_entries s') = landing_writes (log_entries s) /\
  (forall env' t, watermark_read env' t s' = watermark_read env' t s).
Proof.
  intros Hlt Hempty s'.
  assert (Hinc : (lower lt =? "incremental")%string = true) by now apply String.eqb_eq.
  destruct (incremental_run env table lt c s Hinc) as (_ & _ & Hcase).
  fold s' in Hcase. unfold incremental_batch in Hcase.
  assert (K : storage s' = storage s /\ ledger s' = ledger s /\
              landing_writes (log_entries s') = landing_writes (log_entries s)).
  { destruct (batch_value env (bootstrap_view env s) table _ []) as [d|e] eqn:B.
    - pose proof (batch_value_concat env table s _ [] d B) as D. simpl in D.
      rewrite Hempty in D. subst d. tauto.
    - tauto. }
  destruct K as (K1 & K2 & K3). repeat split; try assumption.
  intros env' t. rewrite !watermark_read_eq. now rewrite K2.
Qed.

Lemma empty_batch_is_noop_witness :
  let s := with_ledger [live_row 5] in
  let s' := exec (extract_and_save_to_landing season_env "gameweek_live" "incremental" 5) s in
  storage s' = storage s /\ ledger s' = ledger s.
Proof.
  pose proof (empty_batch_is_noop season_env "gameweek_live" "incremental" 5
                (with_ledger [live_row 5]) eq_refl eq_refl) as H.
  cbv zeta in H. split; [exact (proj1 H) | exact (proj1 (proj2 H))].
Defined.

(** Two ways for the batch to be empty: nothing to request, or a live
    endpoint that answers nothing for every requested gameweek. *)
Lemma empty_range_empty_batch (env : Env) (table : string) (c : Z) (s : State) :
  c <= watermark_read env table s ->
  flat_map (fun gw => records_of env table gw s)
           (range (watermark_read env table s + 1) (c + 1)) = [].
Proof. intros H. rewrite range_nil by lia. reflexivity. Qed.

Lemma silent_live_empty_batch (env : Env) (gws : list Z) (s : State) :
  (forall gw, In gw gws -> api_response env (EpLive gw) = None) ->
  flat_map (fun gw => records_of env "gameweek_live" gw s) gws = [].
Proof.
  induction gws as [|gw rest IH]; intros H; simpl; [reflexivity|].
  rewrite IH by (intros g I; apply H; now right).
  rewrite records_of_value. unfold extractor_value; simpl.
  unfold live_value, api_value. rewrite (H gw) by now left. reflexivity.
Qed.

(** ** Finalization guard *)

Lemma latest_finished_gameweek_eq (env : Env) :
  latest_finished_gameweek env =
  match bootstrap_events env with
  | None => 0
  | Some events =>
      match index_last (filter (fun e => finished e && data_checked e) events) with
      | Ok ev => id ev
      | Raise _ => 0
      end
  end.
Proof.
  unfold latest_finished_gameweek, value, get_latest_finished_gameweek.
  destruct (bootstrap_events env) as [events|]; [|reflexivity].
  now destruct (index_last _).
Qed.

Lemma index_last_in {A : Type} (l : list A) (x : A) : index_last l = Ok x -> In x l.
Proof.
  unfold index_last. intros H. apply in_rev.
  destruct (rev l) as [|y r]; [discriminate|]. inversion H. now left.
Qed.

(** The recomputed sequence number is 0 or the id of an event that is both
    finished and checked. *)
Lemma latest_finished_gameweek_finalized (env : Env) :
  latest_finished_gameweek env = 0 \/
  exists events ev,
    bootstrap_events env = Some events /\ In ev events /\
    finished ev = true /\ data_checked ev = true /\
    latest_finished_gameweek env = id ev.
Proof.
  rewrite latest_finished_gameweek_eq.
  destruct (bootstrap_events env) as [events|]; [|now left].
  destruct (index_last _) as [ev|e] eqn:E; [|now left].
  right. exists events, ev. apply index_last_in, filter_In in E as [I F].
  apply andb_true_iff in F as [F1 F2]. repeat split; assumption.
Qed.

(** C2 (counterexample): sequence 5 is fetched and written while its
    [data_checked] flag is false, yet the watermark recorded is 6, because
    the upstream already lists sequence 6 as finished and checked. *)
Lemma unchecked_5_records_6 :
  let s := with_ledger [live_row 4] in
  let s' := exec (extract_and_save_to_landing unordered_env "gameweek_live" "incremental" 5) s in
  requested (log_entries s') = [5] /\
  landing_writes (log_entries s')
  = [(2, "landing/fpl-api/gameweek_live/gameweek_live_04112026.json")] /\
  map load_watermark (ledger s') = [Some "4"; Some "6"] /\
  ~ (6 <= 4).
Proof. cbv zeta. split; [|split; [|split]]; try (vm_compute; reflexivity). lia. Qed.

(** C2 (amended): an incremental run with a non-empty batch that completes
    records as watermark the recomputed latest finished-and-checked sequence
    number, whatever the current sequence is (the cell is NULL when that
    number is 0), and no run appends any other audit entry; hence if
    sequence 5 was fetched and written while neither it nor any higher
    sequence is both finished and checked upstream, the recorded watermark
    is at most 4. *)
Theorem recorded_watermark_is_latest_finished
  (env : Env) (table lt : string) (c : Z) (s : State) :
  lower lt = "incremental" ->
  let s' := exec (extract_and_save_to_landing env table lt c) s in
  let batch := flat_map (fun gw => records_of env table gw s)
                        (range (watermark_read env table s + 1) (c + 1)) in
  let final := latest_finished_gameweek env in
  let entry := audit_record env table lt (Z.of_nat (List.length batch)) final in
  (ledger s' = ledger s \/ ledger s' = ledger s ++ [entry]) /\
  (batch <> [] -> run_failed s' = false -> bq_insert env = InsertOk ->
   ledger s' = ledger s ++ [entry]) /\
  load_watermark entry = (if final =? 0 then None else Some (str final)) /\
  cell_value (load_watermark entry) = final /\
  ((forall events ev, bootstrap_events env = Some events -> In ev events ->
                      5 <= id ev -> finished ev && data_checked ev = false) ->
   cell_value (load_watermark entry) <= 4).
Proof.
  intros Hlt s' batch final entry.
  assert (Hinc : (lower lt =? "incremental")%string = true) by now apply String.eqb_eq.
  destruct (incremental_run env table lt c s Hinc) as (_ & _ & Hcase).
  fold s' in Hcase. unfold incremental_batch in Hcase.
  assert (V : cell_value (load_watermark entry) = final).
  { unfold entry, audit_record; simpl.
    destruct (final =? 0) eqn:Z0; [simpl; lia | apply cell_value_str]. }
  destruct (batch_value env (bootstrap_view env s) table _ []) as [d|e] eqn:B.
  - pose proof (batch_value_concat env table s _ [] d B) as D. simpl in D.
    fold batch in D. subst d.
    split; [|split; [|split; [reflexivity|split; [exact V|]]]].
    + destruct batch as [|x l]; [tauto|].
      destruct (gcs_ok env); [|tauto].
      destruct Hcase as (_ & H & _). rewrite H.
      destruct (bq_insert env); [right; reflexivity | now left | now left].
    + intros Hne Hok Hins.
      destruct batch as [|x l]; [congruence|].
      destruct (gcs_ok env).
      * destruct Hcase as (_ & H & _). now rewrite H, Hins.
      * destruct Hcase as (_ & _ & _ & F). congruence.
    + intros Hup. rewrite V. unfold final.
      destruct (latest_finished_gameweek_finalized env)
        as [Z0|(events & ev & E & I & F1 & F2 & Eid)]; [lia|].
      destruct (Z_lt_le_dec (id ev) 5) as [Lt5|Ge5]; [lia|].
      specialize (Hup events ev E I Ge5). rewrite F1, F2 in Hup. discriminate.
  - split; [|split; [|split; [reflexivity|split; [exact V|]]]].
    + left. tauto.
    + intros _ Hok _. destruct Hcase as (_ & _ & _ & F). congruence.
    + intros Hup. rewrite V. unfold final.
      destruct (latest_finished_gameweek_finalized env)
        as [Z0|(events & ev & E & I & F1 & F2 & Eid)]; [lia|].
      destruct (Z_lt_le_dec (id ev) 5) as [Lt5|Ge5]; [lia|].
      specialize (Hup events ev E I Ge5). rewrite F1, F2 in Hup. discriminate.
Qed.

Lemma recorded_watermark_is_latest_finished_witness :
  let s := with_ledger [live_row 3] in
  let s' := exec (extract_and_save_to_landing season_env "gameweek_live" "incremental" 5) s in
  map load_watermark (ledger s') = [Some "3"; Some "4"].
Proof.
  pose proof (recorded_watermark_is_latest_finished season_env "gameweek_live"
                "incremental" 5 (with_ledger [live_row 3]) eq_refl) as H.
  cbv zeta in H. destruct H as (_ & H & _). cbv zeta.
  rewrite H; [reflexivity | discriminate | reflexivity | reflexivity].
Defined.

(** ** Full loads *)

Lemma blob_get_put (name content : string) (st : list (string * string)) :
  blob_get name (blob_put name content st) = Some content.
Proof.
  induction st as [|[n c] st IH]; simpl.
  - now rewrite String.eqb_refl.
  - destruct (n =? name)%string eqn:E; simpl.
    + now rewrite String.eqb_refl.
    + now rewrite E.
Qed.

Lemma full_run (env : Env) (table lt : string) (c : Z) (s : State) :
  (lower lt =? "incremental")%string = false ->
  let s' := exec (extract_and_save_to_landing env table lt c) s in
  let appended n :=
    match bq_insert env with
    | InsertOk => ledger s ++ [audit_record env table lt n c]
    | _ => ledger s
    end in
  match extractor_value env (bootstrap_view env s) table c with
  | Some (Ok data) =>
      if truthy data then
        match py_iter data with
        | Ok records =>
            if gcs_ok env then
              storage s'
              = blob_put (landing_path env table) (json_lines env records) (storage s) /\
              ledger s' = appended (Z.of_nat (List.length records)) /\
              landing_writes (log_entries s')
              = landing_writes (log_entries s)
                  ++ [(Z.of_nat (List.length records), landing_path env table)]
            else storage s' = storage s /\ ledger s' = ledger s /\
                 landing_writes (log_entries s') = landing_writes (log_entries s)
        | Raise _ => storage s' = storage s /\ ledger s' = ledger s /\
                     landing_writes (log_entries s') = landing_writes (log_entries s)
        end
      else storage s' = storage s /\ ledger s' = appended 0 /\
           landing_writes (log_entries s') = landing_writes (log_entries s)
  | _ => storage s' = storage s /\ ledger s' = ledger s /\
         landing_writes (log_entries s') = landing_writes (log_entries s)
  end.
Proof.
  intros Hfull s' appended. subst s'. unfold exec.
  remember (extract_and_save_to_landing env table lt c s) as run eqn:Hrun.
  unfold extract_and_save_to_landing, try_except in Hrun.
  unfold bind at 1 in Hrun. rewrite log_event_eq, Hfull in Hrun.
  set (s0 := logged s INFO (MsgStarting table lt) (Some table)) in Hrun.
  pose proof (extractor_spec env table c s0) as E.
  change (bootstrap_view env s0) with (bootstrap_view env s) in E.
  destruct (EXTRACTION_MAP env table) as [extractor|],
           (extractor_value env (bootstrap_view env s) table c) as [v|];
    try contradiction.
  - destruct E as (s1 & E1 & (F1 & F2 & F3 & F4 & F5)).
    unfold bind at 1 in Hrun. rewrite E1 in Hrun.
    assert (L1 : ledger s1 = ledger s) by (rewrite F1; reflexivity).
    assert (S1 : storage s1 = storage s) by (rewrite F2; reflexivity).
    assert (W1 : landing_writes (log_entries s1) = landing_writes (log_entries s)).
    { rewrite F5. unfold s0. autorewrite with logged. reflexivity. }
    destruct v as [data|e].
    + unfold bind at 1 in Hrun. rewrite save_to_landing_eq in Hrun.
      destruct (truthy data).
      * destruct (py_iter data) as [records|e].
        -- destruct (gcs_ok env).
           ++ set (n := Z.of_nat (List.length records)) in *.
              set (s2 := logged _ SUCCESS (MsgSaved n (landing_path env table)) (Some table))
                in Hrun.
              destruct (write_audit_log_spec env table lt n c s2)
                as (s3 & E3 & G1 & G2 & G3 & G4 & G5).
              unfold bind at 1 in Hrun. rewrite E3, log_event_eq in Hrun.
              subst run. cbn [snd]. autorewrite with logged.
              rewrite G1, G2, G5. unfold s2, uploaded. autorewrite with logged.
              simpl. unfold appended. rewrite L1, S1, W1. repeat split.
           ++ rewrite log_event_eq in Hrun. subst run. cbn [snd].
              autorewrite with logged. repeat split; assumption.
        -- rewrite log_event_eq in Hrun. subst run. cbn [snd].
           autorewrite with logged. repeat split; assumption.
      * set (s2 := logged s1 WARNING (MsgNoDataToSave table) (Some table)) in Hrun.
        destruct (write_audit_log_spec env table lt 0 c s2)
          as (s3 & E3 & G1 & G2 & G3 & G4 & G5).
        unfold bind at 1 in Hrun. rewrite E3, log_event_eq in Hrun.
        subst run. cbn [snd]. autorewrite with logged.
        rewrite G1, G2, G5. unfold s2. autorewrite with logged.
        unfold appended. rewrite L1, S1, W1. repeat split.
    + rewrite log_event_eq in Hrun. subst run. cbn [snd].
      autorewrite with logged. repeat split; assumption.
  - rewrite log_event_eq in Hrun. subst run. cbn [snd].
    unfold s0. autorewrite with logged. repeat split.
Qed.

(** C6: a run of a dataset whose load type is not incremental (in
    particular [full]) never reads the audit ledger: whatever the ledger
    holds and whatever the finalization state upstream, it uploads every
    record its extractor returned, as one landing object, and the audit
    entry it appends carries the current sequence number as watermark (a
    NULL cell when that number is 0). *)
Theorem full_load_snapshot
  (env : Env) (table lt : string) (c : Z) (s : State)
  (extractor : Z -> M json) (data : json) (records : list json) :
  lower lt <> "incremental" ->
  EXTRACTION_MAP env table = Some extractor ->
  fst (extractor c s) = Ok data ->
  py_iter data = Ok records ->
  gcs_ok env = true ->
  bq_insert env = InsertOk ->
  let entry := audit_record env table lt (Z.of_nat (List.length records)) c in
  let written st :=
    match records with
    | [] => st
    | _ => blob_put (landing_path env table) (json_lines env records) st
    end in
  (forall l events,
      let s' := exec (extract_and_save_to_landing (with_events env events) table lt c)
                     (set_ledger l s) in
      storage s' = written (storage s) /\ ledger s' = l ++ [entry]) /\
  (records <> [] ->
   blob_get (landing_path env table)
            (storage (exec (extract_and_save_to_landing env table lt c) s))
   = Some (json_lines env records)) /\
  load_watermark entry = (if c =? 0 then None else Some (str c)) /\
  cell_value (load_watermark entry) = c.
Proof.
  intros Hlt Hex Hdata Hiter Hgcs Hins entry written.
  assert (Hfull : (lower lt =? "incremental")%string = false) by now apply String.eqb_neq.
  assert (Hv : extractor_value env (bootstrap_view env s) table c = Some (Ok data)).
  { pose proof (extractor_spec env table c s) as E. rewrite Hex in E.
    destruct (extractor_value env (bootstrap_view env s) table c) as [v|]; [|contradiction].
    destruct E as (s1 & E1 & _). rewrite E1 in Hdata. simpl in Hdata. now subst v. }
  assert (Hrun : forall l events,
             let s' := exec (extract_and_save_to_landing (with_events env events) table lt c)
                            (set_ledger l s) in
             storage s' = written (storage s) /\ ledger s' = l ++ [entry]).
  { intros l events s'.
    pose proof (full_run (with_events env events) table lt c (set_ledger l s) Hfull) as R.
    cbv zeta in R. fold s' in R.
    change (extractor_value (with_events env events)
              (bootstrap_view (with_events env events) (set_ledger l s)) table c)
      with (extractor_value env (bootstrap_view env s) table c) in R.
    rewrite Hv, Hiter in R.
    change (gcs_ok (with_events env events)) with (gcs_ok env) in R.
    change (bq_insert (with_events env events)) with (bq_insert env) in R.
    rewrite Hgcs, Hins in R.
    destruct (truthy data) eqn:T.
    - destruct R as (R1 & R2 & _). split; [|exact R2].
      rewrite R1. unfold written.
      destruct records; [|reflexivity].
      destruct data; simpl in Hiter, T; try discriminate.
      + destruct s0; simpl in *; [discriminate|inversion Hiter].
      + destruct l0; [discriminate|inversion Hiter].
      + destruct d; [discriminate|inversion Hiter].
    - destruct R as (R1 & R2 & _).
      assert (N : records = []).
      { destruct data; simpl in Hiter, T; try discriminate.
        - apply negb_false_iff, String.eqb_eq in T. subst. now inversion Hiter.
        - destruct l0; [now inversion Hiter|discriminate].
        - destruct d; [now inversion Hiter|discriminate]. }
      subst records. split; [exact R1 | exact R2]. }
  split; [exact Hrun|]. split; [|split].
  - intros Hne.
    destruct (Hrun (ledger s) (bootstrap_events env)) as [R _].
    replace (with_events env (bootstrap_events env)) with env in R by now destruct env.
    replace (set_ledger (ledger s) s) with s in R by now destruct s.
    rewrite R. unfold written. destruct records; [congruence|]. apply blob_get_put.
  - reflexivity.
  - unfold entry, audit_record; simpl.
    destruct (c =? 0) eqn:Z0; [simpl; lia | apply cell_value_str].
Qed.

Lemma full_load_snapshot_witness :
  let s := with_ledger [live_row 9; live_row 10] in
  let s' := exec (extract_and_save_to_landing bootstrap_env "teams" "full" 5) s in
  blob_get "landing/fpl-api/teams/teams_04112026.json" (storage s')
  = Some (json_lines bootstrap_env
            [JDict [("id", JInt 1); ("name", JStr "Arsenal")];
             JDict [("id", JInt 2); ("name", JStr "Aston Villa")]]).
Proof.
  refine (proj1 (proj2
    (full_load_snapshot bootstrap_env "teams" "full" 5
       (with_ledger [live_row 9; live_row 10])
       (fun _ => extract_teams bootstrap_env) _ _ _ eq_refl eq_refl eq_refl eq_refl eq_refl))
    _).
  - discriminate.
  - discriminate.
Defined.

(** The ledger after an incremental run: unchanged, or extended by one
    entry that records the recomputed latest finished sequence. *)
Lemma recorded_entry_cases (env : Env) (table lt : string) (c : Z) (s : State) :
  (lower lt =? "incremental")%string = true ->
  let s' := exec (extract_and_save_to_landing env table lt c) s in
  ledger s' = ledger s \/
  exists n, ledger s' = ledger s ++ [audit_record env table lt n (latest_finished_gameweek env)].
Proof.
  intros Hinc s'.
  destruct (incremental_run env table lt c s Hinc) as (_ & _ & Hcase). fold s' in Hcase.
  destruct (incremental_batch env table c s) as [[|x l]|e]; try tauto.
  cbv zeta in Hcase. destruct (gcs_ok env); [|tauto].
  destruct Hcase as (_ & H & _). rewrite H.
  destruct (bq_insert env); [right; eauto | now left | now left].
Qed.

(** ** Repeated runs *)


Lemma fold_max_step_app (column : list (option string)) (x : option string) :
  sql_max (column ++ [x]) = max_step (sql_max column) x.
Proof. unfold sql_max. now rewrite fold_left_app. Qed.


Lemma watermark_column_app (l : list AuditEntry) (e : AuditEntry) (table : string) :
  watermark_column (l ++ [e]) table =
  watermark_column l table ++ (if where_clause table e then [load_watermark e] else []).
Proof.
  unfold watermark_column. rewrite filter_app, map_app. simpl.
  now destruct (where_clause table e).
Qed.

Lemma audit_record_matches (env : Env) (table lt : string) (n wv : Z) :
  where_clause table (audit_record env table lt n wv) = true.
Proof. unfold where_clause, audit_record; simpl. now rewrite String.eqb_refl. Qed.





(** ** Watermark monotonicity *)

(** Where the read does not go backwards: a run whose recomputed latest
    finished sequence is not below the watermark read before it. *)
Lemma watermark_monotone_when_finalized_ahead
  (env env' : Env) (table lt : string) (c : Z) (s : State) :
  lower lt = "incremental" ->
  watermark_read env' table s <= latest_finished_gameweek env ->
  let s' := exec (extract_and_save_to_landing env table lt c) s in
  watermark_read env' table s <= watermark_read env' table s'.
Proof.
  intros Hlt Hahead s'.
  assert (Hinc : (lower lt =? "incremental")%string = true) by now apply String.eqb_eq.
  pose proof (recorded_entry_cases env table lt c s Hinc) as [E|(n & E)]; fold s' in E.
  - rewrite !watermark_read_eq, E. lia.
  - rewrite !watermark_read_eq in *. destruct (bq_query_ok env'); [|reflexivity].
    rewrite E, watermark_column_app, audit_record_matches, fold_max_step_app.
    unfold audit_record; cbn [load_watermark].
    destruct (latest_finished_gameweek env =? 0) eqn:Z0;
      [destruct (sql_max _); apply Z.le_refl|].
    destruct (sql_max (watermark_column (ledger s) table)) as [m|]; cbn [max_step].
    + destruct (String.ltb m (str (latest_finished_gameweek env)));
        [|apply Z.le_refl].
      now rewrite cell_value_str.
    + now rewrite cell_value_str.
Qed.

(** C4 (code defect): the ledger holds watermark 10 for the dataset; the
    upstream now reports 9 as latest finished-and-checked gameweek while
    gameweek 11 is current. The run succeeds, appends "9", and the watermark
    read back is 9, below the 10 read before the run: the warehouse maximum
    is taken over strings, and "9" sorts after "10". *)
Theorem watermark_read_decreases :
  let s := with_ledger [live_row 10] in
  let s' := exec (extract_and_save_to_landing regressed_env "gameweek_live" "incremental" 11) s in
  watermark_read regressed_env "gameweek_live" s = 10 /\
  run_failed s' = false /\
  map load_watermark (ledger s') = [Some "10"; Some "9"] /\
  watermark_read regressed_env "gameweek_live" s' = 9 /\
  numeric_max (watermark_column (ledger s') "gameweek_live") = 10.
Proof. cbv zeta. split; [|split; [|split; [|split]]]; vm_compute; reflexivity. Qed.

(** ** Flattening of live elements *)

Lemma dict_get_set_same (k : string) (v : json) (d : dict) :
  dict_get k (dict_set k v d) = Some v.
Proof.
  induction d as [|[k' v'] d IH]; simpl.
  - now rewrite String.eqb_refl.
  - destruct (k' =? k)%string eqn:E; simpl.
    + now rewrite String.eqb_refl.
    + now rewrite E.
Qed.

Lemma dict_get_set_other (k k' : string) (v : json) (d : dict) :
  k <> k' -> dict_get k' (dict_set k v d) = dict_get k' d.
Proof.
  intros N. induction d as [|[k0 v0] d IH]; simpl.
  - apply String.eqb_neq in N. now rewrite N.
  - destruct (k0 =? k)%string eqn:E; simpl.
    + apply String.eqb_eq in E. subst k0.
      apply String.eqb_neq in N. now rewrite N.
    + destruct (k0 =? k')%string; [reflexivity | exact IH].
Qed.

Lemma dict_get_del_same (k : string) (d : dict) : dict_get k (dict_del k d) = None.
Proof.
  unfold dict_del. induction d as [|[k0 v0] d IH]; simpl; [reflexivity|].
  destruct (k0 =? k)%string eqn:E; simpl; [exact IH|]. now rewrite E.
Qed.

Lemma dict_get_del_other (k k' : string) (d : dict) :
  k <> k' -> dict_get k' (dict_del k d) = dict_get k' d.
Proof.
  intros N. unfold dict_del. induction d as [|[k0 v0] d IH]; simpl; [reflexivity|].
  destruct (k0 =? k)%string eqn:E; simpl.
  - apply String.eqb_eq in E. subst k0.
    apply String.eqb_neq in N. now rewrite N.
  - now rewrite IH.
Qed.

Lemma dict_get_absent (k : string) (d : dict) :
  ~ In k (map fst d) -> dict_get k d = None.
Proof.
  induction d as [|[k0 v0] d IH]; simpl; [reflexivity|].
  intros N. destruct (k0 =? k)%string eqn:E.
  - apply String.eqb_eq in E. tauto.
  - apply IH. tauto.
Qed.

(** Merging a dict with unique keys: its fields win, the others stay. *)
Lemma merge_stats_get (stats : dict) :
  NoDup (map fst stats) ->
  forall (element : dict) (k : string),
    dict_get k (merge_stats stats element) =
    match dict_get k stats with
    | Some v => Some v
    | None => dict_get k element
    end.
Proof.
  unfold merge_stats.
  induction stats as [|[k0 v0] stats IH]; intros ND element k; simpl; [reflexivity|].
  inversion ND as [|? ? Hnotin ND']. subst.
  rewrite (IH ND'). simpl.
  destruct (k0 =? k)%string eqn:E.
  - apply String.eqb_eq in E. subst k0.
    rewrite (dict_get_absent k stats Hnotin). apply dict_get_set_same.
  - apply String.eqb_neq in E.
    destruct (dict_get k stats); [reflexivity|]. now apply dict_get_set_other.
Qed.

Lemma mapM_in {A B : Type} (f : A -> result B) (l : list A) (l' : list B) (y : B) :
  mapM f l = Ok l' -> In y l' -> exists x, In x l /\ f x = Ok y.
Proof.
  revert l'. induction l as [|x l IH]; intros l' H I; simpl in H.
  - inversion H. subst. contradiction.
  - destruct (f x) as [y0|e] eqn:F; [|discriminate].
    destruct (mapM f l) as [ys|e]; [|discriminate].
    inversion H. subst l'. destruct I as [<-|I].
    + exists x. split; [now left | assumption].
    + destruct (IH ys eq_refl I) as (x' & I' & F'). exists x'. split; [now right | assumption].
Qed.

(** Every element of what [extract_gameweek_live] returns is a flattened
    upstream element. *)
Lemma live_records_flattened (env : Env) (gw : Z) (s : State)
  (data : json) (records : list json) (r : json) :
  fst (extract_gameweek_live env gw s) = Ok data ->
  py_iter data = Ok records ->
  In r records ->
  exists element, In element (live_elements env gw) /\ flatten_element gw element = Ok r.
Proof.
  intros H Hit I.
  destruct (extract_gameweek_live_spec env gw s) as (s' & E & _).
  rewrite E in H. simpl in H. unfold live_value in H. unfold live_elements.
  destruct (truthy (api_value env (EpLive gw))).
  - destruct (py_get _ _ _) as [elements|e]; [|discriminate].
    destruct (py_iter elements) as [items|e] eqn:P; [|discriminate].
    destruct (mapM (flatten_element gw) items) as [flat|e] eqn:F; [|discriminate].
    destruct elements; inversion H; subst; simpl in P; inversion P; subst;
      simpl in Hit; inversion Hit; subst.
    + destruct s0; simpl in *; [contradiction|discriminate].
    + eapply mapM_in; eassumption.
    + destruct d; simpl in *; [contradiction|discriminate].
  - inversion H. subst. simpl in Hit. inversion Hit. subst. contradiction.
Qed.

Lemma flatten_element_flattened (gw : Z) (element r : json) :
  flatten_element gw element = Ok r ->
  exists e out, element = JDict e /\ r = JDict out /\ flattened gw e out.
Proof.
  unfold flatten_element. destruct element as [| | | | | |e]; try discriminate.
  assert (S : dict_get "stats" (dict_set "gameweek" (JInt gw) e) = dict_get "stats" e)
    by (apply dict_get_set_other; discriminate).
  rewrite S. intros H. exists e.
  destruct (dict_get "stats" e) as [st|] eqn:Est.
  - destruct st as [| | | | | |stats]; try discriminate.
    inversion H. subst r. eexists. split; [reflexivity|]. split; [reflexivity|].
    unfold flattened. rewrite Est. split; [apply dict_get_del_same|].
    intros ND. split; [|split].
    + intros k v Hk Hv. rewrite dict_get_del_other by congruence.
      now rewrite merge_stats_get, Hv.
    + intros Hg. rewrite dict_get_del_other by discriminate.
      rewrite merge_stats_get, Hg by assumption. apply dict_get_set_same.
    + intros k Hk Hg Hn. rewrite dict_get_del_other by congruence.
      rewrite merge_stats_get, Hn by assumption.
      apply dict_get_set_other. congruence.
  - inversion H. subst r. eexists. split; [reflexivity|]. split; [reflexivity|].
    unfold flattened. rewrite Est. split; [now rewrite S|].
    split; [apply dict_get_set_same|].
    intros k Hk. apply dict_get_set_other. congruence.
Qed.

(** C7 (counterexample): when the nested stats carry a key "gameweek", the
    returned record holds that value instead of the sequence number 7; when
    they carry a key "stats", that pair is not merged. *)
Lemma colliding_stats_keys :
  fst (extract_gameweek_live colliding_env 7 empty_state)
  = Ok (JList [JDict [("id", JInt 1); ("gameweek", JInt 3); ("minutes", JInt 90)]]) /\
  JInt 3 <> JInt 7 /\
  fst (extract_gameweek_live colliding_env 8 empty_state)
  = Ok (JList [JDict [("id", JInt 1); ("gameweek", JInt 8); ("minutes", JInt 90)]]).
Proof. split; [|split]; try (vm_compute; reflexivity). discriminate. Qed.

(** C7 (amended): every element the gameweek_live extractor returns for
    sequence number [seq] is a flat record with no "stats" key, in which
    every key/value pair of the nested stats mapping other than one keyed
    "stats" sits on the top level (replacing a field of the same name), and
    [gameweek = seq] unless the stats mapping has a "gameweek" key of its
    own; the other fields are those of the upstream element. An element with
    stats {minutes: 90, goals_scored: 1} and seq = 7 yields the record
    {id, gameweek: 7, minutes: 90, goals_scored: 1}. *)
Theorem live_element_flattening :
  (forall (env : Env) (seq : Z) (s : State) (data : json) (records : list json) (r : json),
      fst (extract_gameweek_live env seq s) = Ok data ->
      py_iter data = Ok records ->
      In r records ->
      exists e out,
        In (JDict e) (live_elements env seq) /\ r = JDict out /\ flattened seq e out) /\
  flatten_element 7
    (JDict [("id", JInt 1);
            ("stats", JDict [("minutes", JInt 90); ("goals_scored", JInt 1)])])
  = Ok (JDict [("id", JInt 1); ("gameweek", JInt 7);
               ("minutes", JInt 90); ("goals_scored", JInt 1)]).
Proof.
  split; [|reflexivity].
  intros env seq s data records r H Hit I.
  destruct (live_records_flattened env seq s data records r H Hit I) as (element & Iel & F).
  destruct (flatten_element_flattened seq element r F) as (e & out & -> & -> & Fl).
  exists e, out. split; [assumption | split; [reflexivity | assumption]].
Qed.

Lemma live_element_flattening_witness :
  exists e out,
    In (JDict e) (live_elements season_env 5) /\
    JDict [("id", JInt 1); ("gameweek", JInt 5); ("minutes", JInt 90); ("goals_scored", JInt 1)]
    = JDict out /\
    flattened 5 e out.
Proof.
  pose (r1 := JDict [("id", JInt 1); ("gameweek", JInt 5);
                     ("minutes", JInt 90); ("goals_scored", JInt 1)]).
  pose (r2 := JDict [("id", JInt 2); ("gameweek", JInt 5);
                     ("minutes", JInt 45); ("goals_scored", JInt 1)]).
  refine (proj1 live_element_flattening season_env 5 empty_state
            (JList [r1; r2]) [r1; r2] r1 _ eq_refl _).
  - vm_compute. reflexivity.
  - now left.
Defined.

(** ** Archiving *)

Lemma append_assoc (a b c : string) : ((a ++ b) ++ c = a ++ (b ++ c))%string.
Proof. induction a as [|x a IH]; simpl; [reflexivity | now rewrite IH]. Qed.

Lemma split_nonempty (sep : ascii) (s : string) : split sep s <> [].
Proof. unfold split. destruct (split_aux sep s). discriminate. Qed.

Lemma split_free (sep : ascii) (s : string) :
  char_free sep s = true -> split sep s = [s].
Proof.
  unfold split. induction s as [|c s IH]; simpl; [reflexivity|].
  intros H. apply andb_true_iff in H as [H1 H2].
  apply negb_true_iff in H1. rewrite H1.
  specialize (IH H2). destruct (split_aux sep s) as [hd tl].
  now inversion IH.
Qed.

Lemma split_app (sep : ascii) (a b : string) :
  split sep (a ++ String sep b) = split sep a ++ split sep b.
Proof.
  unfold split. induction a as [|c a IH]; simpl.
  - rewrite Ascii.eqb_refl. now destruct (split_aux sep b).
  - destruct (split_aux sep (a ++ String sep b)) as [hd tl].
    destruct (split_aux sep a) as [hd' tl'].
    destruct (split_aux sep b) as [hb tb].
    simpl in IH. inversion IH. subst.
    now destruct (Ascii.eqb c sep).
Qed.

Lemma index_last_app {A : Type} (l : list A) (x : A) : index_last (l ++ [x]) = Ok x.
Proof. unfold index_last. now rewrite rev_app_distr. Qed.

Lemma index_last_split (sep : ascii) (a b : string) :
  char_free sep b = true -> index_last (split sep (a ++ String sep b)) = Ok b.
Proof. intros H. rewrite split_app, (split_free sep b H). apply index_last_app. Qed.

Lemma index_first_split (sep : ascii) (a b : string) :
  char_free sep a = true -> index_first (split sep (a ++ String sep b)) = Ok a.
Proof. intros H. now rewrite split_app, (split_free sep a H). Qed.

Lemma index_last_total {A : Type} (l : list A) : l <> [] -> exists x, index_last l = Ok x.
Proof.
  intros H. unfold index_last. destruct (rev l) as [|x r] eqn:E; [|eauto].
  apply (f_equal (@rev A)) in E. rewrite rev_involutive in E. now subst.
Qed.

(** The [try] block of the archive loop cannot raise, so the branch that
    falls back to the current date is never taken. *)
Lemma date_of_filename_total (file : string) :
  exists dmy, date_of_filename file = Ok dmy.
Proof.
  unfold date_of_filename.
  destruct (index_last_total (split "_" file) (split_nonempty _ _)) as (piece & ->).
  pose proof (split_nonempty "." piece) as N.
  destruct (split "." piece) as [|date_part tl]; [contradiction|]. simpl. eauto.
Qed.

Lemma archive_date_eq (env : Env) (file : string) :
  archive_date env file = date_of_filename file.
Proof.
  unfold archive_date. destruct (date_of_filename_total file) as (dmy & ->). reflexivity.
Qed.

Lemma char_free_app (c : ascii) (a b : string) :
  char_free c (a ++ b) = char_free c a && char_free c b.
Proof.
  induction a as [|x a IH]; simpl; [reflexivity|].
  now rewrite IH, andb_assoc.
Qed.

Lemma slices_of_date (dd mm yyyy : string) :
  String.length dd = 2%nat ->
  String.length mm = 2%nat ->
  slice 0 2 (dd ++ mm ++ yyyy) = dd /\
  slice 2 4 (dd ++ mm ++ yyyy) = mm /\
  drop 4 (dd ++ mm ++ yyyy) = yyyy.
Proof.
  intros Ldd Lmm.
  destruct dd as [|a [|b [|]]]; try discriminate.
  destruct mm as [|c [|d [|]]]; try discriminate.
  repeat split.
Qed.

(** A landing object named [{stem}_{DD}{MM}{YYYY}.json] is archived under
    [archive/{table}/{YYYY}/{MM}/{DD}/] with its file name. *)
Lemma archive_path_of_dated (env : Env) (table dir stem dd mm yyyy : string) :
  String.length dd = 2%nat ->
  String.length mm = 2%nat ->
  char_free "_" (dd ++ mm ++ yyyy) = true ->
  char_free "." (dd ++ mm ++ yyyy) = true ->
  char_free "/" (stem ++ "_" ++ dd ++ mm ++ yyyy) = true ->
  archive_path_of env table (dir ++ "/" ++ stem ++ "_" ++ dd ++ mm ++ yyyy ++ ".json")
  = Ok ("landing/fpl-api/archive/" ++ table ++ "/" ++ yyyy ++ "/" ++ mm ++ "/" ++ dd
        ++ "/" ++ stem ++ "_" ++ dd ++ mm ++ yyyy ++ ".json")%string.
Proof.
  intros Ldd Lmm Fu Fd Fs.
  unfold archive_path_of. rewrite archive_date_eq. unfold date_of_filename, basename.
  set (date := (dd ++ mm ++ yyyy)%string) in *.
  assert (E1 : (dir ++ "/" ++ stem ++ "_" ++ dd ++ mm ++ yyyy ++ ".json"
                = (dir ++ "/" ++ stem) ++ String "_" (date ++ ".json"))%string).
  { unfold date. now rewrite !append_assoc. }
  assert (E2 : (dir ++ "/" ++ stem ++ "_" ++ dd ++ mm ++ yyyy ++ ".json"
                = dir ++ String "/" (stem ++ "_" ++ date ++ ".json"))%string).
  { unfold date. now rewrite !append_assoc. }
  rewrite E1 at 1. rewrite index_last_split
    by (rewrite char_free_app, Fu; reflexivity).
  change (date ++ ".json")%string with (date ++ String "." "json")%string.
  rewrite index_first_split by assumption.
  rewrite E2. rewrite index_last_split.
  - destruct (slices_of_date dd mm yyyy Ldd Lmm) as (S1 & S2 & S3).
    unfold date. rewrite S1, S2, S3.
    unfold DATA_SOURCE. simpl. now rewrite !append_assoc.
  - replace (stem ++ "_" ++ date ++ ".json")%string
      with ((stem ++ "_" ++ date) ++ ".json")%string by now rewrite !append_assoc.
    rewrite char_free_app, Fs. reflexivity.
Qed.

(** *** Relocation of every landing object *)

Lemma blob_get_put_other (n n' c : string) (st : list (string * string)) :
  n <> n' -> blob_get n' (blob_put n c st) = blob_get n' st.
Proof.
  intros N. induction st as [|[k v] st IH]; simpl.
  - apply String.eqb_neq in N. now rewrite N.
  - destruct (k =? n)%string eqn:E; simpl.
    + apply String.eqb_eq in E. subst k.
      apply String.eqb_neq in N. now rewrite N.
    + destruct (k =? n')%string; [reflexivity | exact IH].
Qed.

Lemma blob_get_delete_same (n : string) (st : list (string * string)) :
  blob_get n (blob_delete n st) = None.
Proof.
  unfold blob_delete. induction st as [|[k v] st IH]; simpl; [reflexivity|].
  destruct (k =? n)%string eqn:E; simpl; [exact IH|]. now rewrite E.
Qed.

Lemma blob_get_delete_other (n n' : string) (st : list (string * string)) :
  n <> n' -> blob_get n' (blob_delete n st) = blob_get n' st.
Proof.
  intros N. unfold blob_delete. induction st as [|[k v] st IH]; simpl; [reflexivity|].
  destruct (k =? n)%string eqn:E; simpl.
  - apply String.eqb_eq in E. subst k.
    apply String.eqb_neq in N. now rewrite N.
  - now rewrite IH.
Qed.

Lemma blob_get_listed (n : string) (st : list (string * string)) :
  In n (map fst st) -> blob_get n st <> None.
Proof.
  induction st as [|[k v] st IH]; simpl; [tauto|].
  intros [E|I].
  - subst k. now rewrite String.eqb_refl.
  - destruct (k =? n)%string; [discriminate | now apply IH].
Qed.

Lemma archive_path_of_total (env : Env) (table file : string) :
  exists p, archive_path_of env table file = Ok p.
Proof.
  unfold archive_path_of, basename. rewrite archive_date_eq.
  destruct (date_of_filename_total file) as ([[day month] year] & ->).
  destruct (index_last_total (split "/" file) (split_nonempty _ _)) as (name & ->).
  eauto.
Qed.

Lemma archive_path_archived (env : Env) (table file p : string) :
  archive_path_of env table file = Ok p -> contains "/archive/" p = true.
Proof.
  unfold archive_path_of.
  destruct (archive_date env file) as [[[day month] year]|e]; [|discriminate].
  destruct (basename file) as [name|e]; [|discriminate].
  intros H. inversion H. reflexivity.
Qed.

Lemma archived_differs (f p : string) :
  contains "/archive/" f = false -> contains "/archive/" p = true -> p <> f.
Proof. intros Hf Hp E. subst. congruence. Qed.

Lemma archive_one_skip (env : Env) (table file : string) (s : State) :
  contains "/archive/" file = true -> archive_one env table file s = (Ok tt, s).
Proof. intros H. unfold archive_one. now rewrite H. Qed.

Lemma archive_one_moves (env : Env) (table file p c : string) (s : State) :
  gcs_ok env = true ->
  contains "/archive/" file = false ->
  archive_path_of env table file = Ok p ->
  blob_get file (storage s) = Some c ->
  exists s',
    archive_one env table file s = (Ok tt, s') /\
    ledger s' = ledger s /\
    storage s' = blob_delete file (blob_put p c (storage s)).
Proof.
  intros G Hf Hp Hc.
  unfold archive_one. rewrite Hf, Hp.
  unfold bind, lift, copy_blob, delete_blob, set_storage. rewrite G, Hc. simpl.
  rewrite blob_get_put_other, Hc
    by (eapply archived_differs; [eassumption | eapply archive_path_archived; eassumption]).
  rewrite log_event_eq. eexists. split; [reflexivity|]. split; reflexivity.
Qed.

Lemma relocated_dec (env : Env) (table p : string) (files : list string) :
  (exists f, In f files /\ contains "/archive/" f = false /\
             archive_path_of env table f = Ok p) \/
  (forall f, In f files -> contains "/archive/" f = false ->
             archive_path_of env table f <> Ok p).
Proof.
  induction files as [|f files [(f' & I & C & A)|IH]].
  - right. intros f [].
  - left. exists f'. split; [now right | now split].
  - destruct (contains "/archive/" f) eqn:C.
    + right. intros g [<-|I] Cg; [congruence | now apply IH].
    + destruct (archive_path_of_total env table f) as (q & Q).
      destruct (string_dec q p) as [->|N].
      * left. exists f. split; [now left | now split].
      * right. intros g [<-|I] Cg; [rewrite Q; congruence | now apply IH].
Qed.

Lemma archive_loop_spec (env : Env) (table : string) :
  gcs_ok env = true ->
  forall (files : list string) (s : State),
    NoDup files ->
    (forall f, In f files -> contains "/archive/" f = false ->
               blob_get f (storage s) <> None) ->
    exists s',
      archive_loop env table files s = (Ok tt, s') /\
      ledger s' = ledger s /\
      (forall f, In f files -> contains "/archive/" f = false ->
                 blob_get f (storage s') = None) /\
      (forall g, contains "/archive/" g = false -> ~ In g files ->
                 blob_get g (storage s') = blob_get g (storage s)) /\
      (forall p, contains "/archive/" p = true ->
                 (forall f, In f files -> contains "/archive/" f = false ->
                            archive_path_of env table f <> Ok p) ->
                 blob_get p (storage s') = blob_get p (storage s)) /\
      (forall f, In f files -> contains "/archive/" f = false ->
                 exists p f',
                   archive_path_of env table f = Ok p /\
                   In f' files /\ contains "/archive/" f' = false /\
                   archive_path_of env table f' = Ok p /\
                   blob_get p (storage s') = blob_get f' (storage s)).
Proof.
  intros G. induction files as [|file rest IH]; intros s ND Hpresent.
  - exists s. simpl. split; [reflexivity|]. split; [reflexivity|].
    split; [tauto|]. split; [reflexivity|]. split; [reflexivity|]. tauto.
  - inversion ND as [|? ? Hnotin ND']. subst.
    cbn [archive_loop]. unfold bind at 1.
    destruct (contains "/archive/" file) eqn:C.
    + (* an archived name is skipped *)
      rewrite archive_one_skip by assumption.
      destruct (IH s ND') as (s' & E & L & A & B & D & R).
      { intros f I. apply Hpresent. now right. }
      exists s'. split; [exact E|]. split; [exact L|]. split; [|split; [|split]].
      * intros f [<-|I] Cf; [congruence | now apply A].
      * intros g Cg Hg. apply B; [assumption|]. intros I. apply Hg. now right.
      * intros p Cp Hp. apply D; [assumption|]. intros f I. apply Hp. now right.
      * intros f [<-|I] Cf; [congruence|].
        destruct (R f I Cf) as (p & f' & P & I' & C' & P' & V).
        exists p, f'. repeat split; try assumption. now right.
    + (* copy, then delete *)
      destruct (archive_path_of_total env table file) as (p & P).
      pose proof (archive_path_archived env table file p P) as Cp.
      destruct (blob_get file (storage s)) as [c|] eqn:Hc;
        [|exfalso; apply (Hpresent file (or_introl eq_refl) C); exact Hc].
      destruct (archive_one_moves env table file p c s G C P Hc) as (s1 & E1 & L1 & S1).
      rewrite E1.
      assert (Other : forall g, g <> file -> g <> p ->
                                blob_get g (storage s1) = blob_get g (storage s)).
      { intros g N1 N2. rewrite S1, blob_get_delete_other, blob_get_put_other; congruence. }
      assert (Target : blob_get p (storage s1) = Some c).
      { rewrite S1, blob_get_delete_other, blob_get_put; [reflexivity|].
        intros E. subst. congruence. }
      destruct (IH s1 ND') as (s' & E & L & A & B & D & R).
      { intros f I Cf. rewrite Other.
        - apply Hpresent; [now right | assumption].
        - intros ->. contradiction.
        - intros ->. congruence. }
      exists s'. split; [exact E|]. split; [congruence|]. split; [|split; [|split]].
      * intros f [<-|I] Cf; [|now apply A].
        rewrite B by assumption. rewrite S1. apply blob_get_delete_same.
      * intros g Cg Hg. rewrite B.
        -- apply Other; [intros ->; apply Hg; now left | intros ->; congruence].
        -- assumption.
        -- intros I. apply Hg. now right.
      * intros q Cq Hq. rewrite D.
        -- apply Other; [intros ->; congruence|].
           intros ->. apply (Hq file (or_introl eq_refl) C). assumption.
        -- assumption.
        -- intros f I. apply Hq. now right.
      * intros f [<-|I] Cf.
        -- destruct (relocated_dec env table p rest) as [(f2 & I2 & C2 & P2)|Hnone].
           ++ destruct (R f2 I2 C2) as (q & f' & Q & I' & C' & Q' & V).
              assert (q = p) by congruence. subst q.
              exists p, f'. split; [assumption|]. split; [now right|].
              split; [assumption|]. split; [assumption|].
              rewrite V. apply Other; [intros ->; contradiction | intros ->; congruence].
           ++ exists p, file. split; [assumption|]. split; [now left|].
              split; [assumption|]. split; [assumption|].
              rewrite D by assumption. congruence.
        -- destruct (R f I Cf) as (q & f' & Q & I' & C' & Q' & V).
           exists q, f'. split; [assumption|]. split; [now right|].
           split; [assumption|]. split; [assumption|].
           rewrite V. apply Other; [intros ->; contradiction | intros ->; congruence].
Qed.

Lemma to_archive_in (table f : string) (st : list (string * string)) :
  In f (to_archive table st) <->
  In f (map fst st) /\ startswith (landing_prefix table) f = true /\
  endswith ".json" f = true /\ contains "/archive/" f = false.
Proof.
  unfold to_archive. rewrite !filter_In, negb_true_iff. tauto.
Qed.

(** The archive step, with the bucket available: every ".json" object
    under the landing prefix of the table whose name has no "/archive/"
    part is gone from its place and found under its archive path, with its
    content when no other relocated object shares that path; the ledger is
    not touched. *)
Lemma archive_step_relocates (env : Env) (table : string) (s : State) :
  gcs_ok env = true ->
  NoDup (map fst (storage s)) ->
  let s' := exec (move_existing_files_to_archive env table) s in
  fst (move_existing_files_to_archive env table s) = Ok tt /\
  ledger s' = ledger s /\
  forall f,
    In f (to_archive table (storage s)) ->
    blob_get f (storage s') = None /\
    exists p,
      archive_path_of env table f = Ok p /\
      blob_get p (storage s') <> None /\
      ((forall f', In f' (to_archive table (storage s)) ->
                   archive_path_of env table f' = Ok p -> f' = f) ->
       blob_get p (storage s') = blob_get f (storage s)).
Proof.
  intros G ND s'. subst s'. unfold exec, move_existing_files_to_archive, bind, list_blobs.
  rewrite G.
  set (files := filter (endswith ".json")
                       (filter (startswith (landing_prefix table)) (map fst (storage s)))).
  assert (Hfiles : forall f, In f files -> In f (map fst (storage s))).
  { intros f I. unfold files in I. rewrite !filter_In in I. tauto. }
  assert (Hto : forall f, In f (to_archive table (storage s)) <->
                          In f files /\ contains "/archive/" f = false).
  { intros f. unfold to_archive. fold files. now rewrite filter_In, negb_true_iff. }
  destruct (archive_loop_spec env table G files s) as (s' & E & L & A & _ & _ & R).
  { unfold files. now apply NoDup_filter, NoDup_filter. }
  { intros f I _. now apply blob_get_listed, Hfiles. }
  destruct files as [|file rest] eqn:Efiles.
  - rewrite log_event_eq. simpl. split; [reflexivity|]. split; [reflexivity|].
    intros f I. apply Hto in I as [[] _].
  - rewrite E. simpl. split; [reflexivity|]. split; [exact L|].
    intros f I. apply Hto in I as [I C]. split; [now apply A|].
    destruct (R f I C) as (p & f' & P & I' & C' & P' & V).
    exists p. split; [assumption|]. split.
    + rewrite V. now apply blob_get_listed, Hfiles.
    + intros U. rewrite V. f_equal. apply U; [apply Hto; now split | assumption].
Qed.

(** [pipeline.py] archives before it extracts: the run of one table is the
    extraction started in the archived bucket, and nothing is extracted
    when the archive step raises. *)
Lemma process_table_archives_first
  (env : Env) (table lt : string) (c : Z) (s : State) :
  exec (process_table env table lt c) s =
  match fst (move_existing_files_to_archive env table s) with
  | Ok _ =>
      exec (extract_and_save_to_landing env table lt c)
           (exec (move_existing_files_to_archive env table) s)
  | Raise _ => exec (move_existing_files_to_archive env table) s
  end.
Proof.
  unfold exec, process_table, bind.
  destruct (move_existing_files_to_archive env table s) as [[u|e] s1]; reflexivity.
Qed.

(** C8 (code defect): the date is cut out of the file name by slicing,
    which never raises, so an unparsable suffix does not fall back to the
    current date: with the clock at 04/11/2026, "teams_latest.json" is
    archived under "st/te/la". *)
Theorem archive_unparsable_suffix :
  (forall env file, exists dmy,
      date_of_filename file = Ok dmy /\ archive_date env file = Ok dmy) /\
  (now_year quiet_env, now_month quiet_env, now_day quiet_env) = ("2026", "11", "04") /\
  storage (exec (move_existing_files_to_archive quiet_env "teams")
                (bucket_with "landing/fpl-api/teams/teams_latest.json" "{}"))
  = [("landing/fpl-api/archive/teams/st/te/la/teams_latest.json", "{}")].
Proof.
  split; [|split; vm_compute; reflexivity].
  intros env file. destruct (date_of_filename_total file) as (dmy & E).
  exists dmy. split; [assumption|]. now rewrite archive_date_eq.
Qed.

(** The part of the archive step that holds: the existing object
    "teams_01012025.json" is moved to "archive/teams/2025/01/01/" by the
    archive step, and the new object of the run is written after it. *)
Lemma archive_before_write_teams :
  let s := bucket_with "landing/fpl-api/teams/teams_01012025.json" "old" in
  let s1 := exec (move_existing_files_to_archive bootstrap_env "teams") s in
  let s2 := exec (extract_and_save_to_landing bootstrap_env "teams" "full" 5) s1 in
  storage s1 = [("landing/fpl-api/archive/teams/2025/01/01/teams_01012025.json", "old")] /\
  exec (process_table bootstrap_env "teams" "full" 5) s = s2 /\
  map fst (storage s2) = ["landing/fpl-api/archive/teams/2025/01/01/teams_01012025.json";
                          "landing/fpl-api/teams/teams_04112026.json"].
Proof. cbv zeta. split; [|split]; vm_compute; reflexivity. Qed.

(* ================================================================== *)
(** * Further properties of the landing pipeline *)

(** ** Outcome of a run, whatever the load type *)

Lemma extract_and_save_never_raises
  (env : Env) (table lt : string) (c : Z) (s : State) :
  fst (extract_and_save_to_landing env table lt c s) = Ok tt.
Proof.
  unfold extract_and_save_to_landing, try_except.
  match goal with |- context [let (r, s') := ?m in _] => destruct m as [[[]|e] s1] end;
    reflexivity.
Qed.

(** The failed outcome of a full load: a run that ends with "Error
    processing" wrote nothing, and an audit entry is only missing from a
    completed run when the insert failed or no extractor is registered. *)
Lemma full_run_outcome (env : Env) (table lt : string) (c : Z) (s : State) :
  (lower lt =? "incremental")%string = false ->
  let s' := exec (extract_and_save_to_landing env table lt c) s in
  (run_failed s' = true /\ storage s' = storage s /\ ledger s' = ledger s) \/
  (run_failed s' = false /\
   (storage s' = storage s \/
    exists content, storage s' = blob_put (landing_path env table) content (storage s)) /\
   (ledger s' = ledger s \/
    exists n, 0 <= n /\ ledger s' = ledger s ++ [audit_record env table lt n c])).
Proof.
  intros Hfull s'. subst s'. unfold exec.
  remember (extract_and_save_to_landing env table lt c s) as run eqn:Hrun.
  unfold extract_and_save_to_landing, try_except in Hrun.
  unfold bind at 1 in Hrun. rewrite log_event_eq, Hfull in Hrun.
  set (s0 := logged s INFO (MsgStarting table lt) (Some table)) in Hrun.
  pose proof (extractor_spec env table c s0) as E.
  destruct (EXTRACTION_MAP env table) as [extractor|],
           (extractor_value env (bootstrap_view env s0) table c) as [v|];
    try contradiction.
  - destruct E as (s1 & E1 & (F1 & F2 & F3 & F4 & F5)).
    unfold bind at 1 in Hrun. rewrite E1 in Hrun.
    assert (L1 : ledger s1 = ledger s) by (rewrite F1; reflexivity).
    assert (S1 : storage s1 = storage s) by (rewrite F2; reflexivity).
    destruct v as [data|e].
    + unfold bind at 1 in Hrun. rewrite save_to_landing_eq in Hrun.
      destruct (truthy data).
      * destruct (py_iter data) as [records|e].
        -- destruct (gcs_ok env).
           ++ set (n := Z.of_nat (List.length records)) in *.
              set (s2 := logged _ SUCCESS (MsgSaved n (landing_path env table)) (Some table))
                in Hrun.
              destruct (write_audit_log_spec env table lt n c s2)
                as (s3 & E3 & G1 & G2 & G3 & G4 & G5).
              unfold bind at 1 in Hrun. rewrite E3, log_event_eq in Hrun.
              subst run. cbn [snd]. autorewrite with logged. right.
              split; [reflexivity|]. rewrite G1, G2. unfold s2, uploaded.
              autorewrite with logged. simpl. rewrite L1, S1. split.
              ** right. eauto.
              ** destruct (bq_insert env); [right; exists n; split; [lia|reflexivity]
                                           | now left | now left].
           ++ rewrite log_event_eq in Hrun. subst run. cbn [snd].
              autorewrite with logged. left. repeat split; assumption.
        -- rewrite log_event_eq in Hrun. subst run. cbn [snd].
           autorewrite with logged. left. repeat split; assumption.
      * set (s2 := logged s1 WARNING (MsgNoDataToSave table) (Some table)) in Hrun.
        destruct (write_audit_log_spec env table lt 0 c s2)
          as (s3 & E3 & G1 & G2 & G3 & G4 & G5).
        unfold bind at 1 in Hrun. rewrite E3, log_event_eq in Hrun.
        subst run. cbn [snd]. autorewrite with logged. right.
        split; [reflexivity|]. rewrite G1, G2. unfold s2.
        autorewrite with logged. rewrite L1, S1. split; [now left|].
        destruct (bq_insert env); [right; exists 0; split; [lia|reflexivity]
                                  | now left | now left].
    + rewrite log_event_eq in Hrun. subst run. cbn [snd].
      autorewrite with logged. left. repeat split; assumption.
  - rewrite log_event_eq in Hrun. subst run. cbn [snd].
    unfold s0. autorewrite with logged. right. split; [reflexivity|].
    split; now left.
Qed.

Lemma incremental_run_outcome (env : Env) (table lt : string) (c : Z) (s : State) :
  (lower lt =? "incremental")%string = true ->
  let s' := exec (extract_and_save_to_landing env table lt c) s in
  (run_failed s' = true /\ storage s' = storage s /\ ledger s' = ledger s) \/
  (run_failed s' = false /\
   (storage s' = storage s \/
    exists content, storage s' = blob_put (landing_path env table) content (storage s)) /\
   (ledger s' = ledger s \/
    exists n, 0 <= n /\
              ledger s' = ledger s
                            ++ [audit_record env table lt n (latest_finished_gameweek env)])).
Proof.
  intros Hinc s'.
  destruct (incremental_run env table lt c s Hinc) as (_ & _ & Hcase). fold s' in Hcase.
  destruct (incremental_batch env table c s) as [[|x l]|e].
  - right. destruct Hcase as (A & B & _ & D). split; [exact D|]. split; now left.
  - cbv zeta in Hcase. destruct (gcs_ok env).
    + right. destruct Hcase as (A & B & _ & D). split; [exact D|]. split.
      * right. eauto.
      * rewrite B. destruct (bq_insert env); [right | now left | now left].
        eexists. split; [|reflexivity]. lia.
    + left. tauto.
  - left. tauto.
Qed.

(** What one run does to the ledger, whatever its load type. *)
Lemma run_ledger_outcome (env : Env) (table lt : string) (c : Z) (s : State) :
  let s' := exec (extract_and_save_to_landing env table lt c) s in
  (run_failed s' = true /\ storage s' = storage s /\ ledger s' = ledger s) \/
  (run_failed s' = false /\
   (ledger s' = ledger s \/
    exists n w, 0 <= n /\ ledger s' = ledger s ++ [audit_record env table lt n w])).
Proof.
  intros s'.
  destruct (lower lt =? "incremental")%string eqn:L.
  - destruct (incremental_run_outcome env table lt c s L) as [F|(F & _ & [A|(n & N & A)])];
      [now left | right; split; [exact F | now left] |].
    right. split; [exact F|]. right. eauto.
  - destruct (full_run_outcome env table lt c s L) as [F|(F & _ & [A|(n & N & A)])];
      [now left | right; split; [exact F | now left] |].
    right. split; [exact F|]. right. eauto.
Qed.

(** Whatever the load type, a run of [extract_and_save_to_landing] never
    raises; when it ends with "Error processing" it has changed neither
    the bucket nor the ledger; otherwise it keeps every audit entry and
    appends at most one, for this table and source, with status SUCCESS, the
    load type as configured and a record count that is not negative. *)
Theorem run_appends_at_most_one_entry
  (env : Env) (table lt : string) (c : Z) (s : State) :
  let s' := exec (extract_and_save_to_landing env table lt c) s in
  fst (extract_and_save_to_landing env table lt c s) = Ok tt /\
  (run_failed s' = true -> storage s' = storage s /\ ledger s' = ledger s) /\
  exists new,
    ledger s' = ledger s ++ new /\
    (List.length new <= 1)%nat /\
    forall e, In e new ->
              tablename e = table /\ data_source e = DATA_SOURCE /\
              load_type e = lt /\ status e = "SUCCESS" /\ 0 <= record_count e.
Proof.
  intros s'. split; [apply extract_and_save_never_raises|].
  destruct (run_ledger_outcome env table lt c s) as [(F & S & L)|(F & [L|(n & w & N & L)])];
    fold s' in F, L; try fold s' in S.
  - split; [tauto|]. exists []. rewrite app_nil_r. split; [exact L|].
    split; [simpl; lia | intros e []].
  - split; [congruence|]. exists []. rewrite app_nil_r. split; [exact L|].
    split; [simpl; lia | intros e []].
  - split; [congruence|]. exists [audit_record env table lt n w].
    split; [exact L|]. split; [simpl; lia|].
    intros e [<-|[]]. repeat split. exact N.
Qed.

Lemma full_run_failed (env : Env) (table lt : string) (c : Z) (s : State) :
  (lower lt =? "incremental")%string = false ->
  run_failed (exec (extract_and_save_to_landing env table lt c) s) =
  match extractor_value env (bootstrap_view env s) table c with
  | Some (Ok data) =>
      if truthy data then
        match py_iter data with
        | Ok _ => negb (gcs_ok env)
        | Raise _ => true
        end
      else false
  | Some (Raise _) => true
  | None => false
  end.
Proof.
  intros Hfull. unfold exec.
  remember (extract_and_save_to_landing env table lt c s) as run eqn:Hrun.
  unfold extract_and_save_to_landing, try_except in Hrun.
  unfold bind at 1 in Hrun. rewrite log_event_eq, Hfull in Hrun.
  set (s0 := logged s INFO (MsgStarting table lt) (Some table)) in Hrun.
  pose proof (extractor_spec env table c s0) as E.
  change (bootstrap_view env s0) with (bootstrap_view env s) in E.
  destruct (EXTRACTION_MAP env table) as [extractor|],
           (extractor_value env (bootstrap_view env s) table c) as [v|];
    try contradiction.
  - destruct E as (s1 & E1 & _).
    unfold bind at 1 in Hrun. rewrite E1 in Hrun.
    destruct v as [data|e].
    + unfold bind at 1 in Hrun. rewrite save_to_landing_eq in Hrun.
      destruct (truthy data).
      * destruct (py_iter data) as [records|e].
        -- destruct (gcs_ok env).
           ++ set (n := Z.of_nat (List.length records)) in *.
              set (s2 := logged _ SUCCESS (MsgSaved n (landing_path env table)) (Some table))
                in Hrun.
              destruct (write_audit_log_spec env table lt n c s2) as (s3 & E3 & _).
              unfold bind at 1 in Hrun. rewrite E3, log_event_eq in Hrun.
              subst run. cbn [snd]. now autorewrite with logged.
           ++ rewrite log_event_eq in Hrun. subst run. cbn [snd].
              now autorewrite with logged.
        -- rewrite log_event_eq in Hrun. subst run. cbn [snd].
           now autorewrite with logged.
      * set (s2 := logged s1 WARNING (MsgNoDataToSave table) (Some table)) in Hrun.
        destruct (write_audit_log_spec env table lt 0 c s2) as (s3 & E3 & _).
        unfold bind at 1 in Hrun. rewrite E3, log_event_eq in Hrun.
        subst run. cbn [snd]. now autorewrite with logged.
    + rewrite log_event_eq in Hrun. subst run. cbn [snd].
      now autorewrite with logged.
  - rewrite log_event_eq in Hrun. subst run. cbn [snd].
    now autorewrite with logged.
Qed.

(** ** Audit ledger and watermark store *)

Lemma sql_max_all_null (column : list (option string)) (x : option string) :
  (forall v, ~ In (Some v) column) -> sql_max (column ++ [x]) = x.
Proof.
  intros H. rewrite fold_max_step_app, (sql_max_null column H). now destruct x.
Qed.

(** Writing a watermark and reading it back: on a ledger that holds no
    watermark for the table yet, the read that follows a successful
    [write_audit_log] returns the value written, zero and negative values
    included. *)
Theorem audit_round_trip
  (env : Env) (table lt : string) (n z : Z) (s : State) :
  bq_insert env = InsertOk ->
  bq_query_ok env = true ->
  (forall e, In e (ledger s) -> where_clause table e = true -> load_watermark e = None) ->
  watermark_read env table (exec (write_audit_log env table lt n z) s) = z.
Proof.
  intros Hins Hq Hnone.
  destruct (write_audit_log_spec env table lt n z s) as (s' & E & L & _).
  unfold exec. rewrite E. cbn [snd]. rewrite Hins in L.
  rewrite watermark_read_eq, Hq, L, watermark_column_app, audit_record_matches.
  rewrite sql_max_all_null.
  - unfold audit_record; cbn [load_watermark].
    destruct (z =? 0) eqn:Z0; [simpl; lia | apply cell_value_str].
  - intros v Hin. unfold watermark_column in Hin.
    apply in_map_iff in Hin as (e & Hw & He). apply filter_In in He as [I W].
    rewrite (Hnone e I W) in Hw. discriminate.
Qed.

Lemma audit_round_trip_witness :
  watermark_read quiet_env "gameweek_live"
    (exec (write_audit_log quiet_env "gameweek_live" "incremental" 700 (-3)) empty_state)
  = -3.
Proof.
  apply (audit_round_trip quiet_env "gameweek_live" "incremental" 700 (-3) empty_state);
    [reflexivity | reflexivity | intros e []].
Defined.




(** An audit insert that fails is swallowed: the ledger and every
    watermark stay as they were, and a run that wrote its landing object
    still ends as completed, so the object is left without an audit entry. *)
Theorem audit_failure_leaves_gap
  (env : Env) (table lt : string) (c : Z) (s : State) :
  lower lt = "incremental" ->
  bq_insert env <> InsertOk ->
  let s' := exec (extract_and_save_to_landing env table lt c) s in
  ledger s' = ledger s /\
  (forall env' t, watermark_read env' t s' = watermark_read env' t s) /\
  (landing_writes (log_entries s') <> landing_writes (log_entries s) ->
   run_failed s' = false /\
   exists content,
     storage s' = blob_put (landing_path env table) content (storage s)).
Proof.
  intros Hlt Hins s'.
  assert (Hinc : (lower lt =? "incremental")%string = true) by now apply String.eqb_eq.
  destruct (incremental_run env table lt c s Hinc) as (_ & _ & Hcase). fold s' in Hcase.
  assert (L : ledger s' = ledger s).
  { destruct (incremental_batch env table c s) as [[|x l]|e]; try tauto.
    cbv zeta in Hcase. destruct (gcs_ok env); [|tauto].
    destruct Hcase as (_ & H & _). rewrite H.
    destruct (bq_insert env); [congruence | reflexivity | reflexivity]. }
  split; [exact L|]. split.
  - intros env' t. now rewrite !watermark_read_eq, L.
  - intros Hw.
    destruct (incremental_batch env table c s) as [[|x l]|e]; try tauto.
    cbv zeta in Hcase. destruct (gcs_ok env); [|tauto].
    destruct Hcase as (S & _ & _ & F). split; [exact F | eauto].
Qed.

Lemma audit_failure_leaves_gap_witness :
  let env := with_insert season_env InsertErrors in
  let s' := exec (extract_and_save_to_landing env "gameweek_live" "incremental" 5)
                 (with_ledger [live_row 3]) in
  ledger s' = [live_row 3] /\ run_failed s' = false /\ storage s' <> [].
Proof.
  pose proof (audit_failure_leaves_gap (with_insert season_env InsertErrors)
                "gameweek_live" "incremental" 5 (with_ledger [live_row 3]) eq_refl) as H.
  cbv zeta in H. destruct H as (L & _ & W); [discriminate|].
  cbv zeta. split; [exact L|].
  destruct W as (F & content & S); [vm_compute; discriminate|].
  split; [exact F|]. rewrite S. simpl. discriminate.
Defined.

(** A load that is not incremental and whose extractor returns nothing
    (an upstream failure, an empty list) writes no landing object, yet it is
    audited like any other: an entry with record count 0 and the current
    gameweek as watermark, and the run ends as completed. *)
Theorem full_load_without_data_is_audited
  (env : Env) (table lt : string) (c : Z) (s : State)
  (extractor : Z -> M json) (data : json) :
  lower lt <> "incremental" ->
  EXTRACTION_MAP env table = Some extractor ->
  fst (extractor c s) = Ok data ->
  truthy data = false ->
  let s' := exec (extract_and_save_to_landing env table lt c) s in
  storage s' = storage s /\
  landing_writes (log_entries s') = landing_writes (log_entries s) /\
  run_failed s' = false /\
  ledger s' = match bq_insert env with
              | InsertOk => ledger s ++ [audit_record env table lt 0 c]
              | _ => ledger s
              end.
Proof.
  intros Hlt Hex Hdata Hfalsy s'.
  assert (Hfull : (lower lt =? "incremental")%string = false) by now apply String.eqb_neq.
  assert (Hv : extractor_value env (bootstrap_view env s) table c = Some (Ok data)).
  { pose proof (extractor_spec env table c s) as E. rewrite Hex in E.
    destruct (extractor_value env (bootstrap_view env s) table c) as [v|]; [|contradiction].
    destruct E as (s1 & E1 & _). rewrite E1 in Hdata. simpl in Hdata. now subst v. }
  pose proof (full_run env table lt c s Hfull) as R. cbv zeta in R. fold s' in R.
  pose proof (full_run_failed env table lt c s Hfull) as F. fold s' in F.
  rewrite Hv, Hfalsy in R, F. tauto.
Qed.

Lemma full_load_without_data_is_audited_witness :
  let s' := exec (extract_and_save_to_landing quiet_env "teams" "full" 5) empty_state in
  storage s' = [] /\
  map load_watermark (ledger s') = [Some "5"] /\
  map record_count (ledger s') = [0].
Proof.
  pose proof (full_load_without_data_is_audited quiet_env "teams" "full" 5 empty_state
                (fun _ => extract_teams quiet_env) (JList [])) as H.
  cbv zeta in H. destruct H as (S & _ & _ & L);
    [discriminate | reflexivity | reflexivity | reflexivity |].
  cbv zeta. rewrite S, L. repeat split.
Defined.

(** ** Gameweek resolution *)

Lemma index_last_cons {A : Type} (a : A) (l : list A) :
  index_last (a :: l) = match l with [] => Ok a | _ => index_last l end.
Proof.
  unfold index_last. simpl. destruct l as [|b l]; [reflexivity|].
  destruct (rev (b :: l)) as [|x r] eqn:E; [|reflexivity].
  apply (f_equal (@rev A)) in E. rewrite rev_involutive in E. discriminate.
Qed.

Lemma ascending_filter (f : event -> bool) (events : list event) :
  ascending events -> ascending (filter f events).
Proof.
  unfold ascending. induction 1 as [|a l S IH F]; simpl; [constructor|].
  destruct (f a); [|exact IH]. constructor; [exact IH|].
  rewrite Forall_forall in *. intros x I. apply filter_In in I as [I _]. now apply F.
Qed.

Lemma ascending_last_greatest (events : list event) (top : event) :
  ascending events -> index_last events = Ok top ->
  forall ev, In ev events -> id ev <= id top.
Proof.
  unfold ascending. induction 1 as [|a l S IH F]; intros L ev I.
  - contradiction.
  - rewrite index_last_cons in L. destruct l as [|b l'].
    + inversion L. subst. destruct I as [<-|[]]. lia.
    + destruct I as [<-|I]; [|now apply IH].
      rewrite Forall_forall in F. apply index_last_in in L. specialize (F top L). lia.
Qed.

(** When the upstream lists its gameweeks by increasing id, the sequence
    number [get_latest_finished_gameweek] returns is the greatest id among
    the events that are both finished and checked. *)
Theorem latest_finished_is_greatest (env : Env) (events : list event) (ev : event) :
  bootstrap_events env = Some events ->
  ascending events ->
  In ev events -> finished ev = true -> data_checked ev = true ->
  id ev <= latest_finished_gameweek env /\
  exists top, In top events /\ finished top = true /\ data_checked top = true /\
              latest_finished_gameweek env = id top.
Proof.
  intros E A I F D. rewrite latest_finished_gameweek_eq, E.
  set (final := fun e => finished e && data_checked e).
  assert (If : In ev (filter final events))
    by (apply filter_In; split; [assumption | unfold final; now rewrite F, D]).
  destruct (index_last_total (filter final events)) as (top & T);
    [intros N; now rewrite N in If|].
  rewrite T. split.
  - apply (ascending_last_greatest (filter final events)); [now apply ascending_filter | exact T | exact If].
  - exists top. apply index_last_in, filter_In in T as [It Ft].
    apply andb_true_iff in Ft as [F1 F2]. repeat split; assumption.
Qed.

Lemma latest_finished_is_greatest_witness :
  3 <= latest_finished_gameweek season_env.
Proof.
  refine (proj1 (latest_finished_is_greatest season_env sample_events
                   (mkEvent 3 false true true) eq_refl _ _ eq_refl eq_refl)).
  - unfold ascending, sample_events.
    repeat (constructor; [|repeat (constructor; [simpl; lia|]); constructor]).
    constructor.
  - right. right. now left.
Defined.

(** Between gameweeks, when no event is flagged current and the events are
    listed by increasing id (ids are not negative), the current gameweek
    resolves to the last finished event (1 when none is finished), and the
    latest finished-and-checked gameweek never lies beyond it. *)
Theorem no_current_event_falls_back (env : Env) (events : list event) :
  bootstrap_events env = Some events ->
  ascending events ->
  (forall ev, In ev events -> 0 <= id ev) ->
  (forall ev, In ev events -> is_current ev = false) ->
  exists c,
    get_current_gameweek env = Some c /\
    latest_finished_gameweek env <= c /\
    ((c = 1 /\ forall ev, In ev events -> finished ev = false) \/
     (exists ev, In ev events /\ finished ev = true /\ id ev = c /\
                 forall ev', In ev' events -> finished ev' = true -> id ev' <= c)).
Proof.
  intros E A P N. unfold get_current_gameweek. rewrite latest_finished_gameweek_eq, E.
  assert (C : filter is_current events = []).
  { clear - N. induction events as [|a l IH]; simpl; [reflexivity|].
    rewrite (N a) by now left. apply IH. intros ev I. apply N. now right. }
  rewrite C.
  destruct (index_last (filter finished events)) as [top|e] eqn:T.
  - exists (id top). split; [reflexivity|].
    pose proof (ascending_last_greatest _ top (ascending_filter finished events A) T) as G.
    apply index_last_in, filter_In in T as [It Ft].
    split.
    + destruct (index_last (filter _ events)) as [fin|e'] eqn:Tf.
      * apply G. apply index_last_in, filter_In in Tf as [If Ff].
        apply andb_true_iff in Ff as [F1 _]. now apply filter_In.
      * now apply P.
    + right. exists top.
      split; [assumption|]. split; [assumption|]. split; [reflexivity|].
      intros ev' I' F'. apply G. now apply filter_In.
  - exists 1. split; [reflexivity|].
    assert (Nf : forall ev, In ev events -> finished ev = false).
    { intros ev I. destruct (finished ev) eqn:F; [|reflexivity].
      assert (I' : In ev (filter finished events)) by (apply filter_In; now split).
      destruct (index_last_total (filter finished events)) as (x & X);
        [intros Z; now rewrite Z in I' | congruence]. }
    split.
    + destruct (index_last (filter (fun e0 => finished e0 && data_checked e0) events))
        as [fin|e'] eqn:Tf; [|lia].
      apply index_last_in, filter_In in Tf as [If Ff].
      apply andb_true_iff in Ff as [F1 _]. rewrite (Nf fin If) in F1. discriminate.
    + left. split; [reflexivity | exact Nf].
Qed.

Lemma no_current_event_falls_back_witness :
  exists c, get_current_gameweek (with_events quiet_env (Some
              [mkEvent 1 false true true; mkEvent 2 false true false])) = Some c /\
            c = 2.
Proof.
  destruct (no_current_event_falls_back
              (with_events quiet_env (Some
                 [mkEvent 1 false true true; mkEvent 2 false true false]))
              [mkEvent 1 false true true; mkEvent 2 false true false] eq_refl)
    as (c & G & _).
  - unfold ascending. constructor; [constructor; [constructor | constructor]|].
    constructor; [simpl; lia | constructor].
  - intros ev [<-|[<-|[]]]; simpl; lia.
  - intros ev [<-|[<-|[]]]; reflexivity.
  - exists c. split; [exact G|]. vm_compute in G. now inversion G.
Defined.

(** ** Bootstrap cache *)

Lemma api_calls_app (l l' : list log_entry) :
  api_calls (l ++ l') = api_calls l ++ api_calls l'.
Proof.
  induction l as [|e l IH]; simpl; [reflexivity|].
  destruct (msg e); simpl; now rewrite IH.
Qed.

Lemma api_calls_logged (s : State) (lv : level) (m : message) (t : option string) :
  api_calls (log_entries (logged s lv m t)) =
  api_calls (log_entries s) ++ match m with MsgCallingApi ep => [ep] | _ => [] end.
Proof. unfold logged; simpl. rewrite api_calls_app. simpl. now destruct m. Qed.

(** What [get_bootstrap_data] leaves behind: the payload it returned is
    the cache, and the upstream was called exactly when the cache was
    empty. *)
Lemma get_bootstrap_data_calls (env : Env) (s : State) :
  exists s',
    get_bootstrap_data env s = (Ok (bootstrap_view env s), s') /\
    bootstrap_cache s' = bootstrap_view env s /\
    ledger s' = ledger s /\ storage s' = storage s /\
    api_calls (log_entries s') =
    api_calls (log_entries s)
      ++ match bootstrap_cache s with JNull => [EpBootstrap] | _ => [] end.
Proof.
  unfold get_bootstrap_data, bootstrap_view.
  destruct (bootstrap_cache s) eqn:C;
    try (exists s; rewrite C, app_nil_r; repeat split; reflexivity).
  unfold bind, call_fpl_api, bind. rewrite log_event_eq.
  destruct (api_response env EpBootstrap) as [body|].
  - eexists. split; [reflexivity|]. cbn [set_bootstrap_cache snd fst ret].
    simpl. rewrite api_calls_app. repeat split.
  - rewrite log_event_eq. eexists. split; [reflexivity|].
    simpl. rewrite !api_calls_app. simpl. rewrite app_nil_r. repeat split.
Qed.

(** The bootstrap payload is fetched once: after a call that obtained a
    payload, every later call returns that same payload without calling
    the upstream and without changing the state, whatever the upstream
    would answer by then; after a call that obtained nothing, the next call
    asks the upstream again. *)
Theorem bootstrap_fetched_once (env env' : Env) (s : State) :
  let s1 := exec (get_bootstrap_data env) s in
  fst (get_bootstrap_data env s) = Ok (bootstrap_view env s) /\
  (bootstrap_view env s <> JNull ->
   get_bootstrap_data env' s1 = (Ok (bootstrap_view env s), s1)) /\
  (bootstrap_view env s = JNull ->
   fst (get_bootstrap_data env' s1) = Ok (api_value env' EpBootstrap) /\
   api_calls (log_entries (exec (get_bootstrap_data env') s1))
   = api_calls (log_entries s1) ++ [EpBootstrap]).
Proof.
  intros s1. subst s1. unfold exec.
  destruct (get_bootstrap_data_calls env s) as (s1 & E & C & _).
  rewrite E. cbn [fst snd]. split; [reflexivity|]. split.
  - intros Hne. unfold get_bootstrap_data. rewrite C.
    destruct (bootstrap_view env s); try reflexivity. congruence.
  - intros Hnull.
    destruct (get_bootstrap_data_calls env' s1) as (s2 & E2 & _ & _ & _ & A).
    rewrite E2. cbn [fst snd]. rewrite A, C, Hnull. split; [|reflexivity].
    unfold bootstrap_view, api_value. now rewrite C, Hnull.
Qed.

Lemma bootstrap_fetched_once_witness :
  let s1 := exec (get_bootstrap_data bootstrap_env) empty_state in
  get_bootstrap_data quiet_env s1 = (Ok sample_bootstrap, s1).
Proof.
  refine (proj1 (proj2 (bootstrap_fetched_once bootstrap_env quiet_env empty_state)) _).
  discriminate.
Defined.

Lemma bootstrap_extractor_calls (env : Env) (what key : string) (s : State) :
  let m := (data <- get_bootstrap_data env ;;
            if truthy data then
              log_event INFO (MsgExtracted what) None ;;
              lift (py_get data key (JList []))
            else ret (JList [])) in
  bootstrap_cache (exec m s) = bootstrap_view env s /\
  api_calls (log_entries (exec m s)) =
  api_calls (log_entries s)
    ++ match bootstrap_cache s with JNull => [EpBootstrap] | _ => [] end /\
  fst (m s) = bootstrap_field (bootstrap_view env s) key.
Proof.
  intros m. subst m. unfold exec, bind, bootstrap_field.
  destruct (get_bootstrap_data_calls env s) as (s1 & E & C & _ & _ & A).
  rewrite E. destruct (truthy (bootstrap_view env s)).
  - rewrite log_event_eq. unfold lift. cbn [fst snd].
    split; [exact C|]. split; [|reflexivity].
    rewrite api_calls_logged, A. simpl. now rewrite app_nil_r.
  - cbn [ret fst snd]. now repeat split.
Qed.

Lemma bootstrap_backed_extractor (env : Env) (table : string) :
  bootstrap_backed table = true ->
  exists what key,
    EXTRACTION_MAP env table =
    Some (fun _ => data <- get_bootstrap_data env ;;
                   if truthy data then
                     log_event INFO (MsgExtracted what) None ;;
                     lift (py_get data key (JList []))
                   else ret (JList [])).
Proof.
  unfold bootstrap_backed, EXTRACTION_MAP. intros H.
  destruct (table =? "players")%string; [do 2 eexists; reflexivity|].
  destruct (table =? "positions")%string; [do 2 eexists; reflexivity|].
  destruct (table =? "teams")%string; [do 2 eexists; reflexivity|].
  destruct (table =? "gameweeks")%string; [do 2 eexists; reflexivity|].
  discriminate.
Qed.

Lemma bootstrap_view_cached (env : Env) (s : State) :
  bootstrap_cache s <> JNull -> bootstrap_view env s = bootstrap_cache s.
Proof. unfold bootstrap_view. destruct (bootstrap_cache s); congruence. Qed.

(** The loop in front of a payload, cached or delivered by the upstream. *)
Lemma bootstrap_loop_calls_answered
  (env : Env) (table : string) (gws : list Z) (all_data : list json) (s : State) :
  bootstrap_backed table = true ->
  bootstrap_view env s <> JNull ->
  api_calls (log_entries (exec (extraction_loop env table gws all_data) s)) =
  api_calls (log_entries s)
    ++ match bootstrap_cache s, gws with
       | JNull, _ :: _ => [EpBootstrap]
       | _, _ => []
       end.
Proof.
  intros Hb. destruct (bootstrap_backed_extractor env table Hb) as (what & key & Hex).
  revert all_data s. induction gws as [|gw rest IH]; intros all_data s Hview.
  - unfold exec; simpl. destruct (bootstrap_cache s); now rewrite app_nil_r.
  - unfold exec. cbn [extraction_loop]. rewrite Hex.
    unfold bind at 1. rewrite log_event_eq.
    set (s0 := logged s INFO (MsgExtracting table gw) (Some table)).
    pose proof (bootstrap_extractor_calls env what key s0) as (C & A & _).
    cbv zeta in C, A. unfold exec in C, A. unfold bind at 1.
    match goal with
    | |- context [let (r, s') := ?m s0 in _] => destruct (m s0) as [[data|e] s1] eqn:E1
    end.
    + cbn [snd] in C, A. unfold bind at 1, lift at 1.
      assert (N1 : bootstrap_cache s1 <> JNull) by (rewrite C; exact Hview).
      assert (A0 : api_calls (log_entries s0) = api_calls (log_entries s))
        by (unfold s0; rewrite api_calls_logged; simpl; now rewrite app_nil_r).
      destruct (py_iter data) as [items|e].
      * specialize (IH (all_data ++ items) s1).
        unfold exec in IH. rewrite IH
          by (rewrite (bootstrap_view_cached env s1 N1), C; exact Hview).
        rewrite A, A0. change (bootstrap_cache s0) with (bootstrap_cache s).
        destruct (bootstrap_cache s1) eqn:C1; try congruence;
          destruct (bootstrap_cache s); now rewrite ?app_nil_r.
      * cbn [snd]. rewrite A, A0. reflexivity.
    + cbn [snd] in C, A |- *. rewrite A.
      unfold s0. rewrite api_calls_logged. simpl. now rewrite app_nil_r.
Qed.

(** The loop in front of an upstream that delivers nothing: nothing is
    cached, every iteration asks again, gets an empty list and goes on. *)
Lemma bootstrap_loop_calls_unanswered
  (env : Env) (table : string) (gws : list Z) :
  bootstrap_backed table = true ->
  forall (all_data : list json) (s : State),
    bootstrap_view env s = JNull ->
    api_calls (log_entries (exec (extraction_loop env table gws all_data) s)) =
    api_calls (log_entries s) ++ repeat EpBootstrap (List.length gws).
Proof.
  intros Hb. destruct (bootstrap_backed_extractor env table Hb) as (what & key & Hex).
  induction gws as [|gw rest IH]; intros all_data s Hview.
  - unfold exec; simpl. now rewrite app_nil_r.
  - assert (Hc : bootstrap_cache s = JNull).
    { unfold bootstrap_view in Hview. now destruct (bootstrap_cache s). }
    unfold exec. cbn [extraction_loop]. rewrite Hex.
    unfold bind at 1. rewrite log_event_eq.
    set (s0 := logged s INFO (MsgExtracting table gw) (Some table)).
    assert (V0 : bootstrap_view env s0 = JNull) by exact Hview.
    pose proof (bootstrap_extractor_calls env what key s0) as (C & A & V).
    cbv zeta in C, A, V. unfold exec in C, A. unfold bind at 1.
    rewrite V0 in C, V. unfold bootstrap_field in V. cbn [truthy] in V.
    match goal with
    | |- context [let (r, s') := ?m s0 in _] => destruct (m s0) as [r s1] eqn:E1
    end.
    cbn [fst snd] in C, A, V. subst r.
    unfold bind at 1, lift at 1. cbn [py_iter].
    assert (V1 : bootstrap_view env s1 = JNull).
    { unfold bootstrap_view in Hview |- *. rewrite C. now rewrite Hc in Hview. }
    specialize (IH (all_data ++ []) s1 V1). unfold exec in IH. rewrite IH, A.
    change (bootstrap_cache s0) with (bootstrap_cache s). rewrite Hc.
    unfold s0. rewrite api_calls_logged. cbn [List.length repeat].
    rewrite app_nil_r, <- app_assoc. reflexivity.
Qed.

(** How often the extraction loop of a bootstrap-backed dataset calls the
    upstream.  As long as a payload is there, cached or delivered, the loop
    calls at most once however many sequence numbers it walks: not at all
    when the cache is filled, and exactly once when the cache is empty and
    the range is not.  An upstream that delivers nothing is not cached: the
    loop then calls it once for every sequence number of the range. *)
Theorem bootstrap_loop_upstream_calls
  (env : Env) (table : string) (gws : list Z) (all_data : list json) (s : State) :
  bootstrap_backed table = true ->
  api_calls (log_entries (exec (extraction_loop env table gws all_data) s)) =
  api_calls (log_entries s)
    ++ match bootstrap_view env s with
       | JNull => repeat EpBootstrap (List.length gws)
       | _ =>
           match bootstrap_cache s, gws with
           | JNull, _ :: _ => [EpBootstrap]
           | _, _ => []
           end
       end.
Proof.
  intros Hb.
  destruct (bootstrap_view env s) eqn:V;
    try (apply (bootstrap_loop_calls_answered env table gws all_data s Hb);
         rewrite V; discriminate).
  now apply bootstrap_loop_calls_unanswered.
Qed.

Lemma bootstrap_loop_upstream_calls_witness :
  api_calls (log_entries (exec (extraction_loop bootstrap_env "teams" [3; 4; 5] [])
                               empty_state))
  = [EpBootstrap] /\
  api_calls (log_entries (exec (extraction_loop quiet_env "teams" [3; 4; 5] [])
                               empty_state))
  = [EpBootstrap; EpBootstrap; EpBootstrap].
Proof.
  split.
  - exact (bootstrap_loop_upstream_calls bootstrap_env "teams" [3; 4; 5] []
             empty_state eq_refl).
  - exact (bootstrap_loop_upstream_calls quiet_env "teams" [3; 4; 5] []
             empty_state eq_refl).
Defined.

(** ** Extractors *)

Lemma extractor_value_ignores_gameweek
  (env : Env) (boot : json) (table : string) (gw gw' : Z) :
  table <> "gameweek_live" ->
  extractor_value env boot table gw = extractor_value env boot table gw'.
Proof.
  intros Hne. unfold extractor_value.
  repeat match goal with
         | |- context [(table =? ?n)%string] =>
             destruct (String.eqb_spec table n); [try reflexivity; congruence|]
         end.
  reflexivity.
Qed.

Lemma records_of_ignores_gameweek (env : Env) (table : string) (gw gw' : Z) (s : State) :
  table <> "gameweek_live" ->
  records_of env table gw s = records_of env table gw' s.
Proof.
  intros Hne. rewrite !records_of_value.
  now rewrite (extractor_value_ignores_gameweek env _ table gw gw' Hne).
Qed.

(** Only the live extractor reads the sequence number.  When the
    extraction loop of any other dataset walks a range and returns, its
    batch is the dataset's records repeated once per sequence number of
    the range. *)
Theorem other_datasets_repeat_per_gameweek
  (env : Env) (table : string) (gws : list Z) (s : State) (batch : list json) :
  table <> "gameweek_live" ->
  fst (extraction_loop env table gws [] s) = Ok batch ->
  batch = List.concat (repeat (records_of env table 0 s) (List.length gws)) /\
  List.length batch = (List.length gws * List.length (records_of env table 0 s))%nat.
Proof.
  intros Hne Hrun.
  destruct (extraction_loop_spec env table gws [] s) as (s' & k & E & _).
  rewrite E in Hrun. cbn [fst] in Hrun.
  apply batch_value_concat in Hrun. cbn [app] in Hrun.
  assert (B : batch = List.concat (repeat (records_of env table 0 s) (List.length gws))).
  { subst batch. clear E. induction gws as [|gw rest IH]; [reflexivity|].
    cbn [flat_map List.length repeat List.concat].
    now rewrite IH, (records_of_ignores_gameweek env table gw 0 s Hne). }
  split; [exact B|]. rewrite B. clear.
  induction (List.length gws) as [|n IH]; [reflexivity|].
  cbn [repeat List.concat]. rewrite length_app, IH. reflexivity.
Qed.

Lemma other_datasets_repeat_per_gameweek_witness :
  List.length (value [] (extraction_loop bootstrap_env "teams" [3; 4; 5] []) empty_state)
  = 6%nat.
Proof.
  assert (R : fst (extraction_loop bootstrap_env "teams" [3; 4; 5] [] empty_state)
              = Ok (value [] (extraction_loop bootstrap_env "teams" [3; 4; 5] [])
                          empty_state))
    by (vm_compute; reflexivity).
  rewrite (proj2 (other_datasets_repeat_per_gameweek bootstrap_env "teams" [3; 4; 5]
                    empty_state _ ltac:(discriminate) R)).
  vm_compute. reflexivity.
Defined.

Lemma flatten_element_flattenable (gw : Z) (element : json) :
  if flattenable element
  then exists r, flatten_element gw element = Ok r
  else flatten_element gw element = Raise TypeError \/
       flatten_element gw element = Raise AttributeError.
Proof.
  unfold flattenable, flatten_element.
  destruct element as [| | | | | |e]; try (left; reflexivity).
  rewrite dict_get_set_other by discriminate.
  destruct (dict_get "stats" e) as [[| | | | | |stats]|];
    try (right; reflexivity); eexists; reflexivity.
Qed.

Lemma mapM_flatten (gw : Z) (items : list json) :
  if forallb flattenable items
  then exists records,
         mapM (flatten_element gw) items = Ok records /\
         Forall2 (fun element r => flatten_element gw element = Ok r) items records
  else mapM (flatten_element gw) items = Raise TypeError \/
       mapM (flatten_element gw) items = Raise AttributeError.
Proof.
  induction items as [|x items IH]; cbn [forallb mapM].
  - exists []. split; [reflexivity | constructor].
  - pose proof (flatten_element_flattenable gw x) as Hx.
    destruct (flattenable x); cbn [andb].
    + destruct Hx as [r Hr]. rewrite Hr.
      destruct (forallb flattenable items).
      * destruct IH as (records & -> & F). exists (r :: records).
        split; [reflexivity | now constructor].
      * destruct IH as [-> | ->]; [left | right]; reflexivity.
    + destruct Hx as [-> | ->]; [left | right]; reflexivity.
Qed.

(** The value of the live extractor on an answer with a list of elements. *)
Lemma live_value_flattening
  (env : Env) (gw : Z) (answer : dict) (items : list json) :
  api_response env (EpLive gw) = Some (JDict answer) ->
  dict_get "elements" answer = Some (JList items) ->
  if forallb flattenable items
  then exists records,
         live_value env gw = Ok (JList records) /\
         Forall2 (fun element r => flatten_element gw element = Ok r) items records
  else live_value env gw = Raise TypeError \/ live_value env gw = Raise AttributeError.
Proof.
  intros Ha He. unfold live_value, api_value. rewrite Ha.
  assert (T : truthy (JDict answer) = true)
    by (destruct answer; [discriminate He | reflexivity]).
  rewrite T. cbn [py_get]. rewrite He. cbn [py_iter].
  pose proof (mapM_flatten gw items) as Hm.
  destruct (forallb flattenable items).
  - destruct Hm as (records & -> & F). exists records. now split.
  - destruct Hm as [-> | ->]; [left | right]; reflexivity.
Qed.

(** Flattening a live answer is all or nothing.  When every element of
    the answer is an object whose "stats" field, if present, is an object,
    the extractor returns one record per element, in the order of the
    answer, each the flattening of its element; otherwise it raises and
    returns no record at all. *)
Theorem live_extraction_all_or_nothing
  (env : Env) (gw : Z) (s : State) (answer : dict) (items : list json) :
  api_response env (EpLive gw) = Some (JDict answer) ->
  dict_get "elements" answer = Some (JList items) ->
  if forallb flattenable items
  then exists records,
         fst (extract_gameweek_live env gw s) = Ok (JList records) /\
         Forall2 (fun element r => flatten_element gw element = Ok r) items records /\
         List.length records = List.length items
  else fst (extract_gameweek_live env gw s) = Raise TypeError \/
       fst (extract_gameweek_live env gw s) = Raise AttributeError.
Proof.
  intros Ha He.
  destruct (extract_gameweek_live_spec env gw s) as (s' & -> & _). cbn [fst].
  pose proof (live_value_flattening env gw answer items Ha He) as Hv.
  destruct (forallb flattenable items).
  - destruct Hv as (records & -> & F). exists records.
    split; [reflexivity|]. split; [exact F|].
    symmetry. exact (Forall2_length F).
  - exact Hv.
Qed.

Lemma live_extraction_all_or_nothing_witness :
  exists records,
    fst (extract_gameweek_live season_env 4 empty_state) = Ok (JList records) /\
    Forall2 (fun element r => flatten_element 4 element = Ok r)
            [live_element 1 90; live_element 2 45] records /\
    List.length records = 2%nat.
Proof.
  exact (live_extraction_all_or_nothing season_env 4 empty_state
           [("elements", JList [live_element 1 90; live_element 2 45])]
           [live_element 1 90; live_element 2 45] eq_refl eq_refl).
Defined.

Lemma batch_value_raises (env : Env) (boot : json) (table : string) (gw : Z) (e : exn) :
  extractor_value env boot table gw = Some (Raise e) ->
  forall (gws : list Z) (all_data : list json),
    In gw gws -> exists e', batch_value env boot table gws all_data = Raise e'.
Proof.
  intros Hraise. induction gws as [|g rest IH]; intros all_data Hin; [contradiction|].
  cbn [batch_value].
  destruct (Z.eq_dec g gw) as [->|Hne].
  - rewrite Hraise. now exists e.
  - destruct Hin as [?|Hin]; [congruence|].
    destruct (extractor_value env boot table g) as [[gw_data|e0]|].
    + destruct (py_iter gw_data) as [its|e1]; [apply IH, Hin | now exists e1].
    + now exists e0.
    + apply IH, Hin.
Qed.

(** One element that cannot be flattened, in any gameweek of the range,
    fails the whole incremental load of "gameweek_live": nothing is written
    to the landing zone, no audit row is appended, so the watermark stays
    where it was, and the run ends on the error entry. *)
Theorem malformed_element_aborts_load
  (env : Env) (lt : string) (c gw : Z) (s : State)
  (answer : dict) (items : list json) (element : json) :
  (lower lt =? "incremental")%string = true ->
  In gw (range (watermark_read env "gameweek_live" s + 1) (c + 1)) ->
  api_response env (EpLive gw) = Some (JDict answer) ->
  dict_get "elements" answer = Some (JList items) ->
  In element items ->
  flattenable element = false ->
  let s' := exec (extract_and_save_to_landing env "gameweek_live" lt c) s in
  run_failed s' = true /\
  storage s' = storage s /\
  ledger s' = ledger s /\
  landing_writes (log_entries s') = landing_writes (log_entries s) /\
  watermark_read env "gameweek_live" s' = watermark_read env "gameweek_live" s.
Proof.
  intros Hlt Hin Ha He Hel Hbad s'.
  assert (Hall : forallb flattenable items = false).
  { destruct (forallb flattenable items) eqn:F; [|reflexivity].
    rewrite forallb_forall in F. rewrite (F element Hel) in Hbad. discriminate. }
  pose proof (live_value_flattening env gw answer items Ha He) as Hl.
  rewrite Hall in Hl.
  assert (Hv : exists e, extractor_value env (bootstrap_view env s) "gameweek_live" gw
                         = Some (Raise e)).
  { unfold extractor_value. cbn [String.eqb Ascii.eqb Bool.eqb].
    destruct Hl as [-> | ->]; eexists; reflexivity. }
  destruct Hv as [e Hv].
  destruct (batch_value_raises env _ _ gw e Hv _ [] Hin) as [e' Hb].
  pose proof (incremental_run env "gameweek_live" lt c s Hlt) as R.
  cbv zeta in R. destruct R as (_ & _ & R).
  unfold incremental_batch in R. rewrite Hb in R.
  destruct R as (St & Le & Lw & Rf). subst s'.
  repeat (split; [assumption|]).
  rewrite !watermark_read_eq, Le. reflexivity.
Qed.

Lemma malformed_element_aborts_load_witness :
  let s' := exec (extract_and_save_to_landing malformed_env "gameweek_live"
                    "incremental" 6) (with_ledger [live_row 3]) in
  run_failed s' = true /\
  storage s' = [] /\
  ledger s' = [live_row 3] /\
  landing_writes (log_entries s') = [] /\
  watermark_read malformed_env "gameweek_live" s' = 3.
Proof.
  assert (W : watermark_read malformed_env "gameweek_live" (with_ledger [live_row 3]) = 3)
    by (vm_compute; reflexivity).
  assert (I : In 5 (range (watermark_read malformed_env "gameweek_live"
                             (with_ledger [live_row 3]) + 1) (6 + 1)))
    by (rewrite W; vm_compute; right; left; reflexivity).
  pose proof (malformed_element_aborts_load malformed_env "incremental" 6 5
                (with_ledger [live_row 3])
                [("elements",
                  JList [live_element 1 90; JDict [("id", JInt 2); ("stats", JNull)]])]
                [live_element 1 90; JDict [("id", JInt 2); ("stats", JNull)]]
                (JDict [("id", JInt 2); ("stats", JNull)])
                eq_refl I eq_refl eq_refl (or_intror (or_introl eq_refl)) eq_refl) as H.
  cbv zeta in H. rewrite W in H. exact H.
Defined.

(** ** Landing zone *)

Lemma string_length_app (a b : string) :
  String.length (a ++ b) = (String.length a + String.length b)%nat.
Proof. induction a as [|c a IH]; simpl; [reflexivity | now rewrite IH]. Qed.

Lemma startswith_app (p s : string) : startswith p (p ++ s) = true.
Proof.
  induction p as [|c p IH]; simpl; [now destruct s|].
  now rewrite Ascii.eqb_refl, IH.
Qed.

Lemma drop_app (a b : string) : drop (String.length a) (a ++ b) = b.
Proof. induction a as [|c a IH]; simpl; [now destruct b | exact IH]. Qed.

Lemma endswith_app (p s : string) : endswith p (s ++ p) = true.
Proof.
  unfold endswith. rewrite string_length_app.
  replace (String.length s + String.length p - String.length p)%nat
    with (String.length s) by lia.
  rewrite drop_app, String.eqb_refl, andb_true_r.
  apply Nat.leb_le. lia.
Qed.




Lemma blob_put_names (n c x : string) (st : list (string * string)) :
  In x (map fst (blob_put n c st)) <-> x = n \/ In x (map fst st).
Proof.
  induction st as [|[m d] st IH]; simpl.
  - intuition congruence.
  - destruct (String.eqb_spec m n) as [->|Hne]; simpl.
    + intuition congruence.
    + rewrite IH. intuition congruence.
Qed.

Lemma blob_put_nodup (n c : string) (st : list (string * string)) :
  NoDup (map fst st) -> NoDup (map fst (blob_put n c st)).
Proof.
  induction st as [|[m d] st IH]; simpl; intros ND.
  - constructor; [intros [] | constructor].
  - inversion ND as [|? ? Hin ND']; subst.
    destruct (String.eqb_spec m n) as [->|Hne]; simpl.
    + now constructor.
    + constructor; [|now apply IH].
      rewrite blob_put_names. intros [->|I]; [congruence | contradiction].
Qed.

Lemma blob_delete_names (n : string) (st : list (string * string)) :
  map fst (blob_delete n st) = filter (fun m => negb (m =? n)%string) (map fst st).
Proof. unfold blob_delete. now rewrite filter_map_swap. Qed.

Lemma blob_delete_nodup (n : string) (st : list (string * string)) :
  NoDup (map fst st) -> NoDup (map fst (blob_delete n st)).
Proof. intros ND. rewrite blob_delete_names. now apply NoDup_filter. Qed.

Lemma blob_get_names (n : string) (st : list (string * string)) :
  blob_get n st <> None <-> In n (map fst st).
Proof.
  split; [|apply blob_get_listed].
  induction st as [|[m d] st IH]; simpl; [congruence|].
  destruct (String.eqb_spec m n) as [->|Hne]; [now left | right; now apply IH].
Qed.





(** ** Archive *)

Lemma landing_path_dated (env : Env) (table dd mm yyyy : string) :
  today_ddmmyyyy env = (dd ++ mm ++ yyyy)%string ->
  landing_path env table
  = (("landing/" ++ DATA_SOURCE ++ "/" ++ table) ++ "/" ++ table ++ "_"
     ++ dd ++ mm ++ yyyy ++ ".json")%string.
Proof.
  intros Hd. unfold landing_path, DATA_SOURCE. rewrite Hd.
  cbn [append]. rewrite !append_assoc. reflexivity.
Qed.

(** The archiver reads back the date the writer put into the name: an
    object written by [save_to_landing] on day dd/mm/yyyy is filed under
    archive/{table}/yyyy/mm/dd/ with its own file name, whatever the clock
    says when it is archived. *)
Theorem landing_name_gives_archive_date
  (env env' : Env) (table dd mm yyyy : string) :
  today_ddmmyyyy env = (dd ++ mm ++ yyyy)%string ->
  String.length dd = 2%nat ->
  String.length mm = 2%nat ->
  char_free "_" (dd ++ mm ++ yyyy) = true ->
  char_free "." (dd ++ mm ++ yyyy) = true ->
  char_free "/" (table ++ "_" ++ dd ++ mm ++ yyyy) = true ->
  archive_path_of env' table (landing_path env table)
  = Ok ("landing/fpl-api/archive/" ++ table ++ "/" ++ yyyy ++ "/" ++ mm ++ "/" ++ dd
        ++ "/" ++ table ++ "_" ++ dd ++ mm ++ yyyy ++ ".json")%string.
Proof.
  intros Hd L2 M2 F_ Fdot Fslash.
  rewrite (landing_path_dated env table dd mm yyyy Hd).
  now apply archive_path_of_dated.
Qed.

Lemma landing_name_gives_archive_date_witness :
  archive_path_of season_env "gameweek_live" (landing_path quiet_env "gameweek_live")
  = Ok "landing/fpl-api/archive/gameweek_live/2026/11/04/gameweek_live_04112026.json".
Proof.
  exact (landing_name_gives_archive_date quiet_env season_env "gameweek_live"
           "04" "11" "2026" eq_refl eq_refl eq_refl eq_refl eq_refl eq_refl).
Defined.

Lemma archive_one_nodup (env : Env) (table file : string) (s : State) :
  NoDup (map fst (storage s)) ->
  NoDup (map fst (storage (exec (archive_one env table file) s))).
Proof.
  intros ND. unfold exec, archive_one.
  destruct (contains "/archive/" file); [exact ND|].
  unfold bind, lift, copy_blob, delete_blob, set_storage.
  destruct (archive_path_of env table file) as [p|e]; [|exact ND].
  destruct (gcs_ok env); [|exact ND].
  destruct (blob_get file (storage s)) as [c|]; [|exact ND].
  cbn [storage].
  destruct (blob_get file (blob_put p c (storage s))).
  - rewrite log_event_eq. cbn [snd logged storage].
    now apply blob_delete_nodup, blob_put_nodup.
  - cbn [snd storage]. now apply blob_put_nodup.
Qed.

Lemma archive_loop_nodup (env : Env) (table : string) (files : list string) :
  forall s, NoDup (map fst (storage s)) ->
            NoDup (map fst (storage (exec (archive_loop env table files) s))).
Proof.
  induction files as [|file rest IH]; intros s ND; [exact ND|].
  unfold exec. cbn [archive_loop]. unfold bind.
  pose proof (archive_one_nodup env table file s ND) as N1. unfold exec in N1.
  destruct (archive_one env table file s) as [[u|e] s1]; cbn [snd] in N1 |- *.
  - apply IH, N1.
  - exact N1.
Qed.

Lemma archive_loop_skips (env : Env) (table : string) (files : list string) (s : State) :
  (forall f, In f files -> contains "/archive/" f = true) ->
  archive_loop env table files s = (Ok tt, s).
Proof.
  induction files as [|file rest IH]; intros H; [reflexivity|].
  cbn [archive_loop]. unfold bind.
  rewrite archive_one_skip by (apply H; now left).
  apply IH. intros f I. apply H. now right.
Qed.

(** Everything the archive step does to the bucket, with the bucket
    available. *)
Lemma archive_step_effect (env : Env) (table : string) (s : State) :
  gcs_ok env = true ->
  NoDup (map fst (storage s)) ->
  exists s',
    move_existing_files_to_archive env table s = (Ok tt, s') /\
    ledger s' = ledger s /\
    NoDup (map fst (storage s')) /\
    to_archive table (storage s') = [] /\
    (forall f, In f (to_archive table (storage s)) -> blob_get f (storage s') = None) /\
    (forall g, contains "/archive/" g = false -> ~ In g (to_archive table (storage s)) ->
               blob_get g (storage s') = blob_get g (storage s)) /\
    (forall p, contains "/archive/" p = true ->
               (forall f, In f (to_archive table (storage s)) ->
                          archive_path_of env table f <> Ok p) ->
               blob_get p (storage s') = blob_get p (storage s)) /\
    (forall f p, In f (to_archive table (storage s)) ->
                 archive_path_of env table f = Ok p ->
                 (forall f', In f' (to_archive table (storage s)) ->
                             archive_path_of env table f' = Ok p -> f' = f) ->
                 blob_get p (storage s') = blob_get f (storage s)).
Proof.
  intros G ND.
  assert (Core : exists s',
    move_existing_files_to_archive env table s = (Ok tt, s') /\
    ledger s' = ledger s /\
    NoDup (map fst (storage s')) /\
    (forall f, In f (to_archive table (storage s)) -> blob_get f (storage s') = None) /\
    (forall g, contains "/archive/" g = false -> ~ In g (to_archive table (storage s)) ->
               blob_get g (storage s') = blob_get g (storage s)) /\
    (forall p, contains "/archive/" p = true ->
               (forall f, In f (to_archive table (storage s)) ->
                          archive_path_of env table f <> Ok p) ->
               blob_get p (storage s') = blob_get p (storage s)) /\
    (forall f p, In f (to_archive table (storage s)) ->
                 archive_path_of env table f = Ok p ->
                 (forall f', In f' (to_archive table (storage s)) ->
                             archive_path_of env table f' = Ok p -> f' = f) ->
                 blob_get p (storage s') = blob_get f (storage s))).
  { unfold move_existing_files_to_archive, bind, list_blobs. rewrite G.
    set (files := filter (endswith ".json")
                         (filter (startswith (landing_prefix table)) (map fst (storage s)))).
    assert (Hfiles : forall f, In f files -> In f (map fst (storage s))).
    { intros f I. unfold files in I. rewrite !filter_In in I. tauto. }
    assert (Hto : forall f, In f (to_archive table (storage s)) <->
                            In f files /\ contains "/archive/" f = false).
    { intros f. unfold to_archive. fold files. now rewrite filter_In, negb_true_iff. }
    destruct (archive_loop_spec env table G files s) as (s' & E & L & A & Fr & Ar & R).
    { unfold files. now apply NoDup_filter, NoDup_filter. }
    { intros f I _. now apply blob_get_listed, Hfiles. }
    pose proof (archive_loop_nodup env table files s ND) as N'.
    unfold exec in N'. rewrite E in N'. cbn [snd] in N'.
    destruct files as [|file rest] eqn:Efiles.
    - rewrite log_event_eq. eexists. split; [reflexivity|].
      unfold logged; cbn [ledger storage].
      split; [reflexivity|]. split; [exact ND|].
      split; [intros f I; apply Hto in I as [[] _]|].
      split; [reflexivity|]. split; [reflexivity|].
      intros f p I. apply Hto in I as [[] _].
    - exists s'. split; [exact E|]. split; [exact L|]. split; [exact N'|].
      split; [intros f I; apply Hto in I as [I C]; now apply A|].
      split.
      { intros g C NI. apply Fr; [exact C|]. intros I. apply NI, Hto. now split. }
      split.
      { intros p C H. apply Ar; [exact C|]. intros f I Cf. apply H, Hto. now split. }
      intros f p I P U. apply Hto in I as [I C].
      destruct (R f I C) as (p' & f' & P1 & I' & C' & P' & V).
      assert (p' = p) by congruence. subst p'.
      rewrite V. f_equal. apply U; [apply Hto; now split | exact P']. }
  destruct Core as (s1 & E & L & N1 & Gone & Fr & Ar & R).
  exists s1. repeat (split; [assumption|]). split; [|now repeat split].
  destruct (to_archive table (storage s1)) as [|f rest] eqn:T; [reflexivity|].
  exfalso.
  assert (I : In f (to_archive table (storage s1))) by (rewrite T; now left).
  apply to_archive_in in I as (In1 & P & J & C).
  apply blob_get_names in In1.
  destruct (in_dec string_dec f (to_archive table (storage s))) as [Old|New].
  - now rewrite (Gone f Old) in In1.
  - rewrite (Fr f C New) in In1. apply blob_get_names in In1.
    apply New, to_archive_in. tauto.
Qed.

(** The archive step leaves nothing behind to archive, so running it
    again changes nothing: after one pass with the bucket available no
    object of the dataset's landing folder is left for a later pass, and a
    second pass, on any day and whatever the bucket's availability, leaves
    the bucket and the ledger as they are. *)
Theorem archive_step_idempotent (env env' : Env) (table : string) (s : State) :
  gcs_ok env = true ->
  NoDup (map fst (storage s)) ->
  let s1 := exec (move_existing_files_to_archive env table) s in
  let s2 := exec (move_existing_files_to_archive env' table) s1 in
  to_archive table (storage s1) = [] /\
  storage s2 = storage s1 /\
  ledger s2 = ledger s.
Proof.
  intros G ND s1 s2. subst s2 s1. unfold exec.
  destruct (archive_step_effect env table s G ND) as (s1 & E & L & N1 & Empty & _).
  rewrite E. cbn [snd].
  split; [exact Empty|].
  unfold move_existing_files_to_archive, bind, list_blobs.
  destruct (gcs_ok env'); [|cbn [snd]; now split].
  set (files := filter (endswith ".json")
                       (filter (startswith (landing_prefix table)) (map fst (storage s1)))).
  assert (Skip : forall f, In f files -> contains "/archive/" f = true).
  { intros f I. destruct (contains "/archive/" f) eqn:C; [reflexivity|]. exfalso.
    assert (I' : In f (to_archive table (storage s1))).
    { unfold to_archive. fold files. rewrite filter_In, C. now split. }
    now rewrite Empty in I'. }
  destruct files as [|file rest] eqn:Efiles.
  - rewrite log_event_eq. cbn [snd logged storage ledger]. now split.
  - rewrite (archive_loop_skips env' table (file :: rest) s1 Skip). cbn [snd]. now split.
Qed.

Lemma archive_step_idempotent_witness :
  let s1 := exec (move_existing_files_to_archive quiet_env "teams")
              (bucket_with "landing/fpl-api/teams/teams_03112026.json" "{}") in
  to_archive "teams" (storage s1) = [] /\
  storage (exec (move_existing_files_to_archive season_env "teams") s1) = storage s1.
Proof.
  destruct (archive_step_idempotent quiet_env season_env "teams"
              (bucket_with "landing/fpl-api/teams/teams_03112026.json" "{}") eq_refl)
    as (E & S & _).
  - constructor; [intros [] | constructor].
  - split; [exact E | exact S].
Defined.

(** The archive step only touches what it relocates: an object that is
    neither one of the dataset's landing objects to archive nor the archive
    path of one of them keeps its content, and the ledger is untouched. *)
Theorem archive_step_frame (env : Env) (table other : string) (s : State) :
  gcs_ok env = true ->
  NoDup (map fst (storage s)) ->
  ~ In other (to_archive table (storage s)) ->
  (forall f, In f (to_archive table (storage s)) ->
             archive_path_of env table f <> Ok other) ->
  let s' := exec (move_existing_files_to_archive env table) s in
  blob_get other (storage s') = blob_get other (storage s) /\
  ledger s' = ledger s.
Proof.
  intros G ND NI NP s'. subst s'. unfold exec.
  destruct (archive_step_effect env table s G ND) as (s1 & E & L & _ & _ & _ & Fr & Ar & _).
  rewrite E. cbn [snd]. split; [|exact L].
  destruct (contains "/archive/" other) eqn:C.
  - now apply Ar.
  - now apply Fr.
Qed.

Lemma archive_step_frame_witness :
  blob_get "landing/fpl-api/players/players_03112026.json"
    (storage (exec (move_existing_files_to_archive quiet_env "teams")
                (mkState [] [("landing/fpl-api/teams/teams_03112026.json", "t");
                             ("landing/fpl-api/players/players_03112026.json", "p")]
                         [] JNull)))
  = Some "p".
Proof.
  refine (proj1 (archive_step_frame quiet_env "teams"
                   "landing/fpl-api/players/players_03112026.json"
                   (mkState [] [("landing/fpl-api/teams/teams_03112026.json", "t");
                                ("landing/fpl-api/players/players_03112026.json", "p")]
                            [] JNull) eq_refl _ _ _)).
  - constructor; [intros [H|[]]; discriminate H|].
    constructor; [intros [] | constructor].
  - vm_compute. intros [H|[]]. discriminate H.
  - vm_compute. intros f [<-|[]] H. discriminate H.
Defined.

Lemma landing_path_selected (env : Env) (table : string) :
  startswith (landing_prefix table) (landing_path env table) = true /\
  endswith ".json" (landing_path env table) = true.
Proof.
  split.
  - replace (landing_path env table)
      with (landing_prefix table ++ (table ++ "_" ++ today_ddmmyyyy env ++ ".json"))%string.
    + apply startswith_app.
    + unfold landing_prefix, landing_path, DATA_SOURCE.
      repeat (progress (rewrite ?append_assoc; cbn [append])). reflexivity.
  - replace (landing_path env table)
      with (("landing/" ++ DATA_SOURCE ++ "/" ++ table ++ "/" ++ table ++ "_"
             ++ today_ddmmyyyy env) ++ ".json")%string.
    + apply endswith_app.
    + unfold landing_path, DATA_SOURCE.
      repeat (progress (rewrite ?append_assoc; cbn [append])). reflexivity.
Qed.

(** A landing write followed by an archive pass, started in a bucket whose
    landing folder for the dataset holds nothing to archive. *)
Lemma save_then_archive
  (env env' : Env) (table dd mm yyyy : string) (data : json) (records : list json)
  (s : State) :
  gcs_ok env = true ->
  gcs_ok env' = true ->
  NoDup (map fst (storage s)) ->
  to_archive table (storage s) = [] ->
  today_ddmmyyyy env = (dd ++ mm ++ yyyy)%string ->
  String.length dd = 2%nat ->
  String.length mm = 2%nat ->
  char_free "_" (dd ++ mm ++ yyyy) = true ->
  char_free "." (dd ++ mm ++ yyyy) = true ->
  char_free "/" (table ++ "_" ++ dd ++ mm ++ yyyy) = true ->
  contains "/archive/" (landing_path env table) = false ->
  truthy data = true ->
  py_iter data = Ok records ->
  let s2 := exec (move_existing_files_to_archive env' table)
                 (exec (save_to_landing env table data) s) in
  blob_get (landing_path env table) (storage s2) = None /\
  blob_get ("landing/fpl-api/archive/" ++ table ++ "/" ++ yyyy ++ "/" ++ mm ++ "/" ++ dd
            ++ "/" ++ table ++ "_" ++ dd ++ mm ++ yyyy ++ ".json")%string (storage s2)
  = Some (json_lines env records) /\
  NoDup (map fst (storage s2)) /\
  to_archive table (storage s2) = [].
Proof.
  intros G G' ND Clean Hd L2 M2 F_ Fdot Fslash C T I s2. subst s2.
  set (c := json_lines env records).
  assert (S1 : exec (save_to_landing env table data) s
               = logged (uploaded s (landing_path env table) c) SUCCESS
                        (MsgSaved (Z.of_nat (List.length records)) (landing_path env table))
                        (Some table))
    by (unfold exec; rewrite save_to_landing_eq, T, I, G; reflexivity).
  rewrite S1. clear S1.
  set (s1 := logged (uploaded s (landing_path env table) c) SUCCESS _ _).
  assert (St : storage s1 = blob_put (landing_path env table) c (storage s)) by reflexivity.
  assert (N1 : NoDup (map fst (storage s1))) by (rewrite St; now apply blob_put_nodup).
  destruct (landing_path_selected env table) as [P J].
  assert (To : forall f, In f (to_archive table (storage s1)) <-> f = landing_path env table).
  { intros f. rewrite to_archive_in, St, blob_put_names. split.
    - intros ([->|In0] & Pf & Jf & Cf); [reflexivity|]. exfalso.
      assert (I0 : In f (to_archive table (storage s))) by (apply to_archive_in; tauto).
      now rewrite Clean in I0.
    - intros ->. repeat split; try assumption. now left. }
  assert (A : archive_path_of env' table (landing_path env table)
              = Ok ("landing/fpl-api/archive/" ++ table ++ "/" ++ yyyy ++ "/" ++ mm
                    ++ "/" ++ dd ++ "/" ++ table ++ "_" ++ dd ++ mm ++ yyyy
                    ++ ".json")%string).
  { rewrite (landing_path_dated env table dd mm yyyy Hd).
    now apply archive_path_of_dated. }
  unfold exec.
  destruct (archive_step_effect env' table s1 G' N1)
    as (s2 & E & _ & N2 & Empty & Gone & _ & _ & R).
  rewrite E. cbn [snd].
  split; [apply Gone, To; reflexivity|].
  split; [|now split].
  rewrite (R (landing_path env table) _ (proj2 (To _) eq_refl) A).
  - rewrite St. apply blob_get_put.
  - intros f' I' _. now apply To.
Qed.

(** Writer and archiver fit together: an object written by
    [save_to_landing] on day dd/mm/yyyy into a clean landing folder is, after
    the next archive pass, gone from the landing folder and found with its
    content under archive/{table}/yyyy/mm/dd/, the day of the write and not
    of the archive pass. *)
Theorem saved_object_is_archived
  (env env' : Env) (table dd mm yyyy : string) (data : json) (records : list json)
  (s : State) :
  gcs_ok env = true ->
  gcs_ok env' = true ->
  NoDup (map fst (storage s)) ->
  to_archive table (storage s) = [] ->
  today_ddmmyyyy env = (dd ++ mm ++ yyyy)%string ->
  String.length dd = 2%nat ->
  String.length mm = 2%nat ->
  char_free "_" (dd ++ mm ++ yyyy) = true ->
  char_free "." (dd ++ mm ++ yyyy) = true ->
  char_free "/" (table ++ "_" ++ dd ++ mm ++ yyyy) = true ->
  contains "/archive/" (landing_path env table) = false ->
  truthy data = true ->
  py_iter data = Ok records ->
  let s2 := exec (move_existing_files_to_archive env' table)
                 (exec (save_to_landing env table data) s) in
  blob_get (landing_path env table) (storage s2) = None /\
  blob_get ("landing/fpl-api/archive/" ++ table ++ "/" ++ yyyy ++ "/" ++ mm ++ "/" ++ dd
            ++ "/" ++ table ++ "_" ++ dd ++ mm ++ yyyy ++ ".json")%string (storage s2)
  = Some (json_lines env records).
Proof.
  intros G G' ND Clean Hd L2 M2 F_ Fdot Fslash C T I s2. subst s2.
  destruct (save_then_archive env env' table dd mm yyyy data records s
              G G' ND Clean Hd L2 M2 F_ Fdot Fslash C T I) as (A & B & _).
  now split.
Qed.

Lemma saved_object_is_archived_witness :
  let s2 := exec (move_existing_files_to_archive season_env "teams")
                 (exec (save_to_landing quiet_env "teams" (JList [JInt 7; JInt 9]))
                       empty_state) in
  blob_get "landing/fpl-api/teams/teams_04112026.json" (storage s2) = None /\
  blob_get "landing/fpl-api/archive/teams/2026/11/04/teams_04112026.json" (storage s2)
  = Some (json_lines quiet_env [JInt 7; JInt 9]).
Proof.
  exact (saved_object_is_archived quiet_env season_env "teams" "04" "11" "2026"
           (JList [JInt 7; JInt 9]) [JInt 7; JInt 9] empty_state
           eq_refl eq_refl (NoDup_nil _) eq_refl eq_refl eq_refl eq_refl eq_refl eq_refl
           eq_refl eq_refl eq_refl eq_refl).
Defined.

(** The archive keeps one object per dataset and day.  When a dataset is
    loaded twice on the same day, the archive pass after the second load
    files its object under the archive path of the first and replaces it:
    the archive then holds the second batch, and the first batch is in
    neither place. *)
Theorem same_day_reload_replaces_archived_object
  (env env1 env2 : Env) (table dd mm yyyy : string)
  (first second : json) (records1 records2 : list json) (s : State) :
  gcs_ok env = true ->
  gcs_ok env1 = true ->
  gcs_ok env2 = true ->
  NoDup (map fst (storage s)) ->
  to_archive table (storage s) = [] ->
  today_ddmmyyyy env = (dd ++ mm ++ yyyy)%string ->
  String.length dd = 2%nat ->
  String.length mm = 2%nat ->
  char_free "_" (dd ++ mm ++ yyyy) = true ->
  char_free "." (dd ++ mm ++ yyyy) = true ->
  char_free "/" (table ++ "_" ++ dd ++ mm ++ yyyy) = true ->
  contains "/archive/" (landing_path env table) = false ->
  truthy first = true -> py_iter first = Ok records1 ->
  truthy second = true -> py_iter second = Ok records2 ->
  let archived := ("landing/fpl-api/archive/" ++ table ++ "/" ++ yyyy ++ "/" ++ mm ++ "/"
                   ++ dd ++ "/" ++ table ++ "_" ++ dd ++ mm ++ yyyy ++ ".json")%string in
  let s2 := exec (move_existing_files_to_archive env1 table)
                 (exec (save_to_landing env table first) s) in
  let s4 := exec (move_existing_files_to_archive env2 table)
                 (exec (save_to_landing env table second) s2) in
  blob_get archived (storage s2) = Some (json_lines env records1) /\
  blob_get archived (storage s4) = Some (json_lines env records2) /\
  blob_get (landing_path env table) (storage s4) = None.
Proof.
  intros G G1 G2 ND Clean Hd L2 M2 F_ Fdot Fslash C T1 I1 T2 I2 archived s2 s4.
  destruct (save_then_archive env env1 table dd mm yyyy first records1 s
              G G1 ND Clean Hd L2 M2 F_ Fdot Fslash C T1 I1) as (_ & A2 & N2 & Clean2).
  fold s2 in A2, N2, Clean2.
  destruct (save_then_archive env env2 table dd mm yyyy second records2 s2
              G G2 N2 Clean2 Hd L2 M2 F_ Fdot Fslash C T2 I2) as (L4 & A4 & _).
  fold s4 in L4, A4.
  split; [exact A2|]. split; [exact A4 | exact L4].
Qed.

Lemma same_day_reload_replaces_archived_object_witness :
  let archived := "landing/fpl-api/archive/teams/2026/11/04/teams_04112026.json" in
  let s2 := exec (move_existing_files_to_archive quiet_env "teams")
                 (exec (save_to_landing quiet_env "teams" (JList [JInt 7])) empty_state) in
  let s4 := exec (move_existing_files_to_archive quiet_env "teams")
                 (exec (save_to_landing quiet_env "teams" (JList [JInt 9])) s2) in
  blob_get archived (storage s2) = Some (json_lines quiet_env [JInt 7]) /\
  blob_get archived (storage s4) = Some (json_lines quiet_env [JInt 9]) /\
  blob_get (landing_path quiet_env "teams") (storage s4) = None.
Proof.
  exact (same_day_reload_replaces_archived_object quiet_env quiet_env quiet_env
           "teams" "04" "11" "2026" (JList [JInt 7]) (JList [JInt 9]) [JInt 7] [JInt 9]
           empty_state eq_refl eq_refl eq_refl (NoDup_nil _) eq_refl eq_refl eq_refl
           eq_refl eq_refl eq_refl eq_refl eq_refl eq_refl eq_refl eq_refl eq_refl).
Defined.

(** ** The log buffer is write-only *)

Lemma prepend_fields (l : list log_entry) (s : State) :
  ledger (prepend l s) = ledger s /\ storage (prepend l s) = storage s /\
  bootstrap_cache (prepend l s) = bootstrap_cache s.
Proof. now repeat split. Qed.

Lemma local_ret {A : Type} (a : A) : log_local (ret a).
Proof. intros l s. reflexivity. Qed.

Lemma local_raise {A : Type} (e : exn) : log_local (@raise A e).
Proof. intros l s. reflexivity. Qed.

Lemma local_lift {A : Type} (r : result A) : log_local (lift r).
Proof. intros l s. reflexivity. Qed.

Lemma local_bind {A B : Type} (m : M A) (k : A -> M B) :
  log_local m -> (forall a, log_local (k a)) -> log_local (bind m k).
Proof.
  intros Hm Hk l s. unfold bind. rewrite Hm.
  destruct (m s) as [[a|e] s1]; cbn [fst snd]; [apply Hk | reflexivity].
Qed.

Lemma local_try {A : Type} (m : M A) (h : exn -> M A) :
  log_local m -> (forall e, log_local (h e)) -> log_local (try_except m h).
Proof.
  intros Hm Hh l s. unfold try_except. rewrite Hm.
  destruct (m s) as [[a|e] s1]; cbn [fst snd]; [reflexivity | apply Hh].
Qed.

Lemma local_log_event (lv : level) (m : message) (t : option string) :
  log_local (log_event lv m t).
Proof.
  intros l s. unfold log_event, prepend. cbn. now rewrite app_assoc.
Qed.

Lemma local_list_blobs (env : Env) (prefix : string) : log_local (list_blobs env prefix).
Proof. intros l s. unfold list_blobs. now destruct (gcs_ok env). Qed.

Lemma local_upload (env : Env) (name content : string) :
  log_local (upload_from_string env name content).
Proof. intros l s. unfold upload_from_string. now destruct (gcs_ok env). Qed.

Lemma local_copy_blob (env : Env) (source new_name : string) :
  log_local (copy_blob env source new_name).
Proof.
  intros l s. unfold copy_blob. destruct (gcs_ok env); [|reflexivity].
  cbn [prepend storage]. now destruct (blob_get source (storage s)).
Qed.

Lemma local_delete_blob (env : Env) (name : string) : log_local (delete_blob env name).
Proof.
  intros l s. unfold delete_blob. destruct (gcs_ok env); [|reflexivity].
  cbn [prepend storage]. now destruct (blob_get name (storage s)).
Qed.

Lemma local_set_bootstrap_cache (j : json) : log_local (set_bootstrap_cache j).
Proof. intros l s. reflexivity. Qed.

Lemma local_watermark_query (env : Env) (table : string) :
  log_local (watermark_query env table).
Proof. intros l s. unfold watermark_query. now destruct (bq_query_ok env). Qed.

Lemma local_insert_rows_json (env : Env) (row : AuditEntry) :
  log_local (insert_rows_json env row).
Proof. intros l s. unfold insert_rows_json. now destruct (bq_insert env). Qed.

Create HintDb local.

#[local] Hint Resolve local_ret local_raise local_lift local_log_event
  local_list_blobs local_upload local_copy_blob local_delete_blob
  local_set_bootstrap_cache local_watermark_query local_insert_rows_json : local.

(** Goes through a computation written with [bind], [try_except] and
    case distinctions on values. *)
Ltac local_steps :=
  repeat first
    [ solve [auto with local]
    | apply local_bind; [|intros ?]
    | apply local_try; [|intros ?]
    | match goal with
      | |- log_local (if ?b then _ else _) => destruct b
      | |- log_local (match ?x with _ => _ end) => destruct x
      | |- log_local (let _ := _ in _) => cbv zeta
      end ].

Lemma local_call_fpl_api (env : Env) (ep : endpoint) : log_local (call_fpl_api env ep).
Proof. unfold call_fpl_api. local_steps. Qed.

Lemma local_get_bootstrap_data (env : Env) : log_local (get_bootstrap_data env).
Proof.
  intros l s. unfold get_bootstrap_data. cbn [prepend bootstrap_cache].
  destruct (bootstrap_cache s); try reflexivity.
  assert (H : log_local (data <- call_fpl_api env EpBootstrap ;;
                         set_bootstrap_cache data ;; ret data)).
  { pose proof (local_call_fpl_api env EpBootstrap). local_steps. }
  apply H.
Qed.

Lemma local_extractor (env : Env) (table : string) (extractor : Z -> M json) (gw : Z) :
  EXTRACTION_MAP env table = Some extractor -> log_local (extractor gw).
Proof.
  pose proof (local_get_bootstrap_data env) as Hb.
  pose proof (local_call_fpl_api env) as Hc.
  unfold EXTRACTION_MAP.
  repeat match goal with
         | |- context [(table =? ?n)%string] => destruct (table =? n)%string
         end;
    intros [= <-];
    unfold extract_players, extract_player_positions, extract_teams, extract_gameweeks,
      extract_fixtures, extract_gameweek_live; local_steps.
Qed.

Lemma local_archive_loop (env : Env) (table : string) (files : list string) :
  log_local (archive_loop env table files).
Proof.
  induction files as [|file rest IH]; cbn [archive_loop]; [apply local_ret|].
  apply local_bind; [|intros _; exact IH].
  unfold archive_one. local_steps.
Qed.

Lemma local_move_existing (env : Env) (table : string) :
  log_local (move_existing_files_to_archive env table).
Proof.
  unfold move_existing_files_to_archive.
  apply local_bind; [apply local_list_blobs|]. intros blobs. cbv zeta.
  destruct (filter (endswith ".json") blobs) eqn:E.
  - apply local_log_event.
  - apply local_archive_loop.
Qed.

Lemma local_get_latest_watermark (env : Env) (table : string) :
  log_local (get_latest_watermark env table).
Proof. unfold get_latest_watermark. local_steps. Qed.

Lemma local_get_latest_finished (env : Env) : log_local (get_latest_finished_gameweek env).
Proof. unfold get_latest_finished_gameweek. local_steps. Qed.

Lemma local_save_to_landing (env : Env) (table : string) (data : json) :
  log_local (save_to_landing env table data).
Proof. unfold save_to_landing. local_steps. Qed.

Lemma local_write_audit_log (env : Env) (table lt : string) (n wv : Z) :
  log_local (write_audit_log env table lt n wv).
Proof. unfold write_audit_log. local_steps. Qed.

Lemma local_extraction_loop (env : Env) (table : string) (gws : list Z) :
  forall all_data, log_local (extraction_loop env table gws all_data).
Proof.
  induction gws as [|gw rest IH]; intros all_data; cbn [extraction_loop];
    [apply local_ret|].
  apply local_bind; [apply local_log_event|]. intros _.
  destruct (EXTRACTION_MAP env table) as [extractor|] eqn:E; [|apply IH].
  apply local_bind; [exact (local_extractor env table extractor gw E)|].
  intros gw_data. apply local_bind; [apply local_lift|]. intros items. apply IH.
Qed.

Lemma local_extract_and_save (env : Env) (table lt : string) (c : Z) :
  log_local (extract_and_save_to_landing env table lt c).
Proof.
  pose proof (local_get_latest_watermark env table) as Hw.
  pose proof (local_extraction_loop env table) as Hl.
  pose proof (local_save_to_landing env table) as Hs.
  pose proof (local_get_latest_finished env) as Hf.
  pose proof (local_write_audit_log env table lt) as Ha.
  unfold extract_and_save_to_landing.
  apply local_try; [|intros e; apply local_log_event].
  apply local_bind; [apply local_log_event|]. intros _.
  destruct (lower lt =? "incremental")%string.
  - local_steps.
  - destruct (EXTRACTION_MAP env table) as [extractor|] eqn:E; [|apply local_log_event].
    pose proof (local_extractor env table extractor c E). local_steps.
Qed.

(** The log buffer is write-only for the run of one configuration row:
    whatever the buffer already holds, archiving and loading a table
    return the same result, leave the same ledger, bucket and bootstrap
    cache, and append the same entries behind what was there. *)
Theorem table_run_ignores_log
  (env : Env) (table lt : string) (c : Z) (l : list log_entry) (s : State) :
  let run := process_table env table lt c in
  fst (run (prepend l s)) = fst (run s) /\
  ledger (exec run (prepend l s)) = ledger (exec run s) /\
  storage (exec run (prepend l s)) = storage (exec run s) /\
  bootstrap_cache (exec run (prepend l s)) = bootstrap_cache (exec run s) /\
  log_entries (exec run (prepend l s)) = l ++ log_entries (exec run s).
Proof.
  intros run.
  assert (H : log_local run).
  { unfold run, process_table. apply local_bind; [apply local_move_existing|].
    intros _. apply local_extract_and_save. }
  unfold exec. rewrite (H l s). cbn [fst snd prepend ledger storage bootstrap_cache log_entries].
  repeat split.
Qed.

(** ** The pipeline driver *)

Lemma table_step_outcome (env : Env) (table lt : string) (gw : Z) (p : Process) :
  gcs_ok env = true ->
  NoDup (map fst (p_storage p)) ->
  exists p' new,
    (in_process (move_existing_files_to_archive env table) ;;
     in_process (extract_and_save_to_landing env table lt gw))%process p = (Ok tt, p') /\
    NoDup (map fst (p_storage p')) /\
    p_ledger p' = p_ledger p ++ new /\
    (List.length new <= 1)%nat /\
    forall e, In e new -> tablename e = table /\ data_source e = DATA_SOURCE.
Proof.
  intros G ND. unfold pbind, in_process.
  destruct (archive_step_effect env table
              (mkState (p_ledger p) (p_storage p) [] (p_cache p)) G ND)
    as (s1 & E & L & N1 & _).
  rewrite E. cbn [p_ledger p_storage p_cache p_buffer].
  set (s1' := mkState (ledger s1) (storage s1) [] (bootstrap_cache s1)).
  pose proof (extract_and_save_never_raises env table lt gw s1') as Hok.
  assert (Out : let s' := exec (extract_and_save_to_landing env table lt gw) s1' in
                (storage s' = storage s1' \/
                 exists content, storage s' = blob_put (landing_path env table) content
                                                       (storage s1')) /\
                (ledger s' = ledger s1' \/
                 exists n wv, ledger s' = ledger s1' ++ [audit_record env table lt n wv])).
  { destruct (lower lt =? "incremental")%string eqn:Hlt.
    - pose proof (incremental_run_outcome env table lt gw s1' Hlt) as O. cbv zeta in O |- *.
      destruct O as [(_ & S & Le) | (_ & S & Le)].
      + split; left; assumption.
      + split; [exact S|]. destruct Le as [Le | (n & _ & Le)]; [now left|].
        right. now exists n, (latest_finished_gameweek env).
    - pose proof (full_run_outcome env table lt gw s1' Hlt) as O. cbv zeta in O |- *.
      destruct O as [(_ & S & Le) | (_ & S & Le)].
      + split; left; assumption.
      + split; [exact S|]. destruct Le as [Le | (n & _ & Le)]; [now left|].
        right. now exists n, gw. }
  cbv zeta in Out. unfold exec in Out.
  destruct (extract_and_save_to_landing env table lt gw s1') as [r s2].
  cbn [fst snd] in Hok, Out. subst r. destruct Out as [S Le].
  assert (N2 : NoDup (map fst (storage s2))).
  { destruct S as [-> | (content & ->)]; [exact N1|]. now apply blob_put_nodup. }
  cbn [s1' ledger storage] in Le. cbn [ledger] in L.
  destruct Le as [Le | (n & wv & Le)].
  - eexists; exists []. split; [reflexivity|]. cbn [p_ledger p_storage].
    split; [exact N2|]. split; [rewrite app_nil_r; congruence|].
    split; [simpl; lia | intros e []].
  - eexists; exists [audit_record env table lt n wv].
    split; [reflexivity|]. cbn [p_ledger p_storage].
    split; [exact N2|]. split; [congruence|].
    split; [simpl; lia|]. intros e [<-|[]]. now split.
Qed.

Lemma process_rows_outcome (env : Env) (gw : Z) (rows : list Config.row) :
  gcs_ok env = true ->
  forall p,
    NoDup (map fst (p_storage p)) ->
    exists p' new,
      process_rows env rows gw p = (Ok tt, p') /\
      NoDup (map fst (p_storage p')) /\
      p_ledger p' = p_ledger p ++ new /\
      (List.length new <= List.length (filter active rows))%nat /\
      forall e, In e new ->
                data_source e = DATA_SOURCE /\
                In (tablename e) (map Config.table_name (filter active rows)).
Proof.
  intros G. induction rows as [|row rest IH]; intros p ND.
  - exists p, []. cbn. rewrite app_nil_r. repeat split; try assumption; [lia | contradiction].
  - cbn [process_rows filter]. fold (active row).
    destruct (active row) eqn:Act.
    + unfold pbind at 1. unfold pbind at 1, headline_event at 1.
      set (p0 := mkProcess (p_ledger p) (p_storage p)
                           (p_buffer p ++ [Headline INFO _]) (p_cache p)).
      destruct (table_step_outcome env (Config.table_name row) (Config.load_type row) gw
                  p0 G ND) as (p1 & new1 & E1 & N1 & L1 & Len1 & In1).
      rewrite E1.
      destruct (IH p1 N1) as (p2 & new2 & E2 & N2 & L2 & Len2 & In2).
      exists p2, (new1 ++ new2). split; [exact E2|]. split; [exact N2|].
      split; [rewrite L2, L1; cbn [p0 p_ledger]; now rewrite app_assoc|].
      split; [rewrite length_app; cbn [List.length]; lia|].
      intros e I. apply in_app_or in I as [I|I].
      * destruct (In1 e I) as [T D]. split; [exact D|]. left. now symmetry.
      * destruct (In2 e I) as [D T]. split; [exact D|]. now right.
    + unfold pbind at 1, pret at 1. apply IH, ND.
Qed.

Lemma read_config_file_eq (env : Env) (renv : RunEnv) (p : Process) :
  gcs_ok env = true ->
  exists h,
    read_config_file env renv p
    = (Ok (configured_rows renv p),
       mkProcess (p_ledger p) (p_storage p) (p_buffer p ++ [h]) (p_cache p)).
Proof.
  intros G. unfold read_config_file, configured_rows. rewrite G.
  destruct (blob_get CONFIG_FILE_PATH (p_storage p)) as [content|];
    [destruct (csv_rows renv content) as [rows|]|]; eexists; reflexivity.
Qed.

(** A run of the driver with the bucket available and a known gameweek. *)
Lemma run_pipeline_completes (env : Env) (renv : RunEnv) (gw : Z) (p : Process) :
  gcs_ok env = true ->
  NoDup (map fst (p_storage p)) ->
  get_current_gameweek env = Some gw ->
  let rows := configured_rows renv p in
  exists p' new,
    run_pipeline env renv p = (Ok (RunSuccess gw (List.length rows)), p') /\
    p_cache p' = JNull /\
    blob_get (log_filepath renv) (p_storage p') = Some (log_dumps renv (p_buffer p')) /\
    p_ledger p' = p_ledger p ++ new /\
    (List.length new <= List.length (filter active rows))%nat /\
    forall e, In e new ->
              data_source e = DATA_SOURCE /\
              In (tablename e) (map Config.table_name (filter active rows)).
Proof.
  intros G ND Hgw rows. unfold run_pipeline. rewrite Hgw.
  unfold pbind at 1, headline_event at 1. unfold pbind at 1, headline_event at 1.
  unfold pbind at 1.
  match goal with
  | |- context [read_config_file env renv ?q] =>
      destruct (read_config_file_eq env renv q G) as (h & ->);
      change (configured_rows renv q) with rows
  end.
  cbv beta iota. unfold pbind at 1.
  match goal with
  | |- context [process_rows env rows gw ?q] =>
      destruct (process_rows_outcome env gw rows G q ND)
        as (p1 & new & -> & N1 & L1 & Len & Inn)
  end.
  unfold pbind, headline_event, save_logs_to_gcs, pret. rewrite G.
  eexists; exists new. split; [reflexivity|]. cbn [p_cache p_storage p_buffer p_ledger].
  split; [reflexivity|]. split; [apply blob_get_put|].
  split; [exact L1|]. split; [exact Len | exact Inn].
Qed.

(** With the bucket out of reach the trigger answers 500 and changes
    nothing.  The configuration cannot be read, so no row of it is looked
    at and no table is processed; ledger and bucket stay as they were; and
    the log of the run, which still records the pipeline as completed when
    the gameweek is known, is lost, because saving it is what raises. *)
Theorem bucket_out_of_reach_fails_run (env : Env) (renv : RunEnv) (p : Process) :
  gcs_ok env = false ->
  let answer := fpl_api_trigger env renv p in
  fst answer = (PipelineFailed GoogleCloudError, 500) /\
  p_ledger (snd answer) = p_ledger p /\
  p_storage (snd answer) = p_storage p /\
  p_buffer (snd answer)
  = match get_current_gameweek env with
    | Some current_gw =>
        [Headline INFO PipelineStarted;
         Headline INFO (CurrentGameweek current_gw);
         Headline ERROR ConfigFailed;
         Headline INFO PipelineCompleted]
    | None =>
        [Headline INFO PipelineStarted; Headline ERROR NoCurrentGameweek]
    end.
Proof.
  intros G answer. subst answer.
  assert (R : run_pipeline env renv p
              = (Raise GoogleCloudError,
                 mkProcess (p_ledger p) (p_storage p)
                   match get_current_gameweek env with
                   | Some current_gw =>
                       [Headline INFO PipelineStarted;
                        Headline INFO (CurrentGameweek current_gw);
                        Headline ERROR ConfigFailed;
                        Headline INFO PipelineCompleted]
                   | None =>
                       [Headline INFO PipelineStarted; Headline ERROR NoCurrentGameweek]
                   end
                   JNull)).
  { unfold run_pipeline.
    destruct (get_current_gameweek env) as [gw|].
    - unfold read_config_file. rewrite G.
      unfold pbind, headline_event, save_logs_to_gcs, pret. cbn [process_rows].
      unfold pret. rewrite G. reflexivity.
    - unfold pbind, headline_event, save_logs_to_gcs, pret. rewrite G. reflexivity. }
  unfold fpl_api_trigger. rewrite R. cbn [fst snd p_ledger p_storage p_buffer].
  now repeat split.
Qed.

Lemma bucket_out_of_reach_fails_run_witness :
  fst (fpl_api_trigger bucket_down_env sample_renv configured)
  = (PipelineFailed GoogleCloudError, 500) /\
  p_storage (snd (fpl_api_trigger bucket_down_env sample_renv configured))
  = p_storage configured.
Proof.
  destruct (bucket_out_of_reach_fails_run bucket_down_env sample_renv configured eq_refl)
    as (A & _ & S & _).
  split; [exact A | exact S].
Defined.

(** When the current gameweek cannot be determined nothing is processed:
    the run answers an error body with status 200, the ledger is
    untouched, and the only change to the bucket is the log file, which
    holds the two entries of the aborted run. *)
Theorem unknown_gameweek_processes_nothing (env : Env) (renv : RunEnv) (p : Process) :
  gcs_ok env = true ->
  bootstrap_events env = None ->
  let answer := fpl_api_trigger env renv p in
  fst answer = (PipelineResult RunError, 200) /\
  p_ledger (snd answer) = p_ledger p /\
  p_storage (snd answer)
  = blob_put (log_filepath renv)
             (log_dumps renv [Headline INFO PipelineStarted;
                              Headline ERROR NoCurrentGameweek])
             (p_storage p).
Proof.
  intros G Hev answer. subst answer.
  unfold fpl_api_trigger, run_pipeline, get_current_gameweek. rewrite Hev.
  unfold pbind, headline_event, save_logs_to_gcs, pret. rewrite G.
  cbn [fst snd p_ledger p_storage p_buffer app]. now repeat split.
Qed.

Lemma unknown_gameweek_processes_nothing_witness :
  fst (fpl_api_trigger quiet_env sample_renv configured) = (PipelineResult RunError, 200).
Proof.
  exact (proj1 (unknown_gameweek_processes_nothing quiet_env sample_renv configured
                  eq_refl eq_refl)).
Defined.

(** A completed run counts every configuration row, but only the active
    rows of the data source can leave a trace in the ledger: the answer
    reports as processed the number of all rows read, the ledger only grows,
    by at most one row per active configuration row, each for the table of
    an active row, the bootstrap cache is cleared and the log file holds
    the whole buffer. *)
Theorem run_counts_every_row_audits_active_ones
  (env : Env) (renv : RunEnv) (gw : Z) (p : Process) :
  gcs_ok env = true ->
  NoDup (map fst (p_storage p)) ->
  get_current_gameweek env = Some gw ->
  let rows := configured_rows renv p in
  let answer := fpl_api_trigger env renv p in
  fst answer = (PipelineResult (RunSuccess gw (List.length rows)), 200) /\
  p_cache (snd answer) = JNull /\
  blob_get (log_filepath renv) (p_storage (snd answer))
  = Some (log_dumps renv (p_buffer (snd answer))) /\
  exists new,
    p_ledger (snd answer) = p_ledger p ++ new /\
    (List.length new <= List.length (filter active rows))%nat /\
    forall e, In e new ->
              data_source e = DATA_SOURCE /\
              In (tablename e) (map Config.table_name (filter active rows)).
Proof.
  intros G ND Hgw rows answer. subst answer. unfold fpl_api_trigger.
  destruct (run_pipeline_completes env renv gw p G ND Hgw)
    as (p' & new & -> & C & B & L & Len & Inn).
  cbn [fst snd]. split; [reflexivity|]. split; [exact C|]. split; [exact B|].
  exists new. split; [exact L|]. split; [exact Len | exact Inn].
Qed.

Lemma run_counts_every_row_audits_active_ones_witness :
  fst (fpl_api_trigger season_env sample_renv configured)
  = (PipelineResult (RunSuccess 5 3), 200) /\
  exists new,
    p_ledger (snd (fpl_api_trigger season_env sample_renv configured)) = [] ++ new /\
    (List.length new <= 2)%nat.
Proof.
  destruct (run_counts_every_row_audits_active_ones season_env sample_renv 5 configured
              eq_refl) as (A & _ & _ & new & L & Len & _).
  - constructor; [intros [] | constructor].
  - reflexivity.
  - split; [exact A|]. exists new. split; [exact L | exact Len].
Defined.

(** A configuration that cannot be read is reported as a success: with a
    known gameweek and no readable configuration file the run processes
    no table, leaves the ledger untouched, stores its log and answers
    success with zero tables and status 200. *)
Theorem unreadable_config_is_success
  (env : Env) (renv : RunEnv) (gw : Z) (p : Process) :
  gcs_ok env = true ->
  get_current_gameweek env = Some gw ->
  (blob_get CONFIG_FILE_PATH (p_storage p) = None \/
   exists csv_content, blob_get CONFIG_FILE_PATH (p_storage p) = Some csv_content /\
                       csv_rows renv csv_content = None) ->
  let answer := fpl_api_trigger env renv p in
  fst answer = (PipelineResult (RunSuccess gw 0), 200) /\
  p_ledger (snd answer) = p_ledger p /\
  p_storage (snd answer)
  = blob_put (log_filepath renv)
             (log_dumps renv [Headline INFO PipelineStarted;
                              Headline INFO (CurrentGameweek gw);
                              Headline ERROR ConfigFailed;
                              Headline INFO PipelineCompleted])
             (p_storage p).
Proof.
  intros G Hgw Hcfg answer. subst answer.
  assert (R : run_pipeline env renv p
              = (Ok (RunSuccess gw 0),
                 mkProcess (p_ledger p)
                   (blob_put (log_filepath renv)
                      (log_dumps renv [Headline INFO PipelineStarted;
                                       Headline INFO (CurrentGameweek gw);
                                       Headline ERROR ConfigFailed;
                                       Headline INFO PipelineCompleted])
                      (p_storage p))
                   [Headline INFO PipelineStarted; Headline INFO (CurrentGameweek gw);
                    Headline ERROR ConfigFailed; Headline INFO PipelineCompleted]
                   JNull)).
  { unfold run_pipeline. rewrite Hgw.
    unfold pbind, headline_event, read_config_file. rewrite G. cbn [p_storage].
    destruct Hcfg as [-> | (content & -> & ->)];
      unfold pbind, headline_event, save_logs_to_gcs, pret; cbn [process_rows];
      unfold pret; rewrite G; reflexivity. }
  unfold fpl_api_trigger. rewrite R. cbn [fst snd p_ledger p_storage].
  now repeat split.
Qed.

Lemma unreadable_config_is_success_witness :
  fst (fpl_api_trigger season_env sample_renv (mkProcess [] [] [] JNull))
  = (PipelineResult (RunSuccess 5 0), 200).
Proof.
  exact (proj1 (unreadable_config_is_success season_env sample_renv 5
                  (mkProcess [] [] [] JNull) eq_refl eq_refl (or_introl eq_refl))).
Defined.

(** ** A failed fetch inside an incremental range *)




(** ** Layer refresh triggers *)

Lemma dict_set_keys (t k : string) (v : json) (d : dict) :
  In k (map fst (dict_set t v d)) <-> k = t \/ In k (map fst d).
Proof.
  induction d as [|[k' v'] d IH]; simpl.
  - intuition congruence.
  - destruct (String.eqb_spec k' t) as [->|Hne]; simpl; [intuition congruence|].
    rewrite IH. intuition congruence.
Qed.

Lemma dict_set_nodup (t : string) (v : json) (d : dict) :
  NoDup (map fst d) -> NoDup (map fst (dict_set t v d)).
Proof.
  induction d as [|[k' v'] d IH]; simpl; intros ND.
  - constructor; [intros [] | constructor].
  - inversion ND as [|? ? Hn ND']; subst.
    destruct (String.eqb_spec k' t) as [->|Hne]; simpl; [now constructor|].
    constructor; [|now apply IH].
    rewrite dict_set_keys. intros [->|I]; [congruence | contradiction].
Qed.

Lemma unique_value {V : Type} (k : string) (v v' : V) (d : list (string * V)) :
  NoDup (map fst d) -> In (k, v) d -> In (k, v') d -> v = v'.
Proof.
  induction d as [|[a b] d IH]; [contradiction|].
  simpl. intros ND I I'. inversion ND as [|? ? Hn ND']; subst.
  destruct I as [[= -> ->]|I], I' as [[= ->]|I']; try reflexivity.
  - exfalso. apply Hn, in_map_iff. now exists (k, v').
  - subst. exfalso. apply Hn, in_map_iff. now exists (k, v).
  - now apply IH.
Qed.

Lemma dict_get_in (k : string) (v : json) (d : dict) :
  dict_get k d = Some v -> In (k, v) d.
Proof.
  induction d as [|[k' v'] d IH]; simpl; [discriminate|].
  destruct (String.eqb_spec k' k) as [->|Hne].
  - intros [= ->]. now left.
  - intros H. right. now apply IH.
Qed.

Lemma refresh_keys (run_query : string -> option string)
  (queries : list (string * string)) :
  forall results k,
    In k (map fst (refresh run_query queries results)) <->
    In k (map fst results) \/ In k (map fst queries).
Proof.
  induction queries as [|[t q] rest IH]; intros results k; cbn [refresh map fst In].
  - tauto.
  - rewrite IH, dict_set_keys. intuition congruence.
Qed.

Lemma refresh_nodup (run_query : string -> option string)
  (queries : list (string * string)) :
  forall results,
    NoDup (map fst results) -> NoDup (map fst (refresh run_query queries results)).
Proof.
  induction queries as [|[t q] rest IH]; intros results ND; cbn [refresh]; [exact ND|].
  now apply IH, dict_set_nodup.
Qed.

Lemma refresh_get (run_query : string -> option string)
  (queries : list (string * string)) :
  NoDup (map fst queries) ->
  forall results t q,
    In (t, q) queries ->
    dict_get t (refresh run_query queries results) =
    Some (match run_query q with
          | None => JStr "success"
          | Some e => JStr ("error: " ++ e)
          end).
Proof.
  induction queries as [|[a b] rest IH]; intros ND results t q I; [contradiction|].
  cbn [refresh]. inversion ND as [|? ? Hnot ND']; subst.
  destruct I as [[= -> ->]|I].
  - clear IH. revert results.
    assert (Keep : forall results v,
              dict_get t results = Some v ->
              dict_get t (refresh run_query rest results) = Some v).
    { clear ND ND'. induction rest as [|[a b] rest IH]; intros results v H; [exact H|].
      cbn [refresh]. apply IH.
      - intros I. apply Hnot. now right.
      - rewrite dict_get_set_other; [exact H|].
        intros ->. apply Hnot. now left. }
    intros results. apply Keep, dict_get_set_same.
  - now apply IH.
Qed.

(** A layer refresh answers 200 exactly when every query of the layer
    completed, and 207 otherwise; a failing query never stops the others:
    every table of the layer gets its own result, "success" or the error
    text, whatever happened to the tables before it. *)
Theorem layer_trigger_status
  (run_query : string -> option string) (queries : list (string * string)) :
  NoDup (map fst queries) ->
  let answer := layer_trigger run_query queries in
  let results := snd (fst answer) in
  (forall t q, In (t, q) queries ->
     dict_get t results = Some (match run_query q with
                                | None => JStr "success"
                                | Some e => JStr ("error: " ++ e)
                                end)) /\
  (forall t, In t (map fst results) <-> In t (map fst queries)) /\
  ((forall t q, In (t, q) queries -> run_query q = None) ->
   fst (fst answer) = "success" /\ snd answer = 200) /\
  ((exists t q, In (t, q) queries /\ run_query q <> None) ->
   fst (fst answer) = "partial_failure" /\ snd answer = 207).
Proof.
  intros ND answer results. subst results answer. unfold layer_trigger. cbn [fst snd].
  set (results := refresh run_query queries []).
  assert (Get : forall t q, In (t, q) queries ->
            dict_get t results = Some (match run_query q with
                                       | None => JStr "success"
                                       | Some e => JStr ("error: " ++ e)
                                       end))
    by (intros t q I; now apply refresh_get).
  assert (Keys : forall t, In t (map fst results) <-> In t (map fst queries)).
  { intros t. unfold results. rewrite refresh_keys. simpl. tauto. }
  assert (Nd : NoDup (map fst results)) by (apply refresh_nodup; constructor).
  split; [exact Get|]. split; [exact Keys|]. split.
  - intros All.
    assert (F : forallb (fun kv => is_success (snd kv)) results = true).
    { apply forallb_forall. intros [t v] I. cbn [snd].
      assert (It : In t (map fst queries))
        by (apply Keys, in_map_iff; now exists (t, v)).
      apply in_map_iff in It as ([t' q] & E & Iq). cbn [fst] in E. subst t'.
      pose proof (Get t q Iq) as G. rewrite (All t q Iq) in G.
      apply dict_get_in in G.
      now rewrite (unique_value t v (JStr "success") results Nd I G). }
    rewrite F. now split.
  - intros (t & q & I & Bad).
    assert (F : forallb (fun kv => is_success (snd kv)) results = false).
    { destruct (forallb (fun kv => is_success (snd kv)) results) eqn:E; [|reflexivity].
      rewrite forallb_forall in E.
      pose proof (Get t q I) as G. apply dict_get_in in G.
      specialize (E _ G). cbn [snd] in E.
      destruct (run_query q) as [e|]; [|congruence].
      simpl in E. discriminate E. }
    rewrite F. now split.
Qed.

Lemma layer_trigger_status_witness :
  let answer := layer_trigger (fun q => if (q =? "q2")%string then Some "boom" else None)
                  [("players", "q1"); ("teams", "q2"); ("fixtures", "q3")] in
  dict_get "fixtures" (snd (fst answer)) = Some (JStr "success") /\
  fst (fst answer) = "partial_failure" /\ snd answer = 207.
Proof.
  pose proof (layer_trigger_status
                (fun q => if (q =? "q2")%string then Some "boom" else None)
                [("players", "q1"); ("teams", "q2"); ("fixtures", "q3")]) as H.
  cbv zeta in H. destruct H as (G & _ & _ & Bad).
  - constructor; [intros [H|[H|[]]]; discriminate H|].
    constructor; [intros [H|[]]; discriminate H|].
    constructor; [intros [] | constructor].
  - split.
    + exact (G "fixtures" "q3" (or_intror (or_intror (or_introl eq_refl)))).
    + apply Bad. exists "teams", "q2". split; [right; left; reflexivity | discriminate].
Defined.
